(* ===== verification/_CoqProject ===== *)
-Q . S2P
Prelude.v
PyText.v
Tokenizer.v
VectorIndex.v
Store.v
Search.v
Recommender.v
Api.v
Startup.v
Random.v
Populate.v
