(* ===== verification/Prelude.v ===== *)
(** * Verification of the E-Commerce LLM-based recommendation system

    The program (directory [src/E-Commerce-LLM-Based-Recommendation-System-main])
    is a FastAPI service ([run.py]) on top of two classes: [DB]
    ([db/sql_db.py]) keeps users, categories, products, search history,
    recommendations and feedback in SQLite ([db/sql_models.py]) and
    the product embeddings in a Qdrant collection ([db/qdrant_db.py]).
    Searches go through [TextTokenizer.clean_text] ([db/tokenizer.py]) and
    [TextEmbedder] ([db/embedder.py]).  [LLM] ([llm/llm.py]) builds a prompt
    from a user's profile, search history and the candidates of a hybrid
    search, asks a T5 model for a product name, resolves the answer to a
    candidate, and records a recommendation.  It also exports the rated
    recommendations as a fine-tuning data set.  The script
    [populate_synthetic_db.py] seeds the database through [DB] with
    random users, categories, products, searches, recommendations and
    feedback.

    ** Files, in dependency order
    - [Prelude] (this file): the world monad [M S A := S -> outcome A * S].
      An [outcome] is [Ok] or [Raise] of a Python exception [py_exc], and
      a write made before a [Raise] persists, as a committed SQL write
      does.  The file also holds the invariant combinators [preserves] and
      [guarantee] with their tactics [preserve_tac] and [guarantee_tac],
      the hint database [ecom], and shared list and string lemmas.
    - [PyText]: [str.split], [strip], [lower], [join], [re.sub]'s character
      class, [repr] of [str], [int], [dict] and [list] as f-strings print
      them, and SQLite's [LIKE]/[ILIKE] (modules [Py] and [Sql]).
    - [Tokenizer]: [TextTokenizer.clean_text] with NLTK's stopword list.
    - [VectorIndex]: the Qdrant server's contract as the classes
      [VectorIndex]/[VectorIndexLaws].  [RefIndex] is a reference
      implementation over a [gmap] that satisfies the laws.  [Qdrant]
      models the client methods of [QdrantDatabase] over any
      implementation, with a server that may be down.
    - [Store]: the six tables as records, the [world]
      (database, Qdrant state, clock), and every state-changing method of
      [DB] ([record_*], [update_*], [get_data],
      [summarize_recommendation_feedback_rating]).  [wf_db] is the
      invariant of the primary keys and [UNIQUE] columns; each method
      preserves it.
    - [Search]: [DB.search_product], i.e. the query log, the keyword path
      (the [WHERE] clause), the vector path and the merge loop.
    - [Recommender]: the methods of [LLM], with the generation model as
      the parameter [Generator].
    - [Api]: the endpoints of [run.py].  [serve] adds FastAPI's [Query]
      validation (422) and turns exceptions into statuses.  [step] and
      [reachable] are the request transition system.
    - [Startup]: the objects [run.py] builds before serving.  It holds the
      constants of [constants.py], [TextEmbedder] ([Embedder]) over the
      class [SentenceTransformers], and the model slots of [LLM]
      ([LLMObject]: [__init__], [load_data_for_inferencing],
      [make_inference_on_model]) over the class [T5].  [app_start] is
      [db = DB(); llm = LLM(db, True)].  [served_embedder] and
      [served_generator] are the embedding and generation functions of
      these objects, i.e. the instances of [TextEmbedder] and [Generator]
      the running app uses.
    - [Random]: the fuel monad [FM S A := S -> option (outcome A * S)]
      for code with [while True] loops.  [None] means "not determined
      with this fuel".  [ftry] is [try]/[except].  It also holds a Hoare
      logic [hoare] for it, its invariant form [finv] with the tactic
      [finv_tac], and CPython's [random.choice], [randint], [random],
      [uniform] and [sample] over a random source [rng].  These follow
      CPython's [Lib/random.py], which is not repository code; the
      lemma [hoare_sample] shows that [sample] draws without
      replacement.
    - [Populate]: [populate_synthetic_db.py], i.e. [DB()] and the five
      generators, each a computation of [FM] over the world of [Store]
      and the random source.  Every call into [DB] is the operation of
      [Store], [Search] or [Recommender].

    ** What is proved
    - Invariants by rule induction over [reachable]: every reachable
      world is well formed ([Api.reachable_wf]).  Every stored feedback
      comes from the user its recommendation was made for
      ([Api.reachable_feedback_authorized]).
    - Endpoint behaviour on every branch (403, 409, 404, 422, 500, 200).
    - Search: results obey the filters and hold no duplicate ids.  The
      result is the keyword rows followed by exactly the new rows whose
      ids Qdrant returned, in table order
      ([search_keyword_results_first]).  The vector path adds at most 50
      (the docstring says 5).  The query is
      always logged.  The [WHERE] clause refines the spec's matching rule
      ([keyword_where_spec]).
    - Recommender: the chosen product is the first candidate whose name
      matches.  An unresolved answer writes nothing and raises
      [UnboundLocalError].  The export yields one row per positive rating,
      and its candidates.
    - Tokenizer: the token shape, and idempotence of cleaning.  Store: no
      overwrite of feedback.  Qdrant: idempotent creation and upsert.
    - The performance endpoint's dict has one key per distinct rating of
      the feedback table, in increasing order, mapped to its number of
      rows ([Store.summarize_rating_counts]).
    - Seeding ([Populate]): on a database that already holds one of the
      100 generated emails, the script never ends, for every fuel and
      every seed ([populate_rerun_diverges]).  A run that ends has taken
      all 100 emails.  The user-picking loop stops at the first draw that
      is not excluded ([pick_user_terminates]).  The excluded users get no
      search history.  Seeded scores stay in [[0.5, 1]] and ratings in
      [[3, 5]] ([populate_score_rating_bounds]).  Feedback stays attached to the user's own
      recommendation through seeding and then through any API requests
      ([seeded_then_served_feedback_authorized], which composes
      [Populate] with [Api]).
    - Start-up ([Startup]): the [LLM] object of [run.py] answers every
      query with [served_generator] ([init_serves]), a refinement of the
      [Generator] parameter.  Without loading on start, every inference
      raises until [load_data_for_inferencing] runs.  Loading reads the
      checkpoints at most once.  The tokenizer sentinel [False] escapes
      the guard's [is None] test ([load_keeps_false_tokenizer]).  The
      start creates the product collection if missing and raises when
      Qdrant is down ([app_start_spec]).
    - Divergences from the spec, each stated as a theorem: the
      asymmetric stock rules, no re-embedding when a category is updated,
      the embedding text ["None"] in [update_product], the failure of a
      vector search during a Qdrant outage, and the dict/list mismatch
      between the serving and training prompts.

    ** Modelling choices and bounds
    - Python [int] is [Z] and [float] is [Q]; no value of the code
      overflows, since SQLite integers are 64-bit and the model never
      exceeds the ids and counts it is given.  [datetime.now()] is a
      logical clock that increases by one per read.
    - Strings are Rocq [string]s (code points 0..255).  [str.lower] and
      [isspace] follow CPython on that range.
    - Every loop of the service is a structural recursion on a list or a
      string.  The top-[k] bound of Qdrant is the code's [k = 50].  Only
      the seeding script has loops that need not stop: its [while True]
      loops (the user loop, the user-id draw, and [random.sample]'s
      redraw) take a [fuel] bound.  The theorems on divergence hold for
      every fuel.  Fuel is only a bound: a run determined with some fuel
      is the same with more ([Populate.populate_mono]).  The termination
      theorem gives the fuel that is enough (one more than the number of
      rejected draws).  The witnesses run the
      whole script with fuel 1000 under a MurmurHash3 finaliser as the
      random source.
    - The random source [rng] is the sequence of values the generator
      returns, one per call of [_randbelow] or [random()]
      ([randbelow n] is [rng i mod n]).  For every seed of CPython there
      is an [rng] that returns the same values, so theorems that hold
      for every [rng] hold for every seed.  The bit-level Mersenne
      Twister and the rejection loop inside [_randbelow] are therefore
      not modelled.
    - The handlers take the embedding function ([TextEmbedder]) and the
      generation function ([Generator]) as parameters, so their theorems
      hold for any function.  [Startup] builds both from the networks,
      which are the classes [SentenceTransformers] and [T5]: a checkpoint
      of a name or path and its [encode] or [generate].  Witnesses use a
      length embedder, a dot-product similarity and fixed answers.
    - Not modelled: file and network I/O (database file creation, model
      downloads, the CSV write, uvicorn, the CUDA/CPU device choice), the
      [return_as_dict] rendering of rows, and the inside of the two
      networks.  The file paths of [constants.py] are definitions, but
      only file I/O reads them.  The collection's vector size
      ([TextEmbedder.embedding_size = 384]) is not checked by the model:
      vectors of any length are stored and compared. *)

From Stdlib Require Export QArith String Ascii ZArith.
From stdpp Require Export base list list_relations gmap strings decidable sorting.

(** * Prelude: the execution monad, automation and shared list lemmas *)

Declare Scope py_scope.
Delimit Scope py_scope with py.

(** ** Exceptions that escape the modelled Python code.

    Each constructor is one exception the code can raise at a point the
    model reaches; the HTTP layer ([Api.v]) turns every escaping exception
    into a 500 response, except [HTTPException]. *)
Inductive py_exc :=
  | IntegrityError (constraint : string)  (** sqlalchemy.exc.IntegrityError *)
  | TypeErrorNone (what : string)         (** [None[...]] or [re.sub] on None *)
  | TypeError (what : string)             (** e.g. a call of the value [False] *)
  | AttributeErrorNone (attr : string)    (** [None.attr] *)
  | UnboundLocalError (var : string)      (** read of a never-assigned local *)
  | UpstreamError (what : string)         (** the Qdrant server failed *)
  | ValueError (what : string)            (** e.g. [random.sample] larger than its population *)
  | IndexError (what : string)            (** e.g. [random.choice] of an empty sequence *)
  | HTTPException (status : Z) (detail : string).

#[global] Instance py_exc_eq_dec : EqDecision py_exc.
Proof. solve_decision. Defined.

(** ** A state-and-exception monad.

    Writes already committed stay in the state when an exception is raised
    afterwards: this is the behaviour of the code, whose [Session.commit()]
    calls are not undone by a later failure. *)
Inductive outcome (A : Type) :=
  | Ok (a : A)
  | Raise (e : py_exc).
Arguments Ok {A} a.
Arguments Raise {A} e.

Definition M (S A : Type) : Type := S -> outcome A * S.

Section Monad.
Context {S : Type}.

Definition ret {A} (a : A) : M S A := fun s => (Ok a, s).
Definition raise {A} (e : py_exc) : M S A := fun s => (Raise e, s).
Definition bind {A B} (c : M S A) (k : A -> M S B) : M S B :=
  fun s => match c s with
           | (Ok a, s') => k a s'
           | (Raise e, s') => (Raise e, s')
           end.
Definition get : M S S := fun s => (Ok s, s).
Definition put (s : S) : M S unit := fun _ => (Ok tt, s).
Definition modify (f : S -> S) : M S unit := fun s => (Ok tt, f s).
Definition gets {A} (f : S -> A) : M S A := fun s => (Ok (f s), s).

(** [catch]: Python's [try ... except] around a block. *)
Definition catch {A} (c : M S A) (h : py_exc -> M S A) : M S A :=
  fun s => match c s with
           | (Ok a, s') => (Ok a, s')
           | (Raise e, s') => h e s'
           end.

(** A value already computed, or an exception already raised. *)
Definition lift {A} (o : outcome A) : M S A := fun s => (o, s).

(** Run a computation on one part of the state: [view] reads the part,
    [update] writes it back. *)
Definition zoom {T A} (view : S -> T) (update : T -> S -> S) (c : M T A) : M S A :=
  fun s => let '(r, t) := c (view s) in (r, update t s).

(** The value and the final state of a run, apart. *)
Definition result_of {A} (c : M S A) (s : S) : outcome A := fst (c s).
Definition state_of {A} (c : M S A) (s : S) : S := snd (c s).
End Monad.

Notation "'let*' x ':=' c 'in' k" := (bind c (fun x => k))
  (at level 10, x name, c at level 100, k at level 200) : py_scope.
Notation "'let*' ' p ':=' c 'in' k" := (bind c (fun x => match x with p => k end))
  (at level 10, p pattern, c at level 100, k at level 200) : py_scope.
Notation "c1 ';;;' c2" := (bind c1 (fun _ => c2))
  (at level 100, right associativity) : py_scope.

Open Scope py_scope.

Section MonadLaws.
Context {S : Type}.

Lemma bind_ret_l {A B} (a : A) (k : A -> M S B) s :
  bind (ret a) k s = k a s.
Proof. reflexivity. Qed.

Lemma bind_assoc {A B C} (c : M S A) (k : A -> M S B) (k' : B -> M S C) s :
  bind (bind c k) k' s = bind c (fun a => bind (k a) k') s.
Proof. unfold bind. destruct (c s) as [[] ?]; reflexivity. Qed.

Lemma bind_ok {A B} (c : M S A) (k : A -> M S B) s a s' :
  c s = (Ok a, s') -> bind c k s = k a s'.
Proof. unfold bind. by intros ->. Qed.

Lemma bind_raise {A B} (c : M S A) (k : A -> M S B) s e s' :
  c s = (Raise e, s') -> bind c k s = (Raise e, s').
Proof. unfold bind. by intros ->. Qed.

(** An invariant of the state preserved by every step of a computation
    is preserved by the whole computation, on both outcomes. *)
Definition preserves {A} (I : S -> Prop) (c : M S A) : Prop :=
  forall s, I s -> I (snd (c s)).

Lemma preserves_ret {A} I (a : A) : preserves I (ret a).
Proof. by intros s. Qed.

Lemma preserves_raise {A} I e : preserves I (@raise S A e).
Proof. by intros s. Qed.

Lemma preserves_gets {A} I (f : S -> A) : preserves I (gets f).
Proof. by intros s. Qed.

Lemma preserves_lift {A} I (o : outcome A) : preserves I (lift o).
Proof. by intros s. Qed.

Lemma preserves_bind {A B} I (c : M S A) (k : A -> M S B) :
  preserves I c -> (forall a, preserves I (k a)) -> preserves I (bind c k).
Proof.
  intros Hc Hk s Hs. unfold bind. specialize (Hc s Hs).
  destruct (c s) as [[a|e] s']; simpl in *; auto. by apply Hk.
Qed.

Lemma preserves_catch {A} I (c : M S A) (h : py_exc -> M S A) :
  preserves I c -> (forall e, preserves I (h e)) -> preserves I (catch c h).
Proof.
  intros Hc Hh s Hs. unfold catch. specialize (Hc s Hs).
  destruct (c s) as [[a|e] s']; simpl in *; auto. by apply Hh.
Qed.
End MonadLaws.

(** ** Guarantees: every step relates its start and end states by a
    preorder [R] (for instance "only this table changed"). *)
Section Guarantee.
Context {S : Type} (R : S -> S -> Prop) `{!PreOrder R}.

Definition guarantee {A} (c : M S A) : Prop := forall s, R s (snd (c s)).

Lemma guarantee_ret {A} (a : A) : guarantee (ret a).
Proof. intros s. simpl. reflexivity. Qed.

Lemma guarantee_raise {A} e : guarantee (@raise S A e).
Proof. intros s. simpl. reflexivity. Qed.

Lemma guarantee_gets {A} (f : S -> A) : guarantee (gets f).
Proof. intros s. simpl. reflexivity. Qed.

Lemma guarantee_lift {A} (o : outcome A) : guarantee (lift o).
Proof. intros s. simpl. reflexivity. Qed.

Lemma guarantee_bind {A B} (c : M S A) (k : A -> M S B) :
  guarantee c -> (forall a, guarantee (k a)) -> guarantee (bind c k).
Proof.
  intros Hc Hk s. unfold bind. specialize (Hc s).
  destruct (c s) as [[a|e] s'] eqn:E; simpl in *; [|done].
  etrans; [exact Hc|apply Hk].
Qed.
Lemma guarantee_catch {A} (c : M S A) (h : py_exc -> M S A) :
  guarantee c -> (forall e, guarantee (h e)) -> guarantee (catch c h).
Proof.
  intros Hc Hh s. unfold catch. specialize (Hc s).
  destruct (c s) as [[a|e] s'] eqn:E; simpl in *; [done|].
  etrans; [exact Hc|apply Hh].
Qed.
End Guarantee.

Lemma guarantee_weaken {S A} (R R' : S -> S -> Prop) (c : M S A) :
  (forall s s', R s s' -> R' s s') -> guarantee R c -> guarantee R' c.
Proof. intros HR Hc s. apply HR, Hc. Qed.

(** A state predicate stable under [R] is preserved by code that
    guarantees [R]. *)
Lemma guarantee_preserves {S A} (R : S -> S -> Prop) (P : S -> Prop) (c : M S A) :
  (forall s s', P s -> R s s' -> P s') -> guarantee R c -> preserves P c.
Proof. intros HP Hc s Hs. exact (HP _ _ Hs (Hc s)). Qed.

Create HintDb ecom.
Create Rewrite HintDb ecom.
#[export] Hint Resolve preserves_ret preserves_raise preserves_gets preserves_lift : ecom.
#[export] Hint Resolve preserves_bind preserves_catch : ecom.
#[export] Hint Rewrite @bind_ret_l @bind_assoc : ecom.

(** [run_m] unfolds the monad in a goal about one concrete run. *)
Ltac run_m :=
  repeat (unfold bind, ret, raise, get, put, modify, gets, lift, catch, result_of,
            state_of in *; simpl in *).

(** [guarantee_tac] proves a [guarantee] goal by the structure of the code. *)
Ltac guarantee_tac :=
  repeat (first [ solve [eauto with ecom]
                | apply guarantee_ret; try exact _
                | apply guarantee_raise; try exact _
                | apply guarantee_gets; try exact _
                | apply guarantee_lift; try exact _
                | eapply guarantee_bind; try exact _; [| intros ?]
                | eapply guarantee_catch; try exact _; [| intros ?]
                | progress case_match ]).

(** [preserve_tac] proves a [preserves] goal by the structure of the code;
    an operation with a lemma of its own in [ecom] is not unfolded. *)
Ltac preserve_tac :=
  repeat (first [ solve [eauto with ecom]
                | apply preserves_bind; [| intros ?]
                | apply preserves_catch; [| intros ?]
                | progress case_match ]).

(** ** Decidable equality on [Q]: Python floats are compared by [==]
    on values read from the same rows, so structural equality suffices. *)
#[global] Instance Q_eq_dec : EqDecision Q.
Proof. intros [n1 d1] [n2 d2]. solve_decision. Defined.

(** ** Python's [None]-able values, printed by an f-string. *)
Definition py_str_opt (o : option string) : string :=
  match o with Some s => s | None => "None"%string end.

(** ** Appending the elements not already present, the
    [if x not in acc: acc.append(x)] loop of the code. *)
Section AppendNew.
Context {A : Type} `{EqDecision A}.

Fixpoint append_new (acc : list A) (xs : list A) : list A :=
  match xs with
  | [] => acc
  | x :: xs' =>
      if decide (x ∈ acc) then append_new acc xs'
      else append_new (acc ++ [x]) xs'
  end.

Lemma append_new_prefix acc xs : exists suf, append_new acc xs = acc ++ suf.
Proof.
  revert acc. induction xs as [|x xs IH]; intros acc; simpl.
  - exists []. by rewrite app_nil_r.
  - case_decide; [apply IH|].
    destruct (IH (acc ++ [x])) as [suf ->]. exists (x :: suf).
    by rewrite <- app_assoc.
Qed.

Lemma elem_of_append_new acc xs y :
  y ∈ append_new acc xs <-> y ∈ acc \/ y ∈ xs.
Proof.
  revert acc. induction xs as [|x xs IH]; intros acc; simpl.
  - set_solver.
  - case_decide; rewrite IH; set_solver.
Qed.

(** The appended part holds elements of [xs] absent from [acc]. *)
Lemma append_new_suffix acc xs :
  exists suf, append_new acc xs = acc ++ suf /\ forall y, y ∈ suf -> y ∈ xs /\ y ∉ acc.
Proof.
  revert acc. induction xs as [|x xs IH]; intros acc; simpl.
  - exists []. rewrite app_nil_r. split; [done|set_solver].
  - case_decide as Hx.
    + destruct (IH acc) as (suf & -> & Hsuf). exists suf. split; [done|set_solver].
    + destruct (IH (acc ++ [x])) as (suf & -> & Hsuf). exists (x :: suf).
      rewrite <- app_assoc. split; [done|].
      intros y [->|Hy]%elem_of_cons; [set_solver|].
      destruct (Hsuf y Hy) as [? Hn]. set_solver.
Qed.

(** The rows [append_new] adds are exactly the new elements of [xs], in
    their order in [xs]. *)
Lemma append_new_spec acc xs :
  exists suf, append_new acc xs = acc ++ suf /\ suf `sublist_of` xs /\
    forall y, y ∈ suf <-> y ∈ xs /\ y ∉ acc.
Proof.
  revert acc. induction xs as [|x xs IH]; intros acc; simpl.
  - exists []. rewrite app_nil_r. split; [done|]. split; [constructor|]. set_solver.
  - case_decide as Hx.
    + destruct (IH acc) as (suf & -> & Hs & Hin). exists suf.
      split; [done|]. split; [by apply sublist_cons|].
      intros y. rewrite Hin, elem_of_cons. naive_solver.
    + destruct (IH (acc ++ [x])) as (suf & -> & Hs & Hin). exists (x :: suf).
      rewrite <- app_assoc. split; [done|]. split; [by apply sublist_skip|].
      intros y. rewrite !elem_of_cons, Hin, elem_of_app, list_elem_of_singleton.
      destruct (decide (y = x)) as [->|Hne]; naive_solver.
Qed.

Lemma append_new_length acc xs : length (append_new acc xs) <= length acc + length xs.
Proof.
  revert acc. induction xs as [|x xs IH]; intros acc; simpl; [lia|].
  case_decide; [specialize (IH acc); lia|]. specialize (IH (acc ++ [x])).
  rewrite length_app in IH. simpl in IH. lia.
Qed.

Lemma append_new_NoDup acc xs : NoDup acc -> NoDup (append_new acc xs).
Proof.
  revert acc. induction xs as [|x xs IH]; intros acc Hnd; simpl; [done|].
  case_decide; apply IH; [done|].
  apply list.NoDup_app. split; [done|]. split; [set_solver|]. apply NoDup_singleton.
Qed.
End AppendNew.

#[export] Hint Resolve append_new_NoDup : ecom.

(** ** String concatenation ([String.append] is [simpl never] under
    stdpp, so its two equations are rewrite lemmas). *)
Lemma str_app_nil_l (s : string) : (EmptyString ++ s)%string = s.
Proof. reflexivity. Qed.

Lemma str_app_cons c (s1 s2 : string) :
  (String c s1 ++ s2)%string = String c (s1 ++ s2)%string.
Proof. reflexivity. Qed.

Lemma str_app_nil_r (s : string) : (s ++ EmptyString)%string = s.
Proof. induction s as [|c s IH]; [done|]. by rewrite str_app_cons, IH. Qed.

Lemma str_app_assoc (s1 s2 s3 : string) :
  (s1 ++ (s2 ++ s3))%string = ((s1 ++ s2) ++ s3)%string.
Proof. induction s1 as [|c s1 IH]; [done|]. by rewrite !str_app_cons, IH. Qed.

Lemma str_app_inv_l (s1 s2 s3 : string) : (s1 ++ s2)%string = (s1 ++ s3)%string -> s2 = s3.
Proof. induction s1 as [|c s1 IH]; [done|]. rewrite !str_app_cons. intros [= ?]. by apply IH. Qed.

#[export] Hint Rewrite str_app_nil_l str_app_cons str_app_nil_r : ecom.

(** [List.filter] keeps a sublist. *)
Lemma std_filter_sublist {A} (f : A -> bool) (l : list A) : sublist (List.filter f l) l.
Proof. induction l as [|x l IH]; simpl; [constructor|]. destruct (f x); by constructor. Qed.

(** Membership in a [map] image. *)
Lemma elem_of_map_in {A B} (f : A -> B) (l : list A) x : x ∈ l -> f x ∈ map f l.
Proof. rewrite !list_elem_of_In. apply in_map. Qed.

Lemma elem_of_map_inv {A B} (f : A -> B) (l : list A) y :
  y ∈ map f l -> exists x, y = f x /\ x ∈ l.
Proof.
  rewrite list_elem_of_In. intros (x & <- & Hx)%in_map_iff. exists x.
  split; [done|]. by apply list_elem_of_In.
Qed.

#[export] Hint Resolve elem_of_map_in : ecom.
