(* ===== verification/PyText.v ===== *)
(** * PyText: the Python [str] methods and the SQLite [LIKE] operator the
    code relies on.

    A string is a Rocq [string]: a sequence of 8-bit characters, read as
    the Unicode code points 0..255 (Latin-1) of a Python [str].  The
    character classes are those of CPython for these code points:
    [isspace] is [Py_UNICODE_ISSPACE] (used by [str.split], [str.strip]
    and the [\s] class of [re]), [py_lower_char] is [str.lower].  SQLite's
    [lower()] and [LIKE] fold ASCII letters only. *)

From S2P Require Import Prelude.
From Stdlib Require Import DecimalString.

Module Py.

(** ** Character classes *)

Definition code (c : ascii) : nat := nat_of_ascii c.

Definition isspace (c : ascii) : bool :=
  let n := code c in
  ((9 <=? n) && (n <=? 13)) || ((28 <=? n) && (n <=? 32)) || (n =? 133) || (n =? 160).

Definition is_ascii_alnum (c : ascii) : bool :=
  let n := code c in
  ((48 <=? n) && (n <=? 57)) || ((65 <=? n) && (n <=? 90)) || ((97 <=? n) && (n <=? 122)).

Definition is_ascii_upper (c : ascii) : bool :=
  let n := code c in (65 <=? n) && (n <=? 90).

(** SQLite [lower()]: ASCII letters only. *)
Definition ascii_lower (c : ascii) : ascii :=
  if is_ascii_upper c then ascii_of_nat (code c + 32) else c.

(** Python [str.lower] on code points 0..255: ASCII and Latin-1 capitals
    (U+00C0..U+00DE except U+00D7). *)
Definition py_lower_char (c : ascii) : ascii :=
  let n := code c in
  if is_ascii_upper c || ((192 <=? n) && (n <=? 222) && negb (n =? 215))
  then ascii_of_nat (n + 32) else c.

(** ** String maps and filters *)

Fixpoint smap (f : ascii -> ascii) (s : string) : string :=
  match s with
  | EmptyString => EmptyString
  | String c s' => String (f c) (smap f s')
  end.

Fixpoint sfilter (p : ascii -> bool) (s : string) : string :=
  match s with
  | EmptyString => EmptyString
  | String c s' => if p c then String c (sfilter p s') else sfilter p s'
  end.

Definition lower (s : string) : string := smap py_lower_char s.
Definition sql_lower (s : string) : string := smap ascii_lower s.

(** A predicate on every character of a string. *)
Fixpoint sall (p : ascii -> bool) (s : string) : bool :=
  match s with
  | EmptyString => true
  | String c s' => p c && sall p s'
  end.

(** ** [str.split()] with no argument: the maximal runs of non-space
    characters.  [split_go s] is the leading run of [s] and the words of
    what follows it. *)
Fixpoint split_go (s : string) : string * list string :=
  match s with
  | EmptyString => (EmptyString, [])
  | String c s' =>
      let '(w, ws) := split_go s' in
      if isspace c then (EmptyString, match w with EmptyString => ws | _ => w :: ws end)
      else (String c w, ws)
  end.

Definition split (s : string) : list string :=
  let '(w, ws) := split_go s in
  match w with EmptyString => ws | _ => w :: ws end.

(** ** [str.strip()] *)
Fixpoint lstrip (s : string) : string :=
  match s with
  | EmptyString => EmptyString
  | String c s' => if isspace c then lstrip s' else s
  end.

Fixpoint rstrip (s : string) : string :=
  match s with
  | EmptyString => EmptyString
  | String c s' =>
      match rstrip s' with
      | EmptyString => if isspace c then EmptyString else String c EmptyString
      | r => String c r
      end
  end.

Definition strip (s : string) : string := rstrip (lstrip s).

(** ** [sep.join(l)] *)
Fixpoint join (sep : string) (l : list string) : string :=
  match l with
  | [] => EmptyString
  | [x] => x
  | x :: l' => (x ++ sep ++ join sep l')%string
  end.

(** ** [sub in s] *)
Fixpoint contains (sub s : string) : bool :=
  String.prefix sub s ||
  match s with EmptyString => false | String _ s' => contains sub s' end.

(** ** [repr] of the values the prompts print *)

Definition nl : string := String (ascii_of_nat 10) EmptyString.
Definition dq : ascii := ascii_of_nat 34.
Definition sq : ascii := "'"%char.
Definition backslash : ascii := "\"%char.

Definition hexdig (n : nat) : ascii :=
  if (n <? 10)%nat then ascii_of_nat (48 + n) else ascii_of_nat (87 + n).

(** [str.isprintable] on code points 0..255. *)
Definition isprintable (c : ascii) : bool :=
  let n := code c in
  ((32 <=? n) && (n <? 127)) || ((161 <=? n) && negb (n =? 173)).

(** One character inside a [repr] delimited by [quote]. *)
Definition repr_char (quote c : ascii) : string :=
  let n := code c in
  if Ascii.eqb c quote || Ascii.eqb c backslash then String backslash (String c EmptyString)
  else if (n =? 9)%nat then "\t"%string
  else if (n =? 10)%nat then "\n"%string
  else if (n =? 13)%nat then "\r"%string
  else if isprintable c then String c EmptyString
  else String backslash (String "x"%char
         (String (hexdig (n / 16)) (String (hexdig (n mod 16)) EmptyString))).

Fixpoint repr_chars (quote : ascii) (s : string) : string :=
  match s with
  | EmptyString => EmptyString
  | String c s' => (repr_char quote c ++ repr_chars quote s')%string
  end.

(** [repr(s)]: single quotes, unless [s] holds a single quote and no
    double quote. *)
Definition repr_str (s : string) : string :=
  let quote := if contains (String sq EmptyString) s && negb (contains (String dq EmptyString) s)
               then dq else sq in
  String quote (repr_chars quote s ++ String quote EmptyString)%string.

(** [repr(n)] of an [int]. *)
Definition repr_int (z : Z) : string := DecimalString.NilZero.string_of_int (Z.to_int z).

(** [repr] of a [dict] from [int] to [str] and of a [list] of [str]. *)
Definition repr_dict_int_str (l : list (Z * string)) : string :=
  ("{" ++ join ", " (map (fun '(k, v) => repr_int k ++ ": " ++ repr_str v) l) ++ "}")%string.

Definition repr_list_str (l : list string) : string :=
  ("[" ++ join ", " (map repr_str l) ++ "]")%string.

End Py.

Module Sql.
Import Py.

(** ** SQLite [LIKE]: [%] matches any sequence, [_] any one character,
    other characters match up to ASCII case.  No [ESCAPE] clause is used
    by the code. *)
Definition percent : ascii := "%"%char.
Definition underscore : ascii := "_"%char.

Fixpoint like_match (p s : string) : bool :=
  match p with
  | EmptyString => match s with EmptyString => true | _ => false end
  | String c p' =>
      if Ascii.eqb c percent then
        (fix any (t : string) : bool :=
           like_match p' t || match t with EmptyString => false | String _ t' => any t' end) s
      else if Ascii.eqb c underscore then
        match s with EmptyString => false | String _ s' => like_match p' s' end
      else
        match s with
        | EmptyString => false
        | String d s' => Ascii.eqb (ascii_lower c) (ascii_lower d) && like_match p' s'
        end
  end.

(** [column.ilike(pattern)] as SQLAlchemy renders it on SQLite:
    [lower(column) LIKE lower(pattern)]. *)
Definition ilike (column pattern : string) : bool :=
  like_match (sql_lower pattern) (sql_lower column).

(** The pattern [f"%{keyword}%"] of [search_product]. *)
Definition contains_pattern (k : string) : string :=
  String percent (k ++ String percent EmptyString)%string.

Definition wildcard_free (k : string) : bool :=
  sall (fun c => negb (Ascii.eqb c percent) && negb (Ascii.eqb c underscore)) k.

End Sql.

(** ** Lemmas on the text primitives *)

Section TextLemmas.
Import Py Sql.

Lemma ascii_lower_idem c : ascii_lower (ascii_lower c) = ascii_lower c.
Proof. destruct c as [[] [] [] [] [] [] [] []]; reflexivity. Qed.

Lemma ascii_lower_percent c : ascii_lower c = percent <-> c = percent.
Proof. destruct c as [[] [] [] [] [] [] [] []]; split; intros H; done. Qed.

Lemma ascii_lower_underscore c : ascii_lower c = underscore <-> c = underscore.
Proof. destruct c as [[] [] [] [] [] [] [] []]; split; intros H; done. Qed.

Lemma smap_app f s1 s2 : smap f (s1 ++ s2)%string = (smap f s1 ++ smap f s2)%string.
Proof. induction s1 as [|c s1 IH]; [done|]. by rewrite str_app_cons; simpl; rewrite IH. Qed.

(** One unfolding of the [%] case of [LIKE]. *)
Lemma like_percent_step p t :
  like_match (String percent p) t =
  like_match p t || match t with EmptyString => false | String _ t' =>
                      like_match (String percent p) t' end.
Proof. destruct t; reflexivity. Qed.

Lemma like_percent_any t : like_match (String percent EmptyString) t = true.
Proof.
  induction t as [|c t IH]; [done|].
  rewrite like_percent_step. by rewrite IH, orb_true_r.
Qed.

(** A wildcard-free pattern followed by [%] tests a prefix, up to case. *)
Lemma like_prefix k t :
  wildcard_free k = true ->
  like_match (sql_lower k ++ String percent EmptyString) (sql_lower t) =
  String.prefix (sql_lower k) (sql_lower t).
Proof.
  revert t. induction k as [|c k IH]; intros t Hk; simpl.
  { rewrite like_percent_any. by destruct (sql_lower t). }
  apply andb_prop in Hk as [Hc Hk]. apply andb_prop in Hc as [Hp Hu].
  destruct (Ascii.eqb_spec (ascii_lower c) percent) as [E|_].
  { apply (proj1 (ascii_lower_percent c)) in E. rewrite E in Hp. vm_compute in Hp. discriminate Hp. }
  destruct (Ascii.eqb_spec (ascii_lower c) underscore) as [E|_].
  { apply (proj1 (ascii_lower_underscore c)) in E. rewrite E in Hu. vm_compute in Hu. discriminate Hu. }
  destruct t as [|d t]; simpl; [done|].
  rewrite !ascii_lower_idem, IH by done.
  destruct (Ascii.eqb_spec (ascii_lower c) (ascii_lower d)) as [E|E];
    destruct (ascii_dec (ascii_lower c) (ascii_lower d)); done.
Qed.

(** The condition [Product.name.ilike(f"%{keyword}%")] holds exactly when
    the lower-cased keyword is a substring of the lower-cased column. *)
Lemma ilike_contains s k :
  wildcard_free k = true ->
  ilike s (contains_pattern k) = contains (sql_lower k) (sql_lower s).
Proof.
  intros Hk. unfold ilike, contains_pattern. cbn [sql_lower smap].
  rewrite smap_app. change (ascii_lower percent) with percent.
  change (smap ascii_lower (String percent EmptyString)) with (String percent EmptyString).
  induction s as [|c s IH].
  - rewrite like_percent_step. simpl. rewrite !orb_false_r.
    exact (like_prefix k EmptyString Hk).
  - rewrite like_percent_step. cbn [sql_lower smap contains].
    change (smap ascii_lower k) with (sql_lower k) in *.
    change (smap ascii_lower s) with (sql_lower s) in *.
    rewrite <- IH. f_equal. exact (like_prefix k (String c s) Hk).
Qed.

(** ** [str.split()] *)

Definition word_ok (w : string) : Prop :=
  w <> EmptyString /\ sall (fun c => negb (isspace c)) w = true.

Lemma split_go_words s :
  sall (fun c => negb (isspace c)) (split_go s).1 = true /\
  Forall word_ok (split_go s).2.
Proof.
  induction s as [|c s IH]; simpl; [done|].
  destruct (split_go s) as [w ws]; simpl in *. destruct IH as [Hw Hws].
  destruct (isspace c) eqn:E; simpl.
  - split; [done|]. destruct w; [done|]. constructor; [|done]. by split.
  - by rewrite E, Hw.
Qed.

(** Every word returned by [split] is non-empty and has no space. *)
Lemma split_words s : Forall word_ok (split s).
Proof.
  unfold split. pose proof (split_go_words s) as [Hw Hws].
  destruct (split_go s) as [w ws]; simpl in *.
  destruct w; [done|]. constructor; [|done]. by split.
Qed.

Lemma split_go_app w s :
  sall (fun c => negb (isspace c)) w = true ->
  split_go (w ++ s) = ((w ++ (split_go s).1)%string, (split_go s).2).
Proof.
  induction w as [|c w IH]; intros Hw; simpl; [apply surjective_pairing|].
  apply andb_prop in Hw as [Hc Hw]. rewrite str_app_cons. simpl. rewrite IH by done. simpl.
  by destruct (isspace c).
Qed.

Definition space : string := String " "%char EmptyString.

Lemma split_go_space J : split_go (space ++ J) = (EmptyString, split J).
Proof.
  unfold split, space. rewrite str_app_cons, str_app_nil_l. simpl.
  by destruct (split_go J) as [[|? ?] ?].
Qed.

(** [split] inverts [" ".join] on words without spaces. *)
Lemma split_join ws : Forall word_ok ws -> split (join space ws) = ws.
Proof.
  induction ws as [|w ws IH]; intros Hws; [done|].
  inversion Hws as [|? ? [Hne Hw] Hrest]; subst. specialize (IH Hrest).
  destruct ws as [|w' ws'].
  - unfold split. cbn [join]. rewrite <- (str_app_nil_r w), split_go_app by done.
    simpl. rewrite str_app_nil_r. by destruct w.
  - change (join space (w :: w' :: ws'))
      with (w ++ space ++ join space (w' :: ws'))%string.
    unfold split at 1. rewrite split_go_app, split_go_space by done.
    cbn [fst snd]. rewrite str_app_nil_r, IH. by destruct w.
Qed.

(** ** Character predicates over whole strings *)

Lemma sall_impl (p q : ascii -> bool) s :
  (forall c, p c = true -> q c = true) -> sall p s = true -> sall q s = true.
Proof.
  intros Hpq. induction s as [|c s IH]; simpl; [done|].
  intros [Hc Hs]%andb_prop. by rewrite Hpq, IH.
Qed.

Lemma sall_app p s1 s2 :
  sall p (s1 ++ s2)%string = sall p s1 && sall p s2.
Proof.
  induction s1 as [|c s1 IH]; [done|]. rewrite str_app_cons. simpl.
  by rewrite IH, andb_assoc.
Qed.

Lemma sall_sfilter p s : sall p (sfilter p s) = true.
Proof.
  induction s as [|c s IH]; simpl; [done|].
  destruct (p c) eqn:E; simpl; [by rewrite E|done].
Qed.

Lemma sfilter_id p s : sall p s = true -> sfilter p s = s.
Proof.
  induction s as [|c s IH]; simpl; [done|].
  intros [-> Hs]%andb_prop. by rewrite IH.
Qed.

Lemma sall_join p sep ws :
  sall p sep = true -> Forall (fun w => sall p w = true) ws ->
  sall p (join sep ws) = true.
Proof.
  intros Hsep. induction 1 as [|w ws Hw Hws IH]; [done|].
  destruct ws as [|w' ws']; [done|].
  change (join sep (w :: w' :: ws')) with (w ++ sep ++ join sep (w' :: ws'))%string.
  by rewrite !sall_app, Hw, Hsep, IH.
Qed.

Lemma split_go_sall p s :
  sall p s = true ->
  sall p (split_go s).1 = true /\ Forall (fun w => sall p w = true) (split_go s).2.
Proof.
  induction s as [|c s IH]; simpl; [done|].
  intros [Hc Hs]%andb_prop. destruct (IH Hs) as [Hw Hws].
  destruct (split_go s) as [w ws]; simpl in *.
  destruct (isspace c); simpl.
  - split; [done|]. destruct w; [done|]. by constructor.
  - by rewrite Hc, Hw.
Qed.

(** Every word of [split s] keeps the character property of [s]. *)
Lemma split_sall p s :
  sall p s = true -> Forall (fun w => sall p w = true) (split s).
Proof.
  intros H. unfold split. destruct (split_go_sall p s H) as [Hw Hws].
  destruct (split_go s) as [[|c w] ws]; simpl in *; [done|]. by constructor.
Qed.

Lemma lower_nonempty w : w <> EmptyString -> lower w <> EmptyString.
Proof. by destruct w. Qed.

End TextLemmas.
