(* ===== verification/Tokenizer.v ===== *)
(** * Tokenizer: [db/tokenizer.py], [TextTokenizer.clean_text].

    [clean_text] removes every character outside [A-Za-z0-9\s]
    ([re.sub]), splits on whitespace ([str.split]), lower-cases
    ([str.lower]) and drops NLTK's English stopwords.  The theorems show
    what a token is (non-empty, lower-case ASCII letters and digits, not a
    stopword) and that cleaning is idempotent: cleaning the space-joined
    tokens gives the same tokens back. *)

From S2P Require Import Prelude PyText.

Module Tokenizer.
Import Py.

(** [stopwords.words('english')] of NLTK.  The entries with an apostrophe
    can never equal a cleaned token. *)
Definition english_stopwords : list string := Eval compute in
  Py.split "i me my myself we our ours ourselves you you're you've you'll you'd
  your yours yourself yourselves he him his himself she she's her hers herself
  it it's its itself they them their theirs themselves what which who whom this
  that that'll these those am is are was were be been being have has had having
  do does did doing a an the and but if or because as until while of at by for
  with about against between into through during before after above below to
  from up down in out on off over under again further then once here there when
  where why how all any both each few more most other some such no nor not only
  own same so than too very s t can will just don don't should should've now d
  ll m o re ve y ain aren aren't couldn couldn't didn didn't doesn doesn't hadn
  hadn't hasn hasn't haven haven't isn isn't ma mightn mightn't mustn mustn't
  needn needn't shan shan't shouldn shouldn't wasn wasn't weren weren't won
  won't wouldn wouldn't"%string.

(** The characters kept by [re.sub(r'[^A-Za-z0-9\s]', '', query)]. *)
Definition keep_char (c : ascii) : bool := is_ascii_alnum c || isspace c.

(** [clean_text] on a [str], with the stopword list as a parameter. *)
Definition clean_text_with (stop_words : list string) (query : string) : list string :=
  let cleaned_query := sfilter keep_char query in
  let words := split cleaned_query in
  let words := map lower words in
  List.filter (fun word => negb (bool_decide (word ∈ stop_words))) words.

Definition clean_text (query : string) : list string :=
  clean_text_with english_stopwords query.

(** [clean_text] on a value that may be [None]: [re.sub] raises
    [TypeError] on [None]. *)
Definition clean_text_opt (query : option string) : outcome (list string) :=
  match query with
  | Some q => Ok (clean_text q)
  | None => Raise (TypeErrorNone "re.sub(query=None)")
  end.

(** A token character: a lower-case ASCII letter or a digit. *)
Definition is_token_char (c : ascii) : bool :=
  let n := code c in ((48 <=? n) && (n <=? 57)) || ((97 <=? n) && (n <=? 122)).

Definition is_token (stop_words : list string) (w : string) : Prop :=
  w <> EmptyString /\ sall is_token_char w = true /\ w ∉ stop_words.

End Tokenizer.

Section TokenizerProofs.
Import Py Tokenizer.

Lemma lower_alnum_token c :
  is_ascii_alnum c = true -> is_token_char (py_lower_char c) = true.
Proof. destruct c as [[] [] [] [] [] [] [] []]; done. Qed.

Lemma lower_token_char c : is_token_char c = true -> py_lower_char c = c.
Proof. destruct c as [[] [] [] [] [] [] [] []]; done. Qed.

Lemma sall_lower_token w :
  sall is_ascii_alnum w = true -> sall is_token_char (lower w) = true.
Proof.
  unfold lower. induction w as [|c w IH]; simpl; [done|].
  intros [Hc Hw]%andb_prop. by rewrite lower_alnum_token, IH.
Qed.

Lemma lower_token w : sall is_token_char w = true -> lower w = w.
Proof.
  unfold lower. induction w as [|c w IH]; simpl; [done|].
  intros [Hc Hw]%andb_prop. by rewrite lower_token_char, IH.
Qed.

Lemma keep_not_space_alnum c :
  keep_char c && negb (isspace c) = true -> is_ascii_alnum c = true.
Proof. destruct c as [[] [] [] [] [] [] [] []]; done. Qed.

Lemma token_char_keep c : is_token_char c = true -> keep_char c = true.
Proof. destruct c as [[] [] [] [] [] [] [] []]; done. Qed.

Lemma token_char_not_space c : is_token_char c = true -> negb (isspace c) = true.
Proof. destruct c as [[] [] [] [] [] [] [] []]; done. Qed.

(** The words of the cleaned query are non-empty ASCII-alphanumeric. *)
Lemma clean_words_alnum q :
  Forall (fun w => w <> EmptyString /\ sall is_ascii_alnum w = true)
         (split (sfilter keep_char q)).
Proof.
  pose proof (split_words (sfilter keep_char q)) as Hok.
  pose proof (split_sall keep_char _ (sall_sfilter keep_char q)) as Hkeep.
  rewrite Forall_forall in *. intros w Hw.
  destruct (Hok w Hw) as [Hne Hsp]. split; [done|].
  assert (Hboth : sall (fun c => keep_char c && negb (isspace c)) w = true).
  { specialize (Hkeep w Hw). clear -Hsp Hkeep. induction w as [|c w IH]; simpl in *; [done|].
    apply andb_prop in Hsp as [-> ?]. apply andb_prop in Hkeep as [-> ?]. by apply IH. }
  exact (sall_impl _ _ w keep_not_space_alnum Hboth).
Qed.

(** Every word [clean_text_with] returns is a token. *)
Lemma clean_text_all_tokens sw q : Forall (is_token sw) (clean_text_with sw q).
Proof.
  unfold clean_text_with. apply Forall_forall. intros t Ht.
  apply list_elem_of_In, filter_In in Ht as [Ht Hstop].
  apply in_map_iff in Ht as (w & <- & Hw%list_elem_of_In).
  pose proof (clean_words_alnum q) as Hws. rewrite Forall_forall in Hws.
  destruct (Hws w Hw) as [Hne Hal].
  apply negb_true_iff, bool_decide_eq_false in Hstop.
  repeat split; [by apply lower_nonempty | by apply sall_lower_token | done].
Qed.

(** C27: C-level property: every token of [clean_text] is a non-empty word of
    lower-case ASCII letters and digits that is not a stopword. *)
Theorem clean_text_tokens sw q : Forall (is_token sw) (clean_text_with sw q).
Proof. exact (clean_text_all_tokens sw q). Qed.

(** C28: Cleaning is idempotent: cleaning the space-joined tokens returns them. *)
Theorem clean_text_idempotent sw q :
  clean_text_with sw (join space (clean_text_with sw q)) = clean_text_with sw q.
Proof.
  pose proof (clean_text_all_tokens sw q) as Htok.
  remember (clean_text_with sw q) as ts eqn:Hts. clear Hts.
  unfold clean_text_with.
  assert (Hchars : Forall (fun w => sall is_token_char w = true) ts)
    by (eapply Forall_impl; [exact Htok|]; by intros w (_ & ? & _)).
  rewrite sfilter_id.
  2: { apply sall_join; [done|]. eapply Forall_impl; [exact Hchars|].
       intros w. apply sall_impl, token_char_keep. }
  rewrite split_join.
  2: { eapply Forall_impl; [exact Htok|]. intros w (Hne & Hw & _).
       split; [done|]. by eapply sall_impl; [apply token_char_not_space|]. }
  rewrite (map_ext_in _ id), map_id.
  2: { intros w Hw. apply lower_token. rewrite Forall_forall in Hchars.
       by apply Hchars, list_elem_of_In. }
  clear -Htok. induction Htok as [|w ts (_ & _ & Hw) _ IH]; [done|]. simpl.
  rewrite IH. by rewrite bool_decide_eq_false_2.
Qed.

Lemma token_char_not_wild c :
  is_token_char c = true ->
  negb (Ascii.eqb c Sql.percent) && negb (Ascii.eqb c Sql.underscore) = true.
Proof. destruct c as [[] [] [] [] [] [] [] []]; done. Qed.

Lemma token_char_lower c : is_token_char c = true -> ascii_lower c = c.
Proof. destruct c as [[] [] [] [] [] [] [] []]; done. Qed.

(** A token holds no [LIKE] wildcard. *)
Lemma token_wildcard_free sw w : is_token sw w -> Sql.wildcard_free w = true.
Proof. intros (_ & Hw & _). eapply sall_impl; [apply token_char_not_wild|exact Hw]. Qed.

(** SQLite's [lower()] leaves a token unchanged. *)
Lemma token_sql_lower sw w : is_token sw w -> sql_lower w = w.
Proof.
  intros (_ & Hw & _). unfold sql_lower. induction w as [|c w IH]; [done|].
  simpl in *. apply andb_prop in Hw as [Hc Hw]. by rewrite token_char_lower, IH.
Qed.

End TokenizerProofs.
