(* ===== verification/VectorIndex.v ===== *)
(** * VectorIndex: [db/qdrant_db.py] and the Qdrant collection behind it.

    The Qdrant server is not part of the repository: what it promises to
    its clients is the class [VectorIndexLaws] (point lookup after upsert,
    and a top-[k] search above a score threshold), modelled from the spec
    (section 4.2).  [RefIndex] is a reference implementation of that
    contract: the points of a collection in a [gmap], searched by sorting
    the qualifying points by decreasing score.  The client code of the
    repository, class [QdrantDatabase], is modelled in [Module Qdrant]
    over any implementation of the interface. *)

From S2P Require Import Prelude.

(** An embedding: [np.ndarray] of floats, read as rationals. *)
Definition vector : Type := list Q.

(** ** The contract of a vector collection *)
Class VectorIndex (I : Type) := {
  vi_empty : I;
  vi_upsert : Z -> vector -> I -> I;
  vi_get : I -> Z -> option vector;
  (** [Distance.COSINE]: the score of a stored vector for a query *)
  vi_score : vector -> vector -> Q;
  (** [client.search(query_vector, limit=k, score_threshold=t)], ids only *)
  vi_search : I -> vector -> nat -> Q -> list Z
}.

Definition qualifies {I : Type} `{!VectorIndex I} (i : I) (q : vector) (t : Q) (id : Z) : Prop :=
  exists v, vi_get i id = Some v /\ (t <= vi_score q v)%Q.

Class VectorIndexLaws (I : Type) `{!VectorIndex I} := {
  vi_get_empty id : vi_get vi_empty id = None;
  vi_get_upsert i id v id' :
    vi_get (vi_upsert id v i) id' = if decide (id = id') then Some v else vi_get i id';
  vi_upsert_upsert i id v : vi_upsert id v (vi_upsert id v i) = vi_upsert id v i;
  vi_search_sound i q k t id : id ∈ vi_search i q k t -> qualifies i q t id;
  vi_search_nodup i q k t : NoDup (vi_search i q k t);
  vi_search_limit i q k t : length (vi_search i q k t) <= k;
  (** a qualifying point is left out only when [k] points were returned,
      each scoring at least as high *)
  vi_search_full i q k t id :
    qualifies i q t id -> id ∉ vi_search i q k t -> length (vi_search i q k t) = k;
  vi_search_top i q k t id r v vr :
    vi_get i id = Some v -> (t <= vi_score q v)%Q -> id ∉ vi_search i q k t ->
    r ∈ vi_search i q k t -> vi_get i r = Some vr -> (vi_score q v <= vi_score q vr)%Q
}.

(** ** A reference implementation: the points of one collection. *)
Module RefIndex.

Class Similarity := similarity : vector -> vector -> Q.

Abbreviation points := (gmap Z vector).

Section Ref.
Context `{Sim : Similarity}.

(** [R a b]: [a] ranks before [b] (higher score first). *)
Definition ranks_before (q : vector) (a b : Z * vector) : Prop :=
  (similarity q b.2 <= similarity q a.2)%Q.

#[local] Instance ranks_before_dec q : RelDecision (ranks_before q).
Proof.
  intros a b. unfold ranks_before.
  destruct (Qlt_le_dec (similarity q a.2) (similarity q b.2)) as [Hlt|Hle].
  - right. by apply Qlt_not_le.
  - by left.
Defined.

#[local] Instance ranks_before_trans q : Transitive (ranks_before q).
Proof. intros a b c Hab Hbc. unfold ranks_before in *. by eapply Qle_trans. Qed.

#[local] Instance ranks_before_total q : Total (ranks_before q).
Proof.
  intros a b. unfold ranks_before.
  destruct (Qlt_le_dec (similarity q a.2) (similarity q b.2)); [right|left];
    [by apply Qlt_le_weak|done].
Qed.

Definition above (q : vector) (t : Q) (p : Z * vector) : bool :=
  Qle_bool t (similarity q p.2).

(** The ranked candidates: points scoring at least [t], best first. *)
Definition ranked (pts : points) (q : vector) (t : Q) : list (Z * vector) :=
  merge_sort (ranks_before q) (List.filter (above q t) (map_to_list pts)).

Definition ref_search (pts : points) (q : vector) (k : nat) (t : Q) : list Z :=
  (take k (ranked pts q t)).*1.

#[export] Instance ref_index : VectorIndex points := {
  vi_empty := ∅;
  vi_upsert id v pts := <[id := v]> pts;
  vi_get pts id := pts !! id;
  vi_score := similarity;
  vi_search := ref_search
}.

Lemma elem_of_ranked pts q t id v :
  (id, v) ∈ ranked pts q t <-> pts !! id = Some v /\ (t <= similarity q v)%Q.
Proof.
  unfold ranked. rewrite (merge_sort_Permutation _ _).
  rewrite list_elem_of_In, filter_In, <- list_elem_of_In, elem_of_map_to_list.
  unfold above. simpl. by rewrite Qle_bool_iff.
Qed.

Lemma ranked_NoDup_fst pts q t : NoDup (ranked pts q t).*1.
Proof.
  unfold ranked. rewrite (merge_sort_Permutation _ _).
  eapply sublist_NoDup; [apply (NoDup_fst_map_to_list pts)|].
  apply (fmap_sublist fst), std_filter_sublist.
Qed.

Lemma elem_of_ref_search pts q k t id :
  id ∈ ref_search pts q k t <-> exists v, (id, v) ∈ take k (ranked pts q t).
Proof.
  unfold ref_search. rewrite list_elem_of_fmap. split.
  - intros ([id' v] & -> & H). by exists v.
  - intros [v H]. by exists (id, v).
Qed.

Lemma elem_of_take_ranked pts q k t p :
  p ∈ take k (ranked pts q t) -> p ∈ ranked pts q t.
Proof. intros H. rewrite <- (take_drop k (ranked pts q t)). set_solver. Qed.

Lemma ref_search_sound pts q k t id :
  id ∈ ref_search pts q k t -> exists v, pts !! id = Some v /\ (t <= similarity q v)%Q.
Proof.
  intros [v Hv]%elem_of_ref_search. exists v.
  by apply elem_of_ranked, (elem_of_take_ranked pts q k t).
Qed.

Lemma ref_search_NoDup pts q k t : NoDup (ref_search pts q k t).
Proof.
  eapply sublist_NoDup; [apply ranked_NoDup_fst|].
  apply (fmap_sublist fst), sublist_take.
Qed.

Lemma ref_search_limit pts q k t : length (ref_search pts q k t) <= k.
Proof. unfold ref_search. rewrite length_fmap, length_take. lia. Qed.

Lemma ref_search_full pts q k t id v :
  pts !! id = Some v -> (t <= similarity q v)%Q -> id ∉ ref_search pts q k t ->
  length (ref_search pts q k t) = k.
Proof.
  intros Hid Ht Hnot. unfold ref_search. rewrite length_fmap, length_take.
  destruct (decide (length (ranked pts q t) <= k)) as [Hle|]; [|lia].
  exfalso. apply Hnot, elem_of_ref_search. exists v.
  rewrite take_ge by done. by apply elem_of_ranked.
Qed.

(** The reference search returns the best-scoring qualifying points: a
    qualifying point left out scores no higher than any point returned. *)
Lemma ref_search_top pts q k t id r v vr :
  pts !! id = Some v -> (t <= similarity q v)%Q -> id ∉ ref_search pts q k t ->
  r ∈ ref_search pts q k t -> pts !! r = Some vr ->
  (similarity q v <= similarity q vr)%Q.
Proof.
  intros Hid Ht Hnot [vr' Hr]%elem_of_ref_search Hvr.
  assert (Hin : (id, v) ∈ drop k (ranked pts q t)).
  { assert (Hr' : (id, v) ∈ ranked pts q t) by by apply elem_of_ranked.
    rewrite <- (take_drop k (ranked pts q t)) in Hr'.
    apply elem_of_app in Hr' as [Htk|]; [|done].
    exfalso. apply Hnot, elem_of_ref_search. by exists v. }
  pose proof (elem_of_take_ranked _ _ _ _ _ Hr) as [Hvr' _]%elem_of_ranked.
  rewrite Hvr in Hvr'. injection Hvr' as <-.
  apply (StronglySorted_app_1_elem_of (ranks_before q)
           (take k (ranked pts q t)) (drop k (ranked pts q t)) (r, vr) (id, v)); [|done|done].
  rewrite take_drop. apply StronglySorted_merge_sort; apply _.
Qed.

(** The reference search lists its ids best first. *)
Lemma ref_search_ordered pts q k t pre a post b :
  ref_search pts q k t = pre ++ a :: post -> b ∈ post ->
  exists va vb, pts !! a = Some va /\ pts !! b = Some vb /\
    (t <= similarity q vb)%Q /\ (similarity q vb <= similarity q va)%Q.
Proof.
  unfold ref_search. intros (l1 & l2 & -> & Hl2 & Hsplit)%fmap_app_inv Hb.
  symmetry in Hl2. apply fmap_cons_inv in Hl2 as ([a' va] & l3 & Ha & -> & ->).
  simpl in Ha. subst a'.
  apply list_elem_of_fmap in Hb as ([b' vb] & Hb' & Hbin). simpl in Hb'. subst b'.
  assert (Hsort : StronglySorted (ranks_before q) (take k (ranked pts q t))).
  { apply (StronglySorted_app_1_l (ranks_before q) _ (drop k (ranked pts q t))).
    rewrite take_drop. apply StronglySorted_merge_sort; apply _. }
  assert (Hin : forall p, p ∈ l1 ++ (a, va) :: l3 -> p ∈ ranked pts q t).
  { intros p Hp. apply (elem_of_take_ranked _ _ k). by rewrite Hsplit. }
  destruct (proj1 (elem_of_ranked _ _ _ _ _) (Hin (a, va) ltac:(set_solver))) as [Ha Hta].
  destruct (proj1 (elem_of_ranked _ _ _ _ _) (Hin (b, vb) ltac:(set_solver))) as [Hb Htb].
  exists va, vb. do 3 (split; [done|]).
  rewrite Hsplit in Hsort.
  replace (l1 ++ (a, va) :: l3) with ((l1 ++ [(a, va)]) ++ l3) in Hsort
    by by rewrite <- app_assoc.
  exact (StronglySorted_app_1_elem_of (ranks_before q) (l1 ++ [(a, va)]) l3 (a, va) (b, vb)
           Hsort ltac:(set_solver) Hbin).
Qed.

#[export] Instance ref_index_laws : VectorIndexLaws points.
Proof.
  split; simpl.
  - intros id. apply lookup_empty.
  - intros i id v id'. apply lookup_insert.
  - intros i id v. apply insert_insert_eq.
  - intros i q k t id [v Hv]%ref_search_sound. by exists v.
  - apply ref_search_NoDup.
  - apply ref_search_limit.
  - intros i q k t id [v [Hv Ht]]. by apply (ref_search_full _ _ _ _ _ v).
  - apply ref_search_top.
Qed.

End Ref.
#[global] Existing Instance ref_index.
#[global] Existing Instance ref_index_laws.
End RefIndex.

(** ** The client: class [QdrantDatabase] of [db/qdrant_db.py]. *)
Module Qdrant.

(** The server seen by the client: whether it answers, and its collections. *)
Record qstate (I : Type) := mkQState {
  q_up : bool;
  q_collections : gmap string I
}.
Arguments mkQState {I} _ _.
Arguments q_up {I} _.
Arguments q_collections {I} _.

Section Client.
Context {I : Type} `{!VectorIndex I}.

Definition down_error (call : string) : py_exc := UpstreamError call.

(** [create_collection_if_not_exists]: [get_collection] fails with a
    "Not found" error on a missing collection, which is then created; any
    other failure is re-raised. *)
Definition create_collection_if_not_exists (collection_name : string) : M (qstate I) unit :=
  fun s =>
    if q_up s then
      match q_collections s !! collection_name with
      | Some _ => (Ok tt, s)
      | None => (Ok tt, mkQState true (<[collection_name := vi_empty]> (q_collections s)))
      end
    else (Raise (down_error "get_collection"), s).

(** [delete_collection]: every exception is caught and printed. *)
Definition delete_collection (collection_name : string) : M (qstate I) unit :=
  fun s =>
    if q_up s then (Ok tt, mkQState true (delete collection_name (q_collections s)))
    else (Ok tt, s).

(** [record_embedding_into_collection]: [client.upsert] of one point. *)
Definition record_embedding_into_collection (collection_name : string) (id : Z)
    (embedding : vector) : M (qstate I) unit :=
  fun s =>
    if q_up s then
      match q_collections s !! collection_name with
      | Some c => (Ok tt, mkQState true (<[collection_name := vi_upsert id embedding c]>
                                         (q_collections s)))
      | None => (Raise (down_error "upsert: collection not found"), s)
      end
    else (Raise (down_error "upsert"), s).

(** [search_similar_products]: the ids of [client.search]. *)
Definition search_similar_products (collection_name : string) (query_embedding : vector)
    (k : nat) (similarity_threshold : Q) : M (qstate I) (list Z) :=
  fun s =>
    if q_up s then
      match q_collections s !! collection_name with
      | Some c => (Ok (vi_search c query_embedding k similarity_threshold), s)
      | None => (Raise (down_error "search: collection not found"), s)
      end
    else (Raise (down_error "search"), s).

(** The defaults of [search_similar_products]: [k=50], threshold [0.3]. *)
Definition default_k : nat := 50.
Definition default_threshold : Q := 3 # 10.

(** [QdrantDatabase.__init__]. *)
Definition init (collection_name : string) : M (qstate I) unit :=
  create_collection_if_not_exists collection_name.

End Client.

Section ClientProofs.
Context {I : Type} `{!VectorIndex I} `{!VectorIndexLaws I}.

(** Creating a collection that may already exist is idempotent: a second
    call changes neither the outcome nor the server. *)
Theorem create_collection_idempotent name (s : qstate I) :
  bind (create_collection_if_not_exists name) (fun _ => create_collection_if_not_exists name) s =
  create_collection_if_not_exists name s.
Proof.
  destruct s as [[] cols]; unfold bind, create_collection_if_not_exists; simpl; [|done].
  destruct (cols !! name) eqn:E; simpl; [by rewrite E|].
  by rewrite lookup_insert_eq.
Qed.

(** Upserting the same embedding twice stores what one upsert stores. *)
Theorem record_embedding_idempotent name id v (s : qstate I) :
  bind (record_embedding_into_collection name id v)
       (fun _ => record_embedding_into_collection name id v) s =
  record_embedding_into_collection name id v s.
Proof.
  destruct s as [[] cols]; unfold bind, record_embedding_into_collection; simpl; [|done].
  destruct (cols !! name) as [c|] eqn:E; simpl; [|done].
  by rewrite lookup_insert_eq, insert_insert_eq, vi_upsert_upsert.
Qed.

(** What a successful search returns: distinct ids, at most [k], each
    stored in the collection with a score at least the threshold. *)
Lemma search_similar_products_ok name q k t (s : qstate I) ids s' :
  search_similar_products name q k t s = (Ok ids, s') ->
  s' = s /\ exists c, q_collections s !! name = Some c /\ ids = vi_search c q k t.
Proof.
  unfold search_similar_products. destruct (q_up s); [|done].
  destruct (q_collections s !! name) as [c|]; [|done].
  intros [= <- <-]. eauto.
Qed.

End ClientProofs.
End Qdrant.

(** ** The client over the reference index *)
Section RefServer.
Context `{Sim : RefIndex.Similarity}.

(** Over the reference index, a successful [search_similar_products]
    returns at most [k] distinct ids of the collection, each scoring at
    least the threshold, best first (section 4.2). *)
Theorem search_similar_products_ranked name q k t (s : Qdrant.qstate RefIndex.points) ids s' :
  Qdrant.search_similar_products name q k t s = (Ok ids, s') ->
  (length ids <= k)%nat /\ NoDup ids /\
  exists c, Qdrant.q_collections s !! name = Some c /\
    forall pre a post b, ids = pre ++ a :: post -> b ∈ post ->
      exists va vb, c !! a = Some va /\ c !! b = Some vb /\
        (t <= RefIndex.similarity q vb)%Q /\
        (RefIndex.similarity q vb <= RefIndex.similarity q va)%Q.
Proof.
  intros (-> & c & Hc & ->)%Qdrant.search_similar_products_ok. simpl.
  split; [apply RefIndex.ref_search_limit|]. split; [apply RefIndex.ref_search_NoDup|].
  exists c. split; [done|]. intros pre a post b Hs Hb.
  exact (RefIndex.ref_search_ordered _ _ _ _ _ _ _ _ Hs Hb).
Qed.

End RefServer.

(** ** A concrete scoring, to run the model on examples: the dot product
    of the two vectors (the cosine of unit vectors). *)
Module Fixture.
#[export] Instance dot_similarity : RefIndex.Similarity :=
  fun a b => fold_right Qplus 0%Q (zip_with Qmult a b).
End Fixture.

Section VectorIndexWitnesses.
Import Fixture.

(** A server holding an empty product collection. *)
Definition q_product : Qdrant.qstate RefIndex.points :=
  Qdrant.mkQState true {[ "product"%string := ∅ ]}.

Lemma record_embedding_idempotent_witness :
  bind (Qdrant.record_embedding_into_collection "product" 1 [1%Q; 2%Q])
       (fun _ => Qdrant.record_embedding_into_collection "product" 1 [1%Q; 2%Q]) q_product =
  Qdrant.record_embedding_into_collection "product" 1 [1%Q; 2%Q] q_product.
Proof. exact (Qdrant.record_embedding_idempotent "product" 1 [1%Q; 2%Q] q_product). Defined.

(** Two points, [2] scoring higher than [1] for the query [[1]]. *)
Definition q_two : Qdrant.qstate RefIndex.points :=
  snd (bind (Qdrant.record_embedding_into_collection "product" 1 [1%Q])
            (fun _ => Qdrant.record_embedding_into_collection "product" 2 [3%Q]) q_product).

Lemma search_similar_products_ranked_witness :
  Qdrant.search_similar_products "product" [1%Q] 5 0 q_two = (Ok [2%Z; 1%Z], q_two) /\
  (length [2%Z; 1%Z] <= 5)%nat /\ NoDup [2%Z; 1%Z] /\
  exists c, Qdrant.q_collections q_two !! "product"%string = Some c /\
    forall pre a post b, [2%Z; 1%Z] = pre ++ a :: post -> b ∈ post ->
      exists va vb, c !! a = Some va /\ c !! b = Some vb /\
        (0 <= RefIndex.similarity [1%Q] vb)%Q /\
        (RefIndex.similarity [1%Q] vb <= RefIndex.similarity [1%Q] va)%Q.
Proof.
  assert (E : Qdrant.search_similar_products "product" [1%Q] 5 0 q_two = (Ok [2%Z; 1%Z], q_two))
    by (vm_compute; reflexivity).
  split; [exact E|]. exact (search_similar_products_ranked _ _ _ _ _ _ _ E).
Defined.

End VectorIndexWitnesses.
