(* ===== verification/Store.v ===== *)
(** * Store: the tables of [db/sql_models.py] and the CRUD methods of
    class [DB] in [db/sql_db.py].

    A table is the list of its rows in rowid order, the order in which
    SQLite returns a table scan; an insert gives the new row the largest
    rowid plus one (SQLite's rule for an [INTEGER PRIMARY KEY] without
    [AUTOINCREMENT]).  The constraints SQLite enforces are the [UNIQUE]
    ones ([user.email], [category.name],
    [recommendationfeedback.recommendation_id]); foreign keys are not
    enforced, SQLite's default.  The world of the program is the database,
    the Qdrant server and a clock for [datetime.now()].  Each method is a
    computation of the monad of the prelude; a write committed before an
    exception stays. *)

From S2P Require Import Prelude PyText VectorIndex.

Local Open Scope Z_scope.

(** ** Rows *)
Module User.
Record t := mk {
  user_id : Z; email : string; profile_description : option string;
  created_at : Z; updated_at : Z }.
#[global] Instance eq_dec : EqDecision t.
Proof. solve_decision. Defined.
End User.

Module Category.
Record t := mk {
  category_id : Z; name : string; description : option string;
  created_at : Z; updated_at : Z }.
#[global] Instance eq_dec : EqDecision t.
Proof. solve_decision. Defined.
End Category.

Module Product.
Record t := mk {
  product_id : Z; category_id : Z; name : string; description : option string;
  price : Q; stock : Z; created_at : Z; updated_at : Z }.
#[global] Instance eq_dec : EqDecision t.
Proof. solve_decision. Defined.
End Product.

(** The value a caller passes as [user_id]: [search_product] is called with
    an [int] by most callers and with a [str] by one. *)
Inductive py_key := PyInt (z : Z) | PyStr (s : string).

(** The value stored in an [INTEGER] column: SQLite's integer affinity
    turns a text that is an integer literal into an integer and keeps
    any other text as text.  Texts of a real literal that is a whole
    number (["3.0"], ["1e3"]), which SQLite also converts, and literals
    beyond 64 bits stay text in the model; only the seeding script's
    integers and the profile texts of the export reach this column. *)
Inductive sql_int := SqlInt (z : Z) | SqlText (s : string).

#[global] Instance sql_int_eq_dec : EqDecision sql_int.
Proof. solve_decision. Defined.

Definition is_digit (c : ascii) : bool :=
  let n := Py.code c in ((48 <=? n) && (n <=? 57))%nat.

Fixpoint digits_value (acc : Z) (s : string) : Z :=
  match s with
  | EmptyString => acc
  | String c s' => digits_value (10 * acc + Z.of_nat (Py.code c - 48)%nat) s'
  end.

(** SQLite's white space ([sqlite3Isspace]): space, tab, LF, VT, FF, CR. *)
Definition sql_space (c : ascii) : bool :=
  let n := Py.code c in ((n =? 32) || ((9 <=? n) && (n <=? 13)))%nat.

Fixpoint sql_ltrim (s : string) : string :=
  match s with
  | String c s' => if sql_space c then sql_ltrim s' else s
  | EmptyString => EmptyString
  end.

(** The leading decimal digits of a string, and the rest. *)
Fixpoint span_digits (s : string) : string * string :=
  match s with
  | String c s' =>
      if is_digit c then let '(d, r) := span_digits s' in (String c d, r)
      else (EmptyString, s)
  | EmptyString => (EmptyString, EmptyString)
  end.

(** A text that is an integer literal for SQLite: white space, an
    optional sign, at least one digit, white space. *)
Definition int_literal (s : string) : option Z :=
  let '(sign, body) :=
    match sql_ltrim s with
    | String c b =>
        if Ascii.eqb c "-"%char then (-1, b)
        else if Ascii.eqb c "+"%char then (1, b) else (1, String c b)
    | EmptyString => (1, EmptyString)
    end in
  let '(d, rest) := span_digits body in
  if negb (String.eqb d EmptyString) && Py.sall sql_space rest
  then Some (sign * digits_value 0 d) else None.

(** Integer affinity of an [INTEGER] column: an integer literal is stored
    as an integer, any other text as text. *)
Definition int_affinity (v : py_key) : sql_int :=
  match v with
  | PyInt z => SqlInt z
  | PyStr s => match int_literal s with Some z => SqlInt z | None => SqlText s end
  end.

(** [column == user_id] on an [INTEGER] column against an integer. *)
Definition sql_int_is (v : sql_int) (u : Z) : bool :=
  match v with SqlInt z => Z.eqb z u | SqlText _ => false end.

Module SearchHistory.
Record t := mk { search_id : Z; user_id : sql_int; query : string; created_at : Z }.
End SearchHistory.

Module Recommendation.
Record t := mk {
  recommendation_id : Z; user_id : Z; product_id : Z; score : Q; created_at : Z }.
End Recommendation.

Module RecommendationFeedback.
Record t := mk {
  recommendation_feedback_id : Z; recommendation_id : Z; user_id : Z; rating : Z;
  created_at : Z }.
End RecommendationFeedback.

(** ** The database and the world *)
Record db := mkDB {
  users : list User.t;
  categories : list Category.t;
  products : list Product.t;
  search_history : list SearchHistory.t;
  recommendations : list Recommendation.t;
  feedbacks : list RecommendationFeedback.t
}.

Definition empty_db : db := mkDB [] [] [] [] [] [].

Record world (I : Type) := mkWorld {
  sql : db;
  qdrant : Qdrant.qstate I;
  clock : Z
}.
Arguments mkWorld {I} _ _ _.
Arguments sql {I} _.
Arguments qdrant {I} _.
Arguments clock {I} _.

(** ** Tables: rowid allocation, primary-key lookup and update *)
Section Tables.
Context {R : Type} (key : R -> Z).

Definition max_id (ids : list Z) : Z := foldr Z.max 0 ids.
Definition next_id (tbl : list R) : Z := max_id (map key tbl) + 1.

(** [select(T).where(T.pk == id)] then [.first()] *)
Definition find_by (tbl : list R) (id : Z) : option R :=
  List.find (fun r => Z.eqb (key r) id) tbl.

(** An [UPDATE] of the row with primary key [id]. *)
Definition update_by (tbl : list R) (id : Z) (f : R -> R) : list R :=
  map (fun r => if Z.eqb (key r) id then f r else r) tbl.
End Tables.

(** The name of the product collection, [constants.QDRANT_PRODUCT_COLLECTION_NAME]. *)
Definition QDRANT_PRODUCT_COLLECTION_NAME : string := "product"%string.

(** [TextEmbedder.generate_embedding]: the sentence-transformer model. *)
Class TextEmbedder := generate_embedding : string -> vector.

(** The text embedded for a product, the f-string of [record_product] and
    [update_product]; [None] prints as ["None"]. *)
Definition product_text (name : option string) (category : string)
    (description : option string) : string :=
  ("Product name is " ++ py_str_opt name ++ " and category is " ++ category ++
   ". Description: " ++ py_str_opt description)%string.

(** ** [get_data]: the table named by a string, [None] for an unknown name. *)
Inductive table := TUser | TCategory | TProduct | TSearchHistory | TRecommendation
                 | TRecommendationFeedback.

Definition table_of_name (s : string) : option table :=
  if String.eqb s "User" then Some TUser
  else if String.eqb s "Category" then Some TCategory
  else if String.eqb s "Product" then Some TProduct
  else if String.eqb s "SearchHistory" then Some TSearchHistory
  else if String.eqb s "Recommendation" then Some TRecommendation
  else if String.eqb s "RecommendationFeedback" then Some TRecommendationFeedback
  else None.

Inductive row :=
  | RUser (u : User.t) | RCategory (c : Category.t) | RProduct (p : Product.t)
  | RSearchHistory (h : SearchHistory.t) | RRecommendation (r : Recommendation.t)
  | RRecommendationFeedback (f : RecommendationFeedback.t).

Definition lookup_row (d : db) (t : table) (id : Z) : option row :=
  match t with
  | TUser => RUser <$> find_by User.user_id (users d) id
  | TCategory => RCategory <$> find_by Category.category_id (categories d) id
  | TProduct => RProduct <$> find_by Product.product_id (products d) id
  | TSearchHistory => RSearchHistory <$> find_by SearchHistory.search_id (search_history d) id
  | TRecommendation =>
      RRecommendation <$> find_by Recommendation.recommendation_id (recommendations d) id
  | TRecommendationFeedback =>
      RRecommendationFeedback <$>
        find_by RecommendationFeedback.recommendation_feedback_id (feedbacks d) id
  end.

(** [get_data(table, id)['name']] on a category: [None['name']] raises. *)
Definition category_name_of (r : option row) : outcome string :=
  match r with
  | Some (RCategory c) => Ok (Category.name c)
  | _ => Raise (TypeErrorNone "get_data('Category', id)['name']")
  end.

(** ** Updating one table of the database *)
Definition set_users f (d : db) : db :=
  mkDB (f (users d)) (categories d) (products d) (search_history d) (recommendations d) (feedbacks d).
Definition set_categories f (d : db) : db :=
  mkDB (users d) (f (categories d)) (products d) (search_history d) (recommendations d) (feedbacks d).
Definition set_products f (d : db) : db :=
  mkDB (users d) (categories d) (f (products d)) (search_history d) (recommendations d) (feedbacks d).
Definition set_search_history f (d : db) : db :=
  mkDB (users d) (categories d) (products d) (f (search_history d)) (recommendations d) (feedbacks d).
Definition set_recommendations f (d : db) : db :=
  mkDB (users d) (categories d) (products d) (search_history d) (f (recommendations d)) (feedbacks d).
Definition set_feedbacks f (d : db) : db :=
  mkDB (users d) (categories d) (products d) (search_history d) (recommendations d) (f (feedbacks d)).

(** ** The methods of class [DB] *)
Section DB.
Context {I : Type} `{!VectorIndex I} `{!TextEmbedder}.
Local Abbreviation W := (world I).

(** [datetime.now()]: the clock, which then advances. *)
Definition now : M W Z := fun w => (Ok (clock w), mkWorld (sql w) (qdrant w) (clock w + 1)).

Definition modify_sql (f : db -> db) : M W unit :=
  modify (fun w => mkWorld (f (sql w)) (qdrant w) (clock w)).

Definition qdrant_call {A} (c : M (Qdrant.qstate I) A) : M W A :=
  zoom qdrant (fun q w => mkWorld (sql w) q (clock w)) c.

Definition get_data (table : string) (id : Z) : M W (option row) :=
  gets (fun w => match table_of_name table with
                 | Some t => lookup_row (sql w) t id
                 | None => None
                 end).

(** [DB.record_user]; the two [default_factory=datetime.now] fields are
    filled when the row object is built. *)
Definition record_user (email : string) (profile_description : option string) : M W unit :=
  let* created_at := now in
  let* updated_at := now in
  let* d := gets sql in
  if bool_decide (email ∈ map User.email (users d)) then
    raise (IntegrityError "UNIQUE constraint failed: user.email")
  else
    modify_sql (set_users (fun us =>
      us ++ [User.mk (next_id User.user_id us) email profile_description created_at updated_at])).

(** The rows of a table other than the one with primary key [id]. *)
Definition others {R} (key : R -> Z) (tbl : list R) (id : Z) : list R :=
  List.filter (fun r => negb (Z.eqb (key r) id)) tbl.

(** [DB.update_user]: only the supplied fields change; [updated_at] is set. *)
Definition update_user (user_id : Z) (new_email : option string)
    (new_profile_description : option string) : M W unit :=
  let* d := gets sql in
  match find_by User.user_id (users d) user_id with
  | None => ret tt
  | Some u =>
      let* t := now in
      let u' := User.mk (User.user_id u) (default (User.email u) new_email)
                  (match new_profile_description with
                   | Some p => Some p | None => User.profile_description u end)
                  (User.created_at u) t in
      if bool_decide (User.email u' ∈ map User.email (others User.user_id (users d) user_id))
      then raise (IntegrityError "UNIQUE constraint failed: user.email")
      else modify_sql (set_users (fun us => update_by User.user_id us user_id (fun _ => u')))
  end.

(** [DB.record_category] *)
Definition record_category (name : string) (description : option string) : M W unit :=
  let* created_at := now in
  let* updated_at := now in
  let* d := gets sql in
  if bool_decide (name ∈ map Category.name (categories d)) then
    raise (IntegrityError "UNIQUE constraint failed: category.name")
  else
    modify_sql (set_categories (fun cs =>
      cs ++ [Category.mk (next_id Category.category_id cs) name description created_at updated_at])).

(** [DB.update_category]: the products of the category are not re-embedded. *)
Definition update_category (category_id : Z) (new_name : option string)
    (new_description : option string) : M W unit :=
  let* d := gets sql in
  match find_by Category.category_id (categories d) category_id with
  | None => ret tt
  | Some c =>
      let* t := now in
      let c' := Category.mk (Category.category_id c) (default (Category.name c) new_name)
                  (match new_description with
                   | Some x => Some x | None => Category.description c end)
                  (Category.created_at c) t in
      if bool_decide (Category.name c' ∈
                      map Category.name (others Category.category_id (categories d) category_id))
      then raise (IntegrityError "UNIQUE constraint failed: category.name")
      else modify_sql (set_categories (fun cs =>
             update_by Category.category_id cs category_id (fun _ => c')))
  end.

(** Upsert of a product's embedding into the product collection. *)
Definition embed_product (product_id : Z) (text : string) : M W unit :=
  qdrant_call (Qdrant.record_embedding_into_collection QDRANT_PRODUCT_COLLECTION_NAME
                 product_id (generate_embedding text)).

(** [DB.record_product]: the row is committed, then the category name is
    read back and the product text embedded under the new product id. *)
Definition record_product (category_id : Z) (name : string) (description : option string)
    (price : Q) (stock : Z) : M W unit :=
  let* created_at := now in
  let* updated_at := now in
  let* d := gets sql in
  let product_id := next_id Product.product_id (products d) in
  let* _ := modify_sql (set_products (fun ps =>
              ps ++ [Product.mk product_id category_id name description price stock
                                created_at updated_at])) in
  let* cat := get_data "Category" category_id in
  let* product_category_str := lift (category_name_of cat) in
  embed_product product_id (product_text (Some name) product_category_str description).

(** The patch of [update_product]: each supplied field replaces the old one. *)
Definition patch_product (p : Product.t) (new_category_id : option Z)
    (new_name new_description : option string) (new_price : option Q)
    (new_stock : option Z) (t : Z) : Product.t :=
  Product.mk (Product.product_id p) (default (Product.category_id p) new_category_id)
    (default (Product.name p) new_name)
    (match new_description with Some x => Some x | None => Product.description p end)
    (default (Product.price p) new_price) (default (Product.stock p) new_stock)
    (Product.created_at p) t.

(** [DB.update_product].  After the session, [product.category_id] is read
    on [None] when no row matched; the embedded text is built from the
    arguments [new_name] and [new_description], not from the row. *)
Definition update_product (product_id : Z) (new_category_id : option Z)
    (new_name new_description : option string) (new_price : option Q)
    (new_stock : option Z) : M W unit :=
  let* d := gets sql in
  let* product :=
    match find_by Product.product_id (products d) product_id with
    | None => ret None
    | Some p =>
        let* t := now in
        let p' := patch_product p new_category_id new_name new_description new_price
                    new_stock t in
        let* _ := modify_sql (set_products (fun ps =>
                    update_by Product.product_id ps product_id (fun _ => p'))) in
        ret (Some p')
    end in
  match product with
  | None => raise (AttributeErrorNone "product.category_id")
  | Some p =>
      let* cat := get_data "Category" (Product.category_id p) in
      let* product_category_str := lift (category_name_of cat) in
      embed_product (Product.product_id p)
        (product_text new_name product_category_str new_description)
  end.

(** [DB.record_search_history] returns the new [search_id]; a [None]
    query violates [NOT NULL] on [searchhistory.query]. *)
Definition record_search_history (user_id : py_key) (query : option string) : M W Z :=
  let* created_at := now in
  match query with
  | None => raise (IntegrityError "NOT NULL constraint failed: searchhistory.query")
  | Some q =>
      let* d := gets sql in
      let search_id := next_id SearchHistory.search_id (search_history d) in
      let* _ := modify_sql (set_search_history (fun hs =>
                  hs ++ [SearchHistory.mk search_id (int_affinity user_id) q created_at])) in
      ret search_id
  end.

(** [DB.record_recommendation] returns the new [recommendation_id]. *)
Definition record_recommendation (user_id product_id : Z) (score : Q) : M W Z :=
  let* created_at := now in
  let* d := gets sql in
  let recommendation_id := next_id Recommendation.recommendation_id (recommendations d) in
  let* _ := modify_sql (set_recommendations (fun rs =>
              rs ++ [Recommendation.mk recommendation_id user_id product_id score created_at])) in
  ret recommendation_id.

(** [DB.record_recommendation_feedback]: the [UNIQUE] violation on
    [recommendation_id] is caught, rolled back, and reported as [None]. *)
Definition record_recommendation_feedback (recommendation_id user_id rating : Z)
    : M W (option Z) :=
  let* created_at := now in
  let* d := gets sql in
  if bool_decide (recommendation_id ∈
                  map RecommendationFeedback.recommendation_id (feedbacks d)) then
    ret None
  else
    let fid := next_id RecommendationFeedback.recommendation_feedback_id (feedbacks d) in
    let* _ := modify_sql (set_feedbacks (fun fs =>
                fs ++ [RecommendationFeedback.mk fid recommendation_id user_id rating
                                                 created_at])) in
    ret (Some fid).

End DB.

(** ** [summarize_recommendation_feedback_rating]: [GROUP BY rating] with
    [count], read into a dict.  SQLite returns the groups in increasing
    rating, which is the order of the dict; the dict is the association
    list [(rating, count)]. *)
Fixpoint bump (r : Z) (acc : list (Z * nat)) : list (Z * nat) :=
  match acc with
  | [] => [(r, 1%nat)]
  | (r', n) :: acc' =>
      if Z.eqb r r' then (r', S n) :: acc'
      else if Z.ltb r r' then (r, 1%nat) :: acc
      else (r', n) :: bump r acc'
  end.

Definition rating_summary (ratings : list Z) : list (Z * nat) :=
  fold_left (fun acc r => bump r acc) ratings [].

(** [dict.get(r)] on the summary. *)
Definition summary_get (r : Z) (summary : list (Z * nat)) : option nat :=
  snd <$> List.find (fun p => Z.eqb p.1 r) summary.

Section Summary.
Context {I : Type}.
Definition summarize_recommendation_feedback_rating : M (world I) (list (Z * nat)) :=
  gets (fun w => rating_summary (map RecommendationFeedback.rating (feedbacks (sql w)))).
End Summary.

(** ** Well-formed databases: primary keys and [UNIQUE] columns hold no
    duplicate. *)
Record wf_db (d : db) : Prop := {
  wf_user_ids : NoDup (map User.user_id (users d));
  wf_user_emails : NoDup (map User.email (users d));
  wf_category_ids : NoDup (map Category.category_id (categories d));
  wf_category_names : NoDup (map Category.name (categories d));
  wf_product_ids : NoDup (map Product.product_id (products d));
  wf_search_ids : NoDup (map SearchHistory.search_id (search_history d));
  wf_recommendation_ids : NoDup (map Recommendation.recommendation_id (recommendations d));
  wf_feedback_ids :
    NoDup (map RecommendationFeedback.recommendation_feedback_id (feedbacks d));
  wf_feedback_unique : NoDup (map RecommendationFeedback.recommendation_id (feedbacks d))
}.

Lemma wf_empty_db : wf_db empty_db.
Proof. split; constructor. Qed.

Lemma NoDup_map_snoc {R B} (g : R -> B) tbl r :
  NoDup (map g tbl) -> g r ∉ map g tbl -> NoDup (map g (tbl ++ [r])).
Proof.
  intros Hnd Hr. rewrite map_app. apply list.NoDup_app. split; [done|].
  split; [|apply NoDup_singleton]. simpl. set_solver.
Qed.

Section TableLemmas.
Context {R : Type} (key : R -> Z).

Lemma max_id_ge ids x : x ∈ ids -> x <= max_id ids.
Proof.
  induction ids as [|y ids IH]; simpl; [set_solver|].
  rewrite elem_of_cons. intros [->|Hx]; [lia|]. specialize (IH Hx). lia.
Qed.

Lemma max_id_nonneg ids : 0 <= max_id ids.
Proof. induction ids; simpl; lia. Qed.

(** A rowid is never [0], so its truth value in Python is [True]. *)
Lemma next_id_pos tbl : 0 < next_id key tbl.
Proof. unfold next_id. pose proof (max_id_nonneg (map key tbl)). lia. Qed.

(** The rowid of an insert is not a rowid of the table. *)
Lemma next_id_fresh tbl : next_id key tbl ∉ map key tbl.
Proof. unfold next_id. intros Hin%max_id_ge. lia. Qed.

Lemma elem_of_find_by tbl id r : find_by key tbl id = Some r -> r ∈ tbl /\ key r = id.
Proof.
  unfold find_by. intros H. pose proof (find_some _ _ H) as [Hin Heq].
  split; [by apply list_elem_of_In|]. by apply Z.eqb_eq.
Qed.

Lemma find_by_None tbl id : find_by key tbl id = None -> id ∉ map key tbl.
Proof.
  unfold find_by. intros H Hin. apply list_elem_of_fmap in Hin as (r & -> & Hr).
  apply list_elem_of_In in Hr. pose proof (find_none _ _ H r Hr) as E.
  simpl in E. by rewrite Z.eqb_refl in E.
Qed.

Lemma update_by_absent tbl id f : id ∉ map key tbl -> update_by key tbl id f = tbl.
Proof.
  induction tbl as [|r tbl IH]; simpl; [done|]. rewrite elem_of_cons.
  intros Hn. destruct (Z.eqb_spec (key r) id); [naive_solver|]. rewrite IH; naive_solver.
Qed.

(** A column the update leaves unchanged on the updated row is unchanged. *)
Lemma map_update_by {B} (g : R -> B) tbl id f :
  (forall r, key r = id -> g (f r) = g r) -> map g (update_by key tbl id f) = map g tbl.
Proof.
  intros Hg. induction tbl as [|r tbl IH]; simpl; [done|]. rewrite IH.
  destruct (Z.eqb_spec (key r) id); [by rewrite Hg|done].
Qed.

Lemma others_absent tbl id : id ∉ map key tbl -> others key tbl id = tbl.
Proof.
  induction tbl as [|r tbl IH]; simpl; [done|]. rewrite elem_of_cons.
  intros Hn. destruct (Z.eqb_spec (key r) id); [naive_solver|]. simpl. rewrite IH; naive_solver.
Qed.

Lemma elem_of_map_update_by {B} (g : R -> B) tbl id v x :
  x ∈ map g (update_by key tbl id (fun _ => v)) -> x ∈ map g tbl \/ x = g v.
Proof.
  induction tbl as [|r tbl IH]; simpl; [set_solver|].
  rewrite !elem_of_cons. destruct (Z.eqb (key r) id); naive_solver.
Qed.

(** Setting a [UNIQUE] column of one row to a value no other row holds
    keeps the column free of duplicates. *)
Lemma update_by_unique {B} (g : R -> B) tbl id v :
  NoDup (map key tbl) -> NoDup (map g tbl) -> g v ∉ map g (others key tbl id) ->
  NoDup (map g (update_by key tbl id (fun _ => v))).
Proof.
  induction tbl as [|r tbl IH]; simpl; [constructor|].
  intros [Hk Hks]%NoDup_cons [Hg Hgs]%NoDup_cons Hv.
  destruct (Z.eqb_spec (key r) id) as [<-|Hne]; simpl in Hv.
  - rewrite update_by_absent by done. rewrite others_absent in Hv by done.
    by constructor.
  - rewrite elem_of_cons in Hv. constructor; [|apply IH; naive_solver].
    intros [Hin|Heq]%elem_of_map_update_by; [done|]. naive_solver.
Qed.

End TableLemmas.

#[export] Hint Resolve next_id_fresh NoDup_map_snoc : ecom.

Section StoreInvariant.
Context {I : Type} `{!VectorIndex I} `{!TextEmbedder}.
Local Abbreviation W := (world I).

Definition wf_world (w : W) : Prop := wf_db (sql w).

Lemma qdrant_call_sql {A} (c : M (Qdrant.qstate I) A) (w : W) :
  sql (snd (qdrant_call c w)) = sql w.
Proof. unfold qdrant_call, zoom. by destruct (c (qdrant w)). Qed.

Lemma embed_product_sql id text (w : W) : sql (snd (embed_product id text w)) = sql w.
Proof. apply qdrant_call_sql. Qed.

(** A row appended with a fresh rowid and, for a [UNIQUE] column, a value
    the guard checked absent. *)
Ltac wf_snoc :=
  apply NoDup_map_snoc; [done|first [apply next_id_fresh | done]].

(** The updated row keeps the primary key found by [find_by]. *)
Ltac wf_update Hf :=
  first [ rewrite map_update_by; [done|];
          intros ? ->; simpl; by apply elem_of_find_by in Hf as [_ <-]
        | apply update_by_unique; done ].

Lemma record_user_wf email p : preserves wf_world (record_user email p).
Proof.
  intros w [] . unfold record_user. run_m.
  case_decide as Hin; [split; done|].
  split; simpl; try done; wf_snoc.
Qed.

Lemma update_user_wf uid e p : preserves wf_world (update_user uid e p).
Proof.
  intros w [] . unfold update_user. run_m.
  destruct (find_by User.user_id (users (sql w)) uid) as [u|] eqn:Hf; run_m; [|by split].
  case_decide as Hin; [by split|].
  split; simpl; try done; wf_update Hf.
Qed.

Lemma record_category_wf name descr : preserves wf_world (record_category name descr).
Proof.
  intros w [] . unfold record_category. run_m.
  case_decide as Hin; [split; done|].
  split; simpl; try done; wf_snoc.
Qed.

Lemma update_category_wf cid n dsc : preserves wf_world (update_category cid n dsc).
Proof.
  intros w [] . unfold update_category. run_m.
  destruct (find_by Category.category_id (categories (sql w)) cid) as [c|] eqn:Hf;
    run_m; [|by split].
  case_decide as Hin; [by split|].
  split; simpl; try done; wf_update Hf.
Qed.

(** The part of [record_product] and [update_product] after the commit
    does not write to the database. *)
Ltac embed_tail :=
  match goal with |- context [category_name_of ?x] => destruct (category_name_of x) end;
  unfold wf_world; simpl; rewrite ?embed_product_sql; simpl.

Lemma record_product_wf cid name descr price stock :
  preserves wf_world (record_product cid name descr price stock).
Proof.
  intros w [] . unfold record_product. run_m. embed_tail;
  split; simpl; try done; wf_snoc.
Qed.

Lemma update_product_wf pid c n d p st : preserves wf_world (update_product pid c n d p st).
Proof.
  intros w Hw. unfold update_product. run_m.
  destruct (find_by Product.product_id (products (sql w)) pid) as [q|] eqn:Hf; run_m; [|done].
  destruct Hw. embed_tail; split; simpl; try done; wf_update Hf.
Qed.

Lemma record_search_history_wf uid q : preserves wf_world (record_search_history uid q).
Proof.
  intros w [] . unfold record_search_history. run_m.
  destruct q; run_m; [|by split]. split; simpl; try done; wf_snoc.
Qed.

Lemma record_recommendation_wf uid pid sc : preserves wf_world (record_recommendation uid pid sc).
Proof. intros w [] . unfold record_recommendation. run_m. split; simpl; try done; wf_snoc. Qed.

Lemma qdrant_call_wf {A} (c : M (Qdrant.qstate I) A) : preserves wf_world (qdrant_call c).
Proof. intros w Hw. unfold wf_world. by rewrite qdrant_call_sql. Qed.

Lemma get_data_wf t id : preserves wf_world (get_data t id).
Proof. apply preserves_gets. Qed.

Lemma now_wf : preserves wf_world now.
Proof. by intros w Hw. Qed.

Lemma record_recommendation_feedback_wf rid uid r :
  preserves wf_world (record_recommendation_feedback rid uid r).
Proof.
  intros w [] . unfold record_recommendation_feedback. run_m.
  case_decide as Hin; [split; done|].
  split; simpl; try done; wf_snoc.
Qed.

End StoreInvariant.

#[export] Hint Resolve record_user_wf update_user_wf record_category_wf update_category_wf
  record_product_wf update_product_wf record_search_history_wf record_recommendation_wf
  record_recommendation_feedback_wf qdrant_call_wf get_data_wf now_wf
  preserves_ret preserves_raise preserves_gets preserves_lift : ecom.

(** ** The rating summary counts each rating *)
Section SummaryProofs.

Definition keys_sorted (l : list (Z * nat)) : Prop := StronglySorted (fun a b => a.1 < b.1) l.

Lemma summary_get_cons x r n l :
  summary_get x ((r, n) :: l) = if Z.eqb r x then Some n else summary_get x l.
Proof. unfold summary_get. simpl. by destruct (Z.eqb r x). Qed.

Lemma summary_get_below x l :
  Forall (fun b => x < b.1) l -> summary_get x l = None.
Proof.
  induction 1 as [|[r n] l Hr _ IH]; [done|]. rewrite summary_get_cons.
  simpl in Hr. destruct (Z.eqb_spec r x); [lia|done].
Qed.

Lemma elem_of_bump r l b : b ∈ bump r l -> b.1 = r \/ b ∈ l.
Proof.
  induction l as [|[a m] l IH]; simpl.
  { rewrite list_elem_of_singleton. intros ->. by left. }
  destruct (Z.eqb_spec r a) as [->|]; [rewrite !elem_of_cons; intros [->|]; [by left|by right; right]|].
  destruct (Z.ltb r a); rewrite !elem_of_cons; [intros [->|]; [by left|by right]|].
  intros [->|Hb]; [by right; left|]. destruct (IH Hb); [by left|by right; right].
Qed.

Lemma bump_sorted r l : keys_sorted l -> keys_sorted (bump r l).
Proof.
  unfold keys_sorted. induction l as [|[r' n] l IH]; simpl; intros Hs.
  { repeat constructor. }
  apply StronglySorted_inv in Hs as [Hs Hr'].
  destruct (Z.eqb_spec r r') as [->|Hne]; [by constructor|].
  destruct (Z.ltb_spec r r').
  - constructor; [by constructor|]. constructor; [simpl; lia|].
    eapply Forall_impl; [exact Hr'|]. simpl. intros. lia.
  - constructor; [by apply IH|].
    apply Forall_forall. intros b [Hb|Hb']%elem_of_bump; [simpl; lia|].
    rewrite Forall_forall in Hr'. by apply Hr'.
Qed.

Lemma bump_get r l x :
  keys_sorted l ->
  summary_get x (bump r l) =
  if Z.eqb r x then Some (S (default 0%nat (summary_get x l))) else summary_get x l.
Proof.
  unfold keys_sorted. induction l as [|[r' n] l IH]; intros Hs.
  { simpl. rewrite summary_get_cons. by destruct (Z.eqb r x). }
  apply StronglySorted_inv in Hs as [Hs Hr']. simpl.
  destruct (Z.eqb_spec r r') as [->|Hne].
  { rewrite !summary_get_cons. by destruct (Z.eqb r' x). }
  destruct (Z.ltb_spec r r').
  - rewrite !summary_get_cons. destruct (Z.eqb_spec r x) as [Hrx|]; [|done]. subst x.
    destruct (Z.eqb_spec r' r); [lia|]. rewrite summary_get_below; [done|].
    eapply Forall_impl; [exact Hr'|]. simpl. intros. lia.
  - rewrite !summary_get_cons, IH by done.
    destruct (Z.eqb_spec r' x), (Z.eqb_spec r x); subst; [lia|done|done|done].
Qed.

(** The summary after folding in more ratings. *)
Lemma fold_bump_get rs l x :
  keys_sorted l ->
  summary_get x (fold_left (fun acc r => bump r acc) rs l) =
  match (default 0%nat (summary_get x l) + count_occ Z.eq_dec rs x)%nat with
  | O => summary_get x l
  | n => Some n
  end.
Proof.
  revert l. induction rs as [|r rs IH]; intros l Hs; simpl.
  { rewrite Nat.add_0_r. by destruct (summary_get x l) as [[]|]. }
  rewrite IH by (by apply bump_sorted). rewrite bump_get by done.
  destruct (Z.eqb_spec r x) as [<-|Hne].
  - destruct (Z.eq_dec r r); [|done]. simpl.
    by rewrite Nat.add_succ_r.
  - destruct (Z.eq_dec r x); [done|]. done.
Qed.

(** The dict returned for the feedback table maps each rating to the
    number of feedback rows with that rating, and has no other key. *)
Lemma rating_summary_counts rs x :
  summary_get x (rating_summary rs) =
  if (count_occ Z.eq_dec rs x =? 0)%nat then None else Some (count_occ Z.eq_dec rs x).
Proof.
  unfold rating_summary. rewrite fold_bump_get by constructor. simpl.
  by destruct (count_occ Z.eq_dec rs x).
Qed.

Lemma fold_bump_sorted rs l :
  keys_sorted l -> keys_sorted (fold_left (fun acc r => bump r acc) rs l).
Proof. revert l. induction rs as [|r rs IH]; simpl; [done|]. auto using bump_sorted. Qed.

(** A summary sorted by key holds [(r, n)] exactly when [dict.get(r)] is
    [n]. *)
Lemma elem_of_keys_sorted l r n :
  keys_sorted l -> (r, n) ∈ l <-> summary_get r l = Some n.
Proof.
  unfold keys_sorted. induction 1 as [|[r' n'] l _ IH Hr]; [set_solver|].
  rewrite elem_of_cons, summary_get_cons, IH.
  destruct (Z.eqb_spec r' r) as [->|Hne].
  - rewrite summary_get_below; [naive_solver|].
    eapply Forall_impl; [exact Hr|]. simpl. lia.
  - naive_solver.
Qed.

Lemma count_occ_map {A} (f : A -> Z) l r :
  count_occ Z.eq_dec (map f l) r = length (List.filter (fun x => Z.eqb (f x) r) l).
Proof.
  induction l as [|x l IH]; [done|]. simpl.
  destruct (Z.eq_dec (f x) r), (Z.eqb_spec (f x) r); simpl; congruence.
Qed.

(** C21: [summarize_recommendation_feedback_rating] changes nothing and
    returns a dict whose keys are the distinct ratings of the feedback
    table, in increasing order, each mapped to the number of feedback rows
    with that rating ([GROUP BY rating] with [count(rating)]). *)
Theorem summarize_rating_counts {I : Type} (w : world I) :
  exists d, summarize_recommendation_feedback_rating w = (Ok d, w) /\ keys_sorted d /\
    forall r n, (r, n) ∈ d <->
      n = length (List.filter (fun f => Z.eqb (RecommendationFeedback.rating f) r)
                              (feedbacks (sql w))) /\ n <> 0%nat.
Proof.
  eexists. split; [reflexivity|].
  assert (Hs : keys_sorted (rating_summary (map RecommendationFeedback.rating (feedbacks (sql w)))))
    by (apply fold_bump_sorted; constructor).
  split; [exact Hs|]. intros r n.
  rewrite elem_of_keys_sorted, rating_summary_counts, count_occ_map by exact Hs.
  destruct (length _); simpl; naive_solver.
Qed.

End SummaryProofs.

(** ** Behaviour of the [DB] methods *)
Section StoreBehaviour.
Context {I : Type} `{!VectorIndex I} `{!VectorIndexLaws I} `{!TextEmbedder}.
Local Abbreviation W := (world I).

(** The world after [record_product]'s two clock reads and its insert. *)
Definition product_inserted (w : W) (cid : Z) (name : string) (descr : option string)
    (price : Q) (stock : Z) : W :=
  mkWorld (set_products (fun ps => ps ++ [Product.mk (next_id Product.product_id ps) cid name
                                             descr price stock (clock w) (clock w + 1)]) (sql w))
          (qdrant w) (clock w + 2).

(** C16: a second feedback for a recommendation is refused with [None] and
    leaves every table as it was: the first rating is never overwritten. *)
Theorem feedback_duplicate_no_overwrite rid uid rating (w : W) :
  rid ∈ map RecommendationFeedback.recommendation_id (feedbacks (sql w)) ->
  record_recommendation_feedback rid uid rating w =
  (Ok None, mkWorld (sql w) (qdrant w) (clock w + 1)).
Proof.
  intros Hin. unfold record_recommendation_feedback. run_m.
  by rewrite bool_decide_eq_true_2.
Qed.

(** A first feedback is stored with its rating and the new id is returned. *)
Lemma feedback_first_recorded rid uid rating (w : W) :
  rid ∉ map RecommendationFeedback.recommendation_id (feedbacks (sql w)) ->
  exists fid,
    result_of (record_recommendation_feedback rid uid rating) w = Ok (Some fid) /\
    feedbacks (sql (state_of (record_recommendation_feedback rid uid rating) w)) =
    feedbacks (sql w) ++ [RecommendationFeedback.mk fid rid uid rating (clock w)].
Proof.
  intros Hin. unfold record_recommendation_feedback. run_m.
  rewrite bool_decide_eq_false_2 by done. simpl. eauto.
Qed.

(** Renaming a category never touches the vector index, although the
    product texts embedded there contain the category name. *)
Theorem update_category_keeps_embeddings cid n dsc (w : W) :
  qdrant (state_of (update_category cid n dsc) w) = qdrant w.
Proof.
  unfold update_category, state_of. run_m.
  destruct (find_by _ _ _); run_m; [|done]. by case_decide.
Qed.

(** The vector stored for a product id after an upsert of the product
    collection. *)
Lemma embed_product_get pid text (w : W) c :
  Qdrant.q_up (qdrant w) = true ->
  Qdrant.q_collections (qdrant w) !! QDRANT_PRODUCT_COLLECTION_NAME = Some c ->
  exists c',
    Qdrant.q_collections (qdrant (snd (embed_product pid text w)))
      !! QDRANT_PRODUCT_COLLECTION_NAME = Some c' /\
    vi_get c' pid = Some (generate_embedding text) /\
    forall id, id <> pid -> vi_get c' id = vi_get c id.
Proof.
  intros Hup Hc. unfold embed_product, qdrant_call, zoom,
    Qdrant.record_embedding_into_collection. rewrite Hup, Hc. simpl.
  eexists. rewrite lookup_insert_eq. split; [done|].
  rewrite vi_get_upsert, decide_True by done. split; [done|].
  intros id Hne. by rewrite vi_get_upsert, decide_False.
Qed.

Lemma embed_product_stored pid text (w : W) c :
  Qdrant.q_up (qdrant w) = true ->
  Qdrant.q_collections (qdrant w) !! QDRANT_PRODUCT_COLLECTION_NAME = Some c ->
  exists c',
    Qdrant.q_collections (qdrant (snd (embed_product pid text w)))
      !! QDRANT_PRODUCT_COLLECTION_NAME = Some c' /\
    vi_get c' pid = Some (generate_embedding text).
Proof.
  intros Hup Hc. destruct (embed_product_get pid text w c Hup Hc) as (c' & ? & ? & _).
  eauto.
Qed.

(** C34: [update_product] with only a new stock re-embeds the product under
    the text ["Product name is None and category is ... Description: None"]:
    the f-string reads the [None] arguments, not the stored row. *)
Theorem update_product_embeds_None pid st (w : W) p cat c :
  find_by Product.product_id (products (sql w)) pid = Some p ->
  find_by Category.category_id (categories (sql w)) (Product.category_id p) = Some cat ->
  Qdrant.q_up (qdrant w) = true ->
  Qdrant.q_collections (qdrant w) !! QDRANT_PRODUCT_COLLECTION_NAME = Some c ->
  exists c',
    Qdrant.q_collections (qdrant (state_of (update_product pid None None None None (Some st)) w))
      !! QDRANT_PRODUCT_COLLECTION_NAME = Some c' /\
    vi_get c' pid = Some (generate_embedding
      ("Product name is None and category is " ++ Category.name cat ++
       ". Description: None")%string).
Proof.
  intros Hp Hcat Hup Hc. unfold update_product, state_of. run_m. rewrite Hp. run_m.
  pose proof (elem_of_find_by _ _ _ _ Hp) as [_ Hpid]. subst pid.
  rewrite Hcat. simpl.
  eapply embed_product_stored; [exact Hup|exact Hc].
Qed.

(** C35: [record_product] with a category id no category has commits the
    product row, then raises [TypeError] on [None['name']]: the product is
    left without an embedding. *)
Theorem record_product_missing_category cid name descr price stock (w : W) :
  find_by Category.category_id (categories (sql w)) cid = None ->
  record_product cid name descr price stock w =
  (Raise (TypeErrorNone "get_data('Category', id)['name']"),
   product_inserted w cid name descr price stock).
Proof.
  intros Hcat. unfold record_product, product_inserted. run_m. rewrite Hcat. simpl.
  f_equal. f_equal. lia.
Qed.

(** C40: [record_product] with an existing category inserts the row and
    stores the embedding of the product text under the new product id, the
    vector key the spec requires (section 3: embeddings follow every create). *)
Theorem record_product_embeds cid name descr price stock (w : W) cat c :
  find_by Category.category_id (categories (sql w)) cid = Some cat ->
  Qdrant.q_up (qdrant w) = true ->
  Qdrant.q_collections (qdrant w) !! QDRANT_PRODUCT_COLLECTION_NAME = Some c ->
  let pid := next_id Product.product_id (products (sql w)) in
  exists c',
    result_of (record_product cid name descr price stock) w = Ok tt /\
    sql (state_of (record_product cid name descr price stock) w) =
      sql (product_inserted w cid name descr price stock) /\
    Qdrant.q_collections (qdrant (state_of (record_product cid name descr price stock) w))
      !! QDRANT_PRODUCT_COLLECTION_NAME = Some c' /\
    vi_get c' pid = Some (generate_embedding
                            (product_text (Some name) (Category.name cat) descr)).
Proof.
  intros Hcat Hup Hc pid. unfold record_product, result_of, state_of. run_m.
  rewrite Hcat. simpl.
  edestruct (embed_product_get pid) as (c' & Hc' & Hget & _); [exact Hup|exact Hc|].
  unfold embed_product, qdrant_call, zoom, Qdrant.record_embedding_into_collection in *.
  simpl in *. rewrite Hup, Hc in *. simpl in *. eexists. split; [done|].
  split; [done|]. split; [exact Hc'|exact Hget].
Qed.

(** [record_user] with an email already in use fails on the [UNIQUE]
    constraint and adds no user; only the two clock reads remain. *)
Theorem record_user_duplicate_email email pd (w : W) :
  email ∈ map User.email (users (sql w)) ->
  record_user email pd w =
  (Raise (IntegrityError "UNIQUE constraint failed: user.email"),
   mkWorld (sql w) (qdrant w) (clock w + 1 + 1)).
Proof. intros Hin. unfold record_user. run_m. by rewrite bool_decide_eq_true_2. Qed.

End StoreBehaviour.

(** ** Examples: a store with one category, one product and one feedback. *)
Module StoreFixture.
Export Fixture.

(** A stand-in for the sentence-transformer: the text's length. *)
#[export] Instance length_embedder : TextEmbedder :=
  fun s => [inject_Z (Z.of_nat (String.length s))].

Definition w0 : world RefIndex.points :=
  mkWorld empty_db (Qdrant.mkQState true {[ QDRANT_PRODUCT_COLLECTION_NAME := ∅ ]}) 0.

Definition w_laptop : world RefIndex.points :=
  state_of (let* _ := record_category "Tech" (Some "Gadgets") in
            record_product 1 "Laptop" (Some "Gaming laptop") 1500 30) w0.

Definition tech : Category.t := Category.mk 1 "Tech" (Some "Gadgets") 0 1.
Definition laptop : Product.t := Product.mk 1 1 "Laptop" (Some "Gaming laptop") 1500 30 2 3.

Definition w_feedback : world RefIndex.points :=
  state_of (record_recommendation_feedback 1 7 5) w_laptop.

End StoreFixture.

Section StoreWitnesses.
Import StoreFixture.

Lemma feedback_duplicate_no_overwrite_witness :
  1 ∈ map RecommendationFeedback.recommendation_id (feedbacks (sql w_feedback)) /\
  record_recommendation_feedback 1 7 4 w_feedback =
  (Ok None, mkWorld (sql w_feedback) (qdrant w_feedback) (clock w_feedback + 1)).
Proof.
  assert (H : 1 ∈ map RecommendationFeedback.recommendation_id (feedbacks (sql w_feedback)))
    by (apply list_elem_of_In; vm_compute; left; reflexivity).
  split; [exact H|]. apply feedback_duplicate_no_overwrite. exact H.
Defined.

Lemma update_product_embeds_None_witness :
  exists c', Qdrant.q_collections (qdrant (state_of (update_product 1 None None None None (Some 0))
                                            w_laptop)) !! QDRANT_PRODUCT_COLLECTION_NAME = Some c' /\
    vi_get c' 1 = Some (generate_embedding
      ("Product name is None and category is Tech. Description: None")%string).
Proof. eapply (update_product_embeds_None 1 0 w_laptop laptop tech); reflexivity. Defined.

Lemma record_product_missing_category_witness :
  record_product 9 "Mouse" None 20 5 w_laptop =
  (Raise (TypeErrorNone "get_data('Category', id)['name']"),
   product_inserted w_laptop 9 "Mouse" None 20 5).
Proof. apply record_product_missing_category. reflexivity. Defined.

(** The product collection of [w_laptop]. *)
Definition c_laptop : RefIndex.points :=
  default ∅ (Qdrant.q_collections (qdrant w_laptop) !! QDRANT_PRODUCT_COLLECTION_NAME).

Lemma record_product_embeds_witness :
  find_by Category.category_id (categories (sql w_laptop)) 1 = Some tech /\
  Qdrant.q_up (qdrant w_laptop) = true /\
  Qdrant.q_collections (qdrant w_laptop) !! QDRANT_PRODUCT_COLLECTION_NAME = Some c_laptop /\
  let pid := next_id Product.product_id (products (sql w_laptop)) in
  exists c',
    result_of (record_product 1 "Mouse" (Some "Wireless mouse") 25 10) w_laptop = Ok tt /\
    sql (state_of (record_product 1 "Mouse" (Some "Wireless mouse") 25 10) w_laptop) =
      sql (product_inserted w_laptop 1 "Mouse" (Some "Wireless mouse") 25 10) /\
    Qdrant.q_collections (qdrant (state_of (record_product 1 "Mouse" (Some "Wireless mouse") 25 10)
                                           w_laptop))
      !! QDRANT_PRODUCT_COLLECTION_NAME = Some c' /\
    vi_get c' pid = Some (generate_embedding
                            (product_text (Some "Mouse") (Category.name tech)
                                          (Some "Wireless mouse"))).
Proof.
  assert (H1 : find_by Category.category_id (categories (sql w_laptop)) 1 = Some tech)
    by (vm_compute; reflexivity).
  assert (H2 : Qdrant.q_up (qdrant w_laptop) = true) by (vm_compute; reflexivity).
  assert (H3 : Qdrant.q_collections (qdrant w_laptop) !! QDRANT_PRODUCT_COLLECTION_NAME =
               Some c_laptop) by (vm_compute; reflexivity).
  split; [exact H1|]. split; [exact H2|]. split; [exact H3|].
  exact (record_product_embeds 1 "Mouse" (Some "Wireless mouse") 25 10 w_laptop tech c_laptop
           H1 H2 H3).
Defined.

Lemma record_user_duplicate_email_witness :
  "ana@example.com"%string ∈
    map User.email (users (sql (state_of (record_user "ana@example.com" None) w0))) /\
  record_user "ana@example.com" (Some "books") (state_of (record_user "ana@example.com" None) w0) =
  (Raise (IntegrityError "UNIQUE constraint failed: user.email"),
   mkWorld (sql (state_of (record_user "ana@example.com" None) w0))
           (qdrant (state_of (record_user "ana@example.com" None) w0))
           (clock (state_of (record_user "ana@example.com" None) w0) + 1 + 1)).
Proof.
  assert (H : "ana@example.com"%string ∈
    map User.email (users (sql (state_of (record_user "ana@example.com" None) w0))))
    by (apply list_elem_of_In; vm_compute; left; reflexivity).
  split; [exact H|]. exact (record_user_duplicate_email _ _ _ H).
Defined.

End StoreWitnesses.
