(* ===== verification/Search.v ===== *)
(** * Search: [DB.search_product] of [db/sql_db.py], the hybrid search.

    The search first logs the query in [SearchHistory] when a user id is
    given, then runs two retrieval paths over the [product] table:
    - the keyword path: one SQL [SELECT] whose [WHERE] holds the [ILIKE]
      tests of every token of [clean_text] (OR-ed) and the price and stock
      bounds, with [stock > min_stock] (default [stock > 0]);
    - the vector path: the query is embedded, Qdrant returns at most 50
      product ids scoring at least the threshold, the products with these
      ids are read back ([product_id IN (...)], rowid order), and each one
      passing the stock rule [stock >= min_stock and stock > 0] (when
      [min_stock] is truthy, else [stock > 0]) and the price bounds is
      appended unless already present.
    The theorems characterise each path, bound the result, and show the
    merge order and the absence of duplicates. *)

From S2P Require Import Prelude PyText Tokenizer VectorIndex Store.

Local Open Scope Z_scope.

Module Search.
Import Py.

(** The price bounds, as both paths write them. *)
Definition price_ok (min_price max_price : option Q) (p : Product.t) : bool :=
  match min_price with Some m => Qle_bool m (Product.price p) | None => true end &&
  match max_price with Some m => Qle_bool (Product.price p) m | None => true end.

(** [or_(Product.name.ilike(f"%{kw}%"), Product.description.ilike(...), ...)];
    a [NULL] description makes its test unknown, which [WHERE] rejects. *)
Definition keyword_match (tokens : list string) (p : Product.t) : bool :=
  existsb (fun kw =>
             Sql.ilike (Product.name p) (Sql.contains_pattern kw) ||
             match Product.description p with
             | Some d => Sql.ilike d (Sql.contains_pattern kw)
             | None => false
             end) tokens.

(** The [WHERE] clause of the keyword path. *)
Definition keyword_where (tokens : list string) (min_price max_price : option Q)
    (min_stock : option Z) (p : Product.t) : bool :=
  match tokens with [] => true | _ => keyword_match tokens p end &&
  price_ok min_price max_price p &&
  match min_stock with
  | None => 0 <? Product.stock p
  | Some m => m <? Product.stock p
  end.

(** The stock rule of the vector path: [if min_stock:] tests truthiness. *)
Definition stock_requirement_met (min_stock : option Z) (p : Product.t) : bool :=
  match min_stock with
  | Some m => if Z.eqb m 0 then 0 <? Product.stock p
              else (m <=? Product.stock p) && (0 <? Product.stock p)
  | None => 0 <? Product.stock p
  end.

(** The loop of the vector path over the products read back. *)
Fixpoint merge_vector_results (min_price max_price : option Q) (min_stock : option Z)
    (search_results products : list Product.t) : list Product.t :=
  match products with
  | [] => search_results
  | product :: rest =>
      if stock_requirement_met min_stock product && price_ok min_price max_price product &&
         negb (bool_decide (product ∈ search_results))
      then merge_vector_results min_price max_price min_stock (search_results ++ [product]) rest
      else merge_vector_results min_price max_price min_stock search_results rest
  end.

Section SearchProduct.
Context {I : Type} `{!VectorIndex I} `{!TextEmbedder}.
Local Abbreviation W := (world I).

(** The keyword path: [select(Product).where(...conditions)], rowid order. *)
Definition keyword_results (ps : list Product.t) (tokens : list string)
    (min_price max_price : option Q) (min_stock : option Z) : list Product.t :=
  List.filter (keyword_where tokens min_price max_price min_stock) ps.

(** [select(Product).filter(Product.product_id.in_(ids))], rowid order. *)
Definition products_with_ids (ps : list Product.t) (ids : list Z) : list Product.t :=
  List.filter (fun p => bool_decide (Product.product_id p ∈ ids)) ps.

(** [DB.search_product]. *)
Definition search_product (user_id : option py_key) (search_keyword : option string)
    (min_price max_price : option Q) (min_stock : option Z)
    (use_vectore_search : bool) (similarity_threshold : Q) : M W (list Product.t) :=
  let* _ := match user_id with
            | Some u => let* _ := record_search_history u search_keyword in ret tt
            | None => ret tt
            end in
  let* tokenized_search_keyword := lift (Tokenizer.clean_text_opt search_keyword) in
  let* d := gets sql in
  let search_results :=
    keyword_results (products d) tokenized_search_keyword min_price max_price min_stock in
  if use_vectore_search then
    let search_query_embedding := generate_embedding (default EmptyString search_keyword) in
    let* products_search_result_ids :=
      qdrant_call (Qdrant.search_similar_products QDRANT_PRODUCT_COLLECTION_NAME
                     search_query_embedding Qdrant.default_k similarity_threshold) in
    let* d' := gets sql in
    let products := products_with_ids (products d') products_search_result_ids in
    ret (merge_vector_results min_price max_price min_stock search_results products)
  else ret search_results.

End SearchProduct.

(** ** The runs of [search_product] *)
Section SearchRuns.
Context {I : Type} `{!VectorIndex I} `{!TextEmbedder}.
Local Abbreviation W := (world I).

(** The query log written before the search, as a computation. *)
Definition log_query (user_id : option py_key) (search_keyword : option string) : M W unit :=
  match user_id with
  | Some u => let* _ := record_search_history u search_keyword in ret tt
  | None => ret tt
  end.

Lemma log_query_frame uid kw (w : W) :
  products (sql (state_of (log_query uid kw) w)) = products (sql w) /\
  qdrant (state_of (log_query uid kw) w) = qdrant w.
Proof.
  destruct uid; unfold log_query, record_search_history, state_of; run_m; [|done].
  by destruct kw; run_m.
Qed.

(** Every successful search: the keyword results of the current products,
    followed, on the vector path, by the merge of the products whose ids
    the collection returned. *)
Lemma search_product_inv uid kw mp xp ms uv t (w : W) res w' :
  search_product uid kw mp xp ms uv t w = (Ok res, w') ->
  exists q, kw = Some q /\ products (sql w') = products (sql w) /\
    let K := keyword_results (products (sql w)) (Tokenizer.clean_text q) mp xp ms in
    if uv then
      exists c, Qdrant.q_collections (qdrant w) !! QDRANT_PRODUCT_COLLECTION_NAME = Some c /\
        res = merge_vector_results mp xp ms K
                (products_with_ids (products (sql w))
                   (vi_search c (generate_embedding q) Qdrant.default_k t))
    else res = K.
Proof.
  intros Hrun. pose proof (log_query_frame uid kw w) as [Hp Hq].
  unfold search_product in Hrun. fold (log_query uid kw) in Hrun.
  unfold bind at 1 in Hrun. unfold state_of in Hp, Hq.
  destruct (log_query uid kw w) as [[[]|e] w1]; simpl in Hp, Hq; [|discriminate].
  destruct kw as [q|]; run_m; [|discriminate]. exists q. split; [done|].
  rewrite <- Hp, <- Hq. destruct uv.
  - unfold qdrant_call, zoom, Qdrant.search_similar_products in Hrun. simpl in Hrun.
    destruct (Qdrant.q_up (qdrant w1)); [|discriminate].
    destruct (Qdrant.q_collections (qdrant w1) !! _) as [c|]; [|discriminate].
    simpl in Hrun. injection Hrun as <- <-. simpl. split; [done|]. by exists c.
  - injection Hrun as <- <-. done.
Qed.

End SearchRuns.

(** ** Helper lemmas on the two paths *)
Definition vector_ok (mp xp : option Q) (ms : option Z) (p : Product.t) : bool :=
  stock_requirement_met ms p && price_ok mp xp p.

Lemma merge_vector_results_append_new mp xp ms acc ps :
  merge_vector_results mp xp ms acc ps = append_new acc (List.filter (vector_ok mp xp ms) ps).
Proof.
  revert acc. induction ps as [|p ps IH]; intros acc; cbn [merge_vector_results List.filter];
    [done|].
  change (stock_requirement_met ms p && price_ok mp xp p) with (vector_ok mp xp ms p).
  destruct (vector_ok mp xp ms p); simpl; [|apply IH].
  case_decide as Hin; [rewrite bool_decide_eq_true_2 | rewrite bool_decide_eq_false_2];
    by try apply IH.
Qed.

Lemma elem_of_std_filter {A} (f : A -> bool) l x : x ∈ List.filter f l <-> x ∈ l /\ f x = true.
Proof. by rewrite !list_elem_of_In, filter_In. Qed.

Lemma elem_of_keyword_results ps toks mp xp ms p :
  p ∈ keyword_results ps toks mp xp ms <-> p ∈ ps /\ keyword_where toks mp xp ms p = true.
Proof. apply elem_of_std_filter. Qed.

Lemma elem_of_products_with_ids ps ids p :
  p ∈ products_with_ids ps ids <-> p ∈ ps /\ Product.product_id p ∈ ids.
Proof. unfold products_with_ids. rewrite elem_of_std_filter. by rewrite bool_decide_eq_true. Qed.

(** Rows of one table with the same primary key are the same row. *)
Lemma key_inj {R} (key : R -> Z) tbl x y :
  NoDup (map key tbl) -> x ∈ tbl -> y ∈ tbl -> key x = key y -> x = y.
Proof.
  induction tbl as [|r tbl IH]; simpl; [set_solver|].
  rewrite !elem_of_cons. intros [Hr Hnd]%NoDup_cons [->|Hx] [->|Hy] Hk; auto.
  - exfalso. apply Hr. rewrite Hk. by apply elem_of_map_in.
  - exfalso. apply Hr. rewrite <- Hk. by apply elem_of_map_in.
Qed.

(** A duplicate-free selection of rows has duplicate-free keys. *)
Lemma NoDup_map_sub {R} (key : R -> Z) tbl l :
  NoDup (map key tbl) -> NoDup l -> (forall x, x ∈ l -> x ∈ tbl) -> NoDup (map key l).
Proof.
  intros Htbl. induction 1 as [|x l Hx Hl IH]; intros Hsub; simpl; [constructor|].
  constructor; [|apply IH; set_solver].
  intros (y & Hxy & Hy)%elem_of_map_inv.
  assert (x = y) as -> by (apply (key_inj key tbl); [done|set_solver|set_solver|done]).
  done.
Qed.

Lemma NoDup_std_filter {A} (f : A -> bool) l : NoDup l -> NoDup (List.filter f l).
Proof. intros H. eapply sublist_NoDup; [exact H|]. apply std_filter_sublist. Qed.

(** The rows of a table with duplicate-free keys are distinct. *)
Lemma NoDup_of_keys {R} (key : R -> Z) tbl : NoDup (map key tbl) -> NoDup tbl.
Proof.
  induction tbl as [|r tbl IH]; simpl; intros Hnd; [constructor|].
  apply NoDup_cons in Hnd as [Hr Hnd]. constructor; [|by apply IH].
  intros Hin. apply Hr. by apply elem_of_map_in.
Qed.

(** ** What a search returns *)
Section SearchTheorems.
Context {I : Type} `{!VectorIndex I} `{!TextEmbedder}.
Local Abbreviation W := (world I).

(** The results of a successful search, as [append_new] of the two paths. *)
Lemma search_product_results uid kw mp xp ms uv t (w : W) res w' :
  search_product uid kw mp xp ms uv t w = (Ok res, w') ->
  exists q ids, kw = Some q /\
    res = if uv then append_new (keyword_results (products (sql w)) (Tokenizer.clean_text q) mp xp ms)
                       (List.filter (vector_ok mp xp ms) (products_with_ids (products (sql w)) ids))
          else keyword_results (products (sql w)) (Tokenizer.clean_text q) mp xp ms.
Proof.
  intros (q & -> & _ & Hres)%search_product_inv. exists q.
  destruct uv; simpl in Hres.
  - destruct Hres as (c & _ & ->). eexists. split; [done|].
    apply merge_vector_results_append_new.
  - exists []. by subst res.
Qed.

(** Every result is a row of the table that passed the filters of the
    path that found it. *)
Lemma search_result_row uid kw mp xp ms uv t (w : W) res w' p :
  search_product uid kw mp xp ms uv t w = (Ok res, w') -> p ∈ res ->
  p ∈ products (sql w) /\
  ((exists q, kw = Some q /\ keyword_where (Tokenizer.clean_text q) mp xp ms p = true) \/
   vector_ok mp xp ms p = true).
Proof.
  intros (q & ids & -> & ->)%search_product_results Hp. destruct uv.
  - apply elem_of_append_new in Hp as [Hp|Hp].
    + apply elem_of_keyword_results in Hp. naive_solver.
    + apply elem_of_std_filter in Hp as [Hp Hok].
      apply elem_of_products_with_ids in Hp. naive_solver.
  - apply elem_of_keyword_results in Hp. naive_solver.
Qed.

(** The rows of a search with the default stock policy. *)
Lemma search_default_rows uid kw mp xp uv t (w : W) res w' :
  search_product uid kw mp xp None uv t w = (Ok res, w') ->
  forall p, p ∈ res -> p ∈ products (sql w) /\ price_ok mp xp p = true /\ 0 < Product.stock p.
Proof.
  intros Hrun p Hp. destruct (search_result_row _ _ _ _ _ _ _ _ _ _ p Hrun Hp)
    as [Hin [(q & _ & Hk) | Hv]]; split; [done| |done|].
  - unfold keyword_where in Hk. apply andb_prop in Hk as [[_ Hpr]%andb_prop Hs].
    split; [done|lia].
  - unfold vector_ok, stock_requirement_met in Hv. apply andb_prop in Hv as [Hs Hpr].
    split; [done|lia].
Qed.

(** C5: with the default stock policy ([min_stock] unset), every product a
    search returns is a product of the table, within the price bounds, and
    in stock, whichever path found it. *)
Theorem search_default_filters uid kw mp xp uv t (w : W) res w' :
  search_product uid kw mp xp None uv t w = (Ok res, w') ->
  forall p, p ∈ res -> p ∈ products (sql w) /\ price_ok mp xp p = true /\ 0 < Product.stock p.
Proof. exact (search_default_rows uid kw mp xp uv t w res w'). Qed.

(** C6: a search never returns two rows with the same product id. *)
Theorem search_results_distinct uid kw mp xp ms uv t (w : W) res w' :
  wf_db (sql w) -> search_product uid kw mp xp ms uv t w = (Ok res, w') ->
  NoDup (map Product.product_id res).
Proof.
  intros Hwf Hrun. apply (NoDup_map_sub _ (products (sql w))); [apply Hwf| |].
  - apply search_product_results in Hrun as (q & ids & _ & ->).
    pose proof (NoDup_std_filter (keyword_where (Tokenizer.clean_text q) mp xp ms) _
                  (NoDup_of_keys _ _ (wf_product_ids _ Hwf))).
    destruct uv; [by apply append_new_NoDup|done].
  - intros p Hp. by destruct (search_result_row _ _ _ _ _ _ _ _ _ _ p Hrun Hp).
Qed.

(** The keyword results are a prefix of the search result. *)
Lemma search_product_keyword_prefix uid q mp xp ms uv t (w : W) res w' :
  search_product uid (Some q) mp xp ms uv t w = (Ok res, w') ->
  exists suf,
    res = keyword_results (products (sql w)) (Tokenizer.clean_text q) mp xp ms ++ suf /\
    forall p, p ∈ suf ->
      p ∉ keyword_results (products (sql w)) (Tokenizer.clean_text q) mp xp ms /\
      p ∈ products (sql w) /\ vector_ok mp xp ms p = true.
Proof.
  intros (q' & ids & [= <-] & ->)%search_product_results. destruct uv.
  - destruct (append_new_suffix
                (keyword_results (products (sql w)) (Tokenizer.clean_text q) mp xp ms)
                (List.filter (vector_ok mp xp ms) (products_with_ids (products (sql w)) ids)))
      as (suf & Hsuf & Hin).
    exists suf. split; [done|]. intros p Hp. destruct (Hin p Hp) as [Hf Hn].
    apply elem_of_std_filter in Hf as [Hf Hok]. apply elem_of_products_with_ids in Hf.
    naive_solver.
  - exists []. rewrite app_nil_r. split; [done|set_solver].
Qed.

(** C7: the result is the keyword-path rows, in table order, followed
    by exactly the rows that the vector path adds: the products whose ids
    the product collection returned for the embedded query (top [k = 50]
    above the threshold), that pass the vector filters and are not
    already keyword results, in table order (the [IN] read-back), not in
    Qdrant's order.  Without vector search nothing is added. *)
Theorem search_keyword_results_first uid q mp xp ms uv t (w : W) res w' :
  search_product uid (Some q) mp xp ms uv t w = (Ok res, w') ->
  let K := keyword_results (products (sql w)) (Tokenizer.clean_text q) mp xp ms in
  exists suf, res = K ++ suf /\ suf `sublist_of` products (sql w) /\
    if uv then
      exists c, Qdrant.q_collections (qdrant w) !! QDRANT_PRODUCT_COLLECTION_NAME = Some c /\
        forall p, p ∈ suf <->
          p ∈ products (sql w) /\ p ∉ K /\ vector_ok mp xp ms p = true /\
          Product.product_id p ∈ vi_search c (generate_embedding q) Qdrant.default_k t
    else suf = [].
Proof.
  intros (q' & [= <-] & _ & Hres)%search_product_inv. cbv zeta.
  set (K := keyword_results (products (sql w)) (Tokenizer.clean_text q) mp xp ms) in *.
  destruct uv; simpl in Hres.
  - destruct Hres as (c & Hc & ->). rewrite merge_vector_results_append_new.
    set (ids := vi_search c (generate_embedding q) Qdrant.default_k t).
    destruct (append_new_spec K (List.filter (vector_ok mp xp ms)
                                   (products_with_ids (products (sql w)) ids)))
      as (suf & -> & Hsub & Hin).
    exists suf. split; [done|]. split.
    + etrans; [exact Hsub|]. etrans; [apply std_filter_sublist|].
      apply std_filter_sublist.
    + exists c. split; [done|]. intros p.
      rewrite Hin, elem_of_std_filter, elem_of_products_with_ids. naive_solver.
  - subst res. exists []. rewrite app_nil_r. split; [done|]. split; [apply sublist_nil_l|done].
Qed.

End SearchTheorems.

(** ** The keyword path implements the spec's matching rule *)

(** A token occurs, case-insensitively, in the name or the description. *)
Definition token_matches (tok : string) (p : Product.t) : Prop :=
  contains tok (sql_lower (Product.name p)) = true \/
  exists d, Product.description p = Some d /\ contains tok (sql_lower d) = true.

(** Section 4.3 step 2: no token, or some token in either field; the
    price bounds; [stock > min_stock], [stock > 0] by default. *)
Definition keyword_spec (q : string) (mp xp : option Q) (ms : option Z) (p : Product.t) : Prop :=
  (Tokenizer.clean_text q = [] \/
   exists tok, tok ∈ Tokenizer.clean_text q /\ token_matches tok p) /\
  price_ok mp xp p = true /\
  match ms with None => 0 < Product.stock p | Some m => m < Product.stock p end.

Lemma ilike_token sw tok s :
  Tokenizer.is_token sw tok -> Sql.ilike s (Sql.contains_pattern tok) = contains tok (sql_lower s).
Proof.
  intros Ht. rewrite ilike_contains by (eapply Tokenizer.token_wildcard_free; eauto).
  by rewrite (Tokenizer.token_sql_lower sw tok Ht).
Qed.

Lemma keyword_match_spec q p :
  keyword_match (Tokenizer.clean_text q) p = true <->
  exists tok, tok ∈ Tokenizer.clean_text q /\ token_matches tok p.
Proof.
  pose proof (clean_text_all_tokens Tokenizer.english_stopwords q) as Htok.
  unfold keyword_match, Tokenizer.clean_text in *. rewrite existsb_exists.
  split.
  - intros (tok & Hin%list_elem_of_In & Hm). exists tok. split; [done|].
    rewrite Forall_forall in Htok. specialize (Htok tok Hin).
    apply orb_prop in Hm as [Hm|Hm]; [left; by rewrite <- (ilike_token _ _ _ Htok)|right].
    destruct (Product.description p) as [d|]; [|done].
    exists d. split; [done|]. by rewrite <- (ilike_token _ _ _ Htok).
  - intros (tok & Hin & Hm). exists tok. split; [by apply list_elem_of_In|].
    rewrite Forall_forall in Htok. specialize (Htok tok Hin).
    destruct Hm as [Hm|(d & Hd & Hm)].
    + by rewrite (ilike_token _ _ _ Htok), Hm.
    + rewrite Hd, (ilike_token _ _ d Htok), Hm. apply orb_true_r.
Qed.

(** C8: the [WHERE] clause built by [search_product] selects exactly the
    products the spec's keyword rule selects: the [ILIKE '%tok%'] tests
    are case-insensitive substring tests of the cleaned tokens. *)
Theorem keyword_where_spec q mp xp ms p :
  keyword_where (Tokenizer.clean_text q) mp xp ms p = true <-> keyword_spec q mp xp ms p.
Proof.
  unfold keyword_where, keyword_spec. rewrite <- keyword_match_spec.
  destruct (Tokenizer.clean_text q) as [|tok toks] eqn:E.
  - simpl. destruct ms; rewrite andb_true_iff, ?Z.ltb_lt; naive_solver.
  - rewrite !andb_true_iff. destruct ms; rewrite ?Z.ltb_lt; naive_solver.
Qed.

(** C32: the two paths apply different stock rules: with [min_stock = m > 0],
    a product with exactly [m] in stock fails the keyword path's
    [stock > min_stock] but passes the vector path's
    [stock >= min_stock and stock > 0]. *)
Theorem stock_rule_asymmetry toks mp xp m p :
  0 < m -> Product.stock p = m ->
  keyword_where toks mp xp (Some m) p = false /\ stock_requirement_met (Some m) p = true.
Proof.
  intros Hm Hs. unfold keyword_where, stock_requirement_met. rewrite Hs, Z.ltb_irrefl.
  rewrite andb_false_r. split; [done|].
  destruct (Z.eqb_spec m 0); [lia|]. rewrite Z.leb_refl. simpl. by apply Z.ltb_lt.
Qed.

Section SearchEffects.
Context {I : Type} `{!VectorIndex I} `{!TextEmbedder}.
Local Abbreviation W := (world I).

(** The query log row of a search by a user. *)
Lemma search_product_logs u q mp xp ms uv t (w : W) :
  search_history (sql (state_of (search_product (Some u) (Some q) mp xp ms uv t) w)) =
  search_history (sql w) ++
    [SearchHistory.mk (next_id SearchHistory.search_id (search_history (sql w)))
                      (int_affinity u) q (clock w)].
Proof.
  unfold search_product, record_search_history, state_of. run_m.
  destruct uv; run_m; [|done].
  unfold qdrant_call, zoom.
  destruct (Qdrant.search_similar_products _ _ _ _ _) as [[] ?]; done.
Qed.

(** A search by a user appends exactly one [SearchHistory] row holding
    the raw query, whatever the search then does, failure included. *)
Theorem search_logs_query u q mp xp ms uv t (w : W) :
  search_history (sql (state_of (search_product (Some u) (Some q) mp xp ms uv t) w)) =
  search_history (sql w) ++
    [SearchHistory.mk (next_id SearchHistory.search_id (search_history (sql w)))
                      (int_affinity u) q (clock w)].
Proof. exact (search_product_logs u q mp xp ms uv t w). Qed.

(** C33: when the Qdrant server is down, a vector search raises: there is
    no fall-back to the keyword results. *)
Theorem search_vector_outage_raises uid q mp xp ms t (w : W) :
  Qdrant.q_up (qdrant w) = false ->
  result_of (search_product uid (Some q) mp xp ms true t) w = Raise (UpstreamError "search").
Proof.
  intros Hdown. unfold search_product, result_of.
  destruct uid; unfold record_search_history, qdrant_call, zoom,
    Qdrant.search_similar_products; run_m; by rewrite Hdown.
Qed.

(** C29: the vector path adds at most [k = 50] products to the keyword
    results.  [search_product] passes no [k], so the default of the
    signature applies: 50, not the 5 that the docstring of
    [search_similar_products] announces. *)
Theorem search_vector_additions_bounded `{!VectorIndexLaws I} uid q mp xp ms uv t (w : W) res w' :
  wf_db (sql w) -> search_product uid (Some q) mp xp ms uv t w = (Ok res, w') ->
  (length res <= length (keyword_results (products (sql w)) (Tokenizer.clean_text q) mp xp ms)
                 + Qdrant.default_k)%nat.
Proof.
  intros Hwf (q' & [= <-] & _ & Hres)%search_product_inv.
  destruct uv; simpl in Hres; [|subst res; lia].
  destruct Hres as (c & _ & ->). rewrite merge_vector_results_append_new.
  etransitivity; [apply append_new_length|]. apply Nat.add_le_mono_l.
  set (ids := vi_search c (generate_embedding q) Qdrant.default_k t).
  transitivity (length (products_with_ids (products (sql w)) ids)).
  { apply sublist_length, std_filter_sublist. }
  transitivity (length ids); [|apply vi_search_limit].
  rewrite <- (length_map Product.product_id).
  apply NoDup_incl_length.
  - apply NoDup_ListNoDup. apply (NoDup_map_sub _ (products (sql w))); [apply Hwf| |].
    + apply NoDup_std_filter, (NoDup_of_keys Product.product_id), Hwf.
    + intros p Hp. by apply elem_of_products_with_ids in Hp as [? _].
  - intros i (p & <- & Hp%list_elem_of_In)%in_map_iff.
    apply elem_of_products_with_ids in Hp as [_ Hp]. by apply list_elem_of_In.
Qed.

(** An empty query without vector search and without bounds returns
    every in-stock product, in table order, and writes nothing. *)
Theorem search_empty_keyword_in_stock t (w : W) :
  search_product None (Some "") None None None false t w =
  (Ok (List.filter (fun p => 0 <? Product.stock p) (products (sql w))), w).
Proof. reflexivity. Qed.

(** The rows of an [UPDATE] by primary key. *)
Lemma elem_of_update_by {R} (key : R -> Z) tbl id f x :
  x ∈ update_by key tbl id f ->
  (exists r, r ∈ tbl /\ key r = id /\ x = f r) \/ (x ∈ tbl /\ key x <> id).
Proof.
  induction tbl as [|r tbl IH]; simpl; [set_solver|].
  rewrite elem_of_cons. destruct (Z.eqb_spec (key r) id) as [E|E].
  - intros [->|Hx]; [left; exists r; set_solver|]. destruct (IH Hx); set_solver.
  - intros [->|Hx]; [right; set_solver|]. destruct (IH Hx); set_solver.
Qed.

(** The product table after [update_product] of an existing product. *)
Lemma update_product_products pid c n d pr st (w : W) p :
  find_by Product.product_id (products (sql w)) pid = Some p ->
  products (sql (state_of (update_product pid c n d pr st) w)) =
  update_by Product.product_id (products (sql w)) pid
    (fun _ => patch_product p c n d pr st (clock w)).
Proof.
  intros Hp. unfold update_product, state_of. run_m. rewrite Hp. run_m.
  destruct (category_name_of _); simpl; [|done]. by rewrite embed_product_sql.
Qed.

(** C38: Once [update_product] has set a product's stock to 0, a search with
    the default stock policy never returns it (section 8). *)
Theorem stock_zero_not_found pid (w : W) p uid kw mp xp uv t res w' :
  find_by Product.product_id (products (sql w)) pid = Some p ->
  search_product uid kw mp xp None uv t
    (state_of (update_product pid None None None None (Some 0)) w) = (Ok res, w') ->
  forall p', p' ∈ res -> Product.product_id p' <> pid.
Proof.
  intros Hp Hrun p' Hin Hid.
  destruct (search_default_rows _ _ _ _ _ _ _ _ _ Hrun p' Hin) as (Hrow & _ & Hst).
  rewrite (update_product_products _ _ _ _ _ _ _ p Hp) in Hrow.
  apply elem_of_update_by in Hrow as [(r & _ & _ & ->)|[_ Hne]]; [simpl in Hst; lia|done].
Qed.

(** [w'] differs from [w] at most in its [SearchHistory] table and clock. *)
Definition only_history (w w' : W) : Prop :=
  users (sql w') = users (sql w) /\ categories (sql w') = categories (sql w) /\
  products (sql w') = products (sql w) /\
  recommendations (sql w') = recommendations (sql w) /\
  feedbacks (sql w') = feedbacks (sql w) /\ qdrant w' = qdrant w.

#[local] Instance only_history_preorder : PreOrder only_history.
Proof.
  split; [intros w; by repeat split|].
  intros w1 w2 w3 (?&?&?&?&?&?) (?&?&?&?&?&?). repeat split; congruence.
Qed.

Lemma record_search_history_only_history u q :
  guarantee only_history (record_search_history u q).
Proof. intros w. unfold record_search_history. destruct q; run_m; by repeat split. Qed.

Lemma qdrant_search_only_history name v k t :
  guarantee only_history (qdrant_call (Qdrant.search_similar_products name v k t)).
Proof.
  intros w. unfold qdrant_call, zoom, Qdrant.search_similar_products.
  repeat case_match; simplify_eq; simpl; by repeat split.
Qed.

(** A search writes only the [SearchHistory] table, and never the vector
    index. *)
Lemma search_product_only_history uid kw mp xp ms uv t :
  guarantee only_history (search_product uid kw mp xp ms uv t).
Proof.
  unfold search_product. guarantee_tac;
    first [apply qdrant_search_only_history | intros w; simpl; by repeat split].
Qed.

(** Every search keeps the database well formed. *)
Lemma search_product_wf uid kw mp xp ms uv t :
  preserves wf_world (search_product uid kw mp xp ms uv t).
Proof. unfold search_product. preserve_tac. Qed.

End SearchEffects.

#[export] Hint Resolve search_product_wf : ecom.
End Search.

(** ** Concrete runs *)
Module SearchFixture.
Export StoreFixture.

(** A second product, matched by the vector path only for "gaming". *)
Definition w_two : world RefIndex.points :=
  state_of (record_product 1 "Mouse" (Some "Wireless mouse") 25 10) w_laptop.

Definition w_two_down : world RefIndex.points :=
  mkWorld (sql w_two) (Qdrant.mkQState false (Qdrant.q_collections (qdrant w_two))) (clock w_two).

End SearchFixture.

Section SearchWitnesses.
Import Search SearchFixture.

Lemma search_default_filters_witness :
  search_product None (Some "gaming") None None None true (3 # 10) w_two =
    (Ok (products (sql w_two)),
     state_of (search_product None (Some "gaming") None None None true (3 # 10)) w_two) /\
  forall p, p ∈ products (sql w_two) ->
    p ∈ products (sql w_two) /\ price_ok None None p = true /\ 0 < Product.stock p.
Proof.
  assert (E : search_product None (Some "gaming") None None None true (3 # 10) w_two =
    (Ok (products (sql w_two)),
     state_of (search_product None (Some "gaming") None None None true (3 # 10)) w_two))
    by (vm_compute; reflexivity).
  split; [exact E|]. exact (search_default_filters _ _ _ _ _ _ _ _ _ E).
Defined.

Lemma search_results_distinct_witness :
  wf_db (sql w_two) /\
  search_product None (Some "gaming") None None None true (3 # 10) w_two =
    (Ok (products (sql w_two)),
     state_of (search_product None (Some "gaming") None None None true (3 # 10)) w_two) /\
  NoDup (map Product.product_id (products (sql w_two))).
Proof.
  assert (H : wf_db (sql w_two)) by (split; refine (bool_decide_unpack _ _); vm_compute; reflexivity).
  assert (E : search_product None (Some "gaming") None None None true (3 # 10) w_two =
    (Ok (products (sql w_two)),
     state_of (search_product None (Some "gaming") None None None true (3 # 10)) w_two))
    by (vm_compute; reflexivity).
  split; [exact H|]. split; [exact E|]. exact (search_results_distinct _ _ _ _ _ _ _ _ _ _ H E).
Defined.

Lemma search_keyword_results_first_witness :
  search_product None (Some "gaming") None None (Some 10) true (3 # 10) w_two =
    (Ok (products (sql w_two)),
     state_of (search_product None (Some "gaming") None None (Some 10) true (3 # 10)) w_two) /\
  let K := keyword_results (products (sql w_two)) (Tokenizer.clean_text "gaming")
                           None None (Some 10) in
  exists suf, products (sql w_two) = K ++ suf /\ suf `sublist_of` products (sql w_two) /\
    exists c, Qdrant.q_collections (qdrant w_two) !! QDRANT_PRODUCT_COLLECTION_NAME = Some c /\
      forall p, p ∈ suf <->
        p ∈ products (sql w_two) /\ p ∉ K /\ vector_ok None None (Some 10) p = true /\
        Product.product_id p ∈ vi_search c (generate_embedding "gaming") Qdrant.default_k (3 # 10).
Proof.
  assert (E : search_product None (Some "gaming") None None (Some 10) true (3 # 10) w_two =
    (Ok (products (sql w_two)),
     state_of (search_product None (Some "gaming") None None (Some 10) true (3 # 10)) w_two))
    by (vm_compute; reflexivity).
  split; [exact E|]. exact (search_keyword_results_first _ _ _ _ _ _ _ _ _ _ E).
Defined.

Lemma stock_rule_asymmetry_witness :
  0 < 30 /\ Product.stock laptop = 30 /\
  keyword_where [] None None (Some 30) laptop = false /\
  stock_requirement_met (Some 30) laptop = true.
Proof.
  assert (H1 : 0 < 30) by lia. assert (H2 : Product.stock laptop = 30) by reflexivity.
  split; [exact H1|]. split; [exact H2|]. exact (stock_rule_asymmetry [] None None 30 laptop H1 H2).
Defined.

Lemma search_vector_outage_raises_witness :
  Qdrant.q_up (qdrant w_two_down) = false /\
  result_of (search_product (Some (PyInt 1)) (Some "gaming") None None None true (3 # 10))
    w_two_down = Raise (UpstreamError "search").
Proof.
  assert (H : Qdrant.q_up (qdrant w_two_down) = false) by reflexivity.
  split; [exact H|]. exact (search_vector_outage_raises _ _ _ _ _ _ _ H).
Defined.

Lemma search_vector_additions_bounded_witness :
  wf_db (sql w_two) /\
  search_product None (Some "gaming") None None None true (3 # 10) w_two =
    (Ok (products (sql w_two)),
     state_of (search_product None (Some "gaming") None None None true (3 # 10)) w_two) /\
  (length (products (sql w_two)) <=
     length (keyword_results (products (sql w_two)) (Tokenizer.clean_text "gaming") None None None)
     + Qdrant.default_k)%nat.
Proof.
  assert (H : wf_db (sql w_two)) by (split; refine (bool_decide_unpack _ _); vm_compute; reflexivity).
  assert (E : search_product None (Some "gaming") None None None true (3 # 10) w_two =
    (Ok (products (sql w_two)),
     state_of (search_product None (Some "gaming") None None None true (3 # 10)) w_two))
    by (vm_compute; reflexivity).
  split; [exact H|]. split; [exact E|].
  exact (search_vector_additions_bounded _ _ _ _ _ _ _ _ _ _ H E).
Defined.

Lemma stock_zero_not_found_witness :
  find_by Product.product_id (products (sql w_two)) 1 = Some laptop /\
  search_product None (Some "gaming") None None None true (3 # 10)
    (state_of (update_product 1 None None None None (Some 0)) w_two) =
    (Ok (List.filter (fun p => negb (Z.eqb (Product.product_id p) 1)) (products (sql w_two))),
     state_of (search_product None (Some "gaming") None None None true (3 # 10))
       (state_of (update_product 1 None None None None (Some 0)) w_two)) /\
  forall p', p' ∈ List.filter (fun p => negb (Z.eqb (Product.product_id p) 1))
                              (products (sql w_two)) -> Product.product_id p' <> 1.
Proof.
  assert (H : find_by Product.product_id (products (sql w_two)) 1 = Some laptop)
    by (vm_compute; reflexivity).
  assert (E : search_product None (Some "gaming") None None None true (3 # 10)
    (state_of (update_product 1 None None None None (Some 0)) w_two) =
    (Ok (List.filter (fun p => negb (Z.eqb (Product.product_id p) 1)) (products (sql w_two))),
     state_of (search_product None (Some "gaming") None None None true (3 # 10))
       (state_of (update_product 1 None None None None (Some 0)) w_two)))
    by (vm_compute; reflexivity).
  split; [exact H|]. split; [exact E|]. exact (stock_zero_not_found _ _ _ _ _ _ _ _ _ _ _ H E).
Defined.

End SearchWitnesses.
