(* ===== verification/Recommender.v ===== *)
(** * Recommender: class [LLM] of [llm/llm.py].

    [make_recommendation_for_customer] reads the user's profile and search
    history, retrieves candidates with [search_product] (vector search on,
    threshold 0.3, the profile as the query, the user id given, so the
    profile is itself logged as a search), prints the candidates as a
    [dict] into the prompt of [engineer_prompt], asks the generation model,
    and resolves its answer to the first candidate whose stripped,
    lower-cased name equals the stripped, lower-cased answer; only then is
    a [Recommendation] row written.  [generate_dataset_for_llm_fine_tuning]
    rebuilds a prompt for each feedback rated 3 or more.  The generation
    model is the parameter [Generator]. *)

From S2P Require Import Prelude PyText Tokenizer VectorIndex Store Search.

Local Open Scope Z_scope.

Module LLM.
Import Py.

(** [make_inference_on_model]: T5 generation (beam width 5, output at most
    [LLM_MAX_OUTPUT_LENGTH] tokens), decoded to text. *)
Class Generator := make_inference_on_model : string -> string.

(** The third argument of [engineer_prompt], printed by the f-string. *)
Inductive candidates :=
  | CandDict (l : list (Z * string))
  | CandList (l : list string)
  | CandNone.

Definition str_candidates (c : candidates) : string :=
  match c with
  | CandDict l => repr_dict_int_str l
  | CandList l => repr_list_str l
  | CandNone => "None"%string
  end.

Definition instruction_line : string :=
  "Given the following customer profile and search history, suggest the most relevant product from the provided list of candidates. Return only the name of the product that best matches the customer's needs based on their profile and search activity."%string.

Definition task_line : string :=
  ("Your Task: Select the most suitable product from the list of " ++
   String dq ("Products for Recommendation" ++
   String dq " based on the customer profile and search history."))%string.

(** [LLM.engineer_prompt] *)
Definition engineer_prompt (profile_description : option string) (user_search_history : string)
    (candidates_for_recommendation : candidates) (return_customer_info_only : bool) : string :=
  if return_customer_info_only then
    ("Customer Profile: " ++ nl ++ py_str_opt profile_description ++ nl ++ nl ++
     "Search History: " ++ nl ++ user_search_history)%string
  else
    (instruction_line ++ nl ++
     "Customer Profile: " ++ py_str_opt profile_description ++ nl ++
     "Search History: " ++ user_search_history ++ nl ++
     "Products for Recommendation: " ++ str_candidates candidates_for_recommendation ++ nl ++
     task_line ++ nl)%string.

(** [d[k] = v] on a dict: an existing key keeps its position. *)
Fixpoint dict_set (k : Z) (v : string) (d : list (Z * string)) : list (Z * string) :=
  match d with
  | [] => [(k, v)]
  | (k', v') :: d' => if Z.eqb k k' then (k, v) :: d' else (k', v') :: dict_set k v d'
  end.

(** [{product.product_id: product.name for product in products}] *)
Definition products_dict (ps : list Product.t) : list (Z * string) :=
  fold_left (fun d p => dict_set (Product.product_id p) (Product.name p) d) ps [].

(** [','.join(select(SearchHistory.query).where(SearchHistory.user_id == user_id))] *)
Definition user_search_history_str (d : db) (user_id : Z) : string :=
  join ","%string (map SearchHistory.query
    (List.filter (fun h => sql_int_is (SearchHistory.user_id h) user_id) (search_history d))).

(** The resolution loop: the first candidate whose name matches. *)
Definition name_matches (recommendation_str : string) (p : Product.t) : bool :=
  String.eqb (lower (strip recommendation_str)) (lower (strip (Product.name p))).

Definition resolve (recommendation_str : string) (ps : list Product.t) : option Product.t :=
  List.find (name_matches recommendation_str) ps.

(** The threshold of both calls to [search_product]. *)
Definition threshold : Q := 3 # 10.

Section Methods.
Context {I : Type} `{!VectorIndex I} `{!TextEmbedder} {gen : Generator}.
Local Abbreviation W := (world I).

(** [self.db.get_data("User", user_id)['profile_description']] *)
Definition get_profile (user_id : Z) : M W (option string) :=
  let* r := get_data "User" user_id in
  match r with
  | Some (RUser u) => ret (User.profile_description u)
  | _ => raise (TypeErrorNone "get_data('User', id)['profile_description']")
  end.

(** [LLM.make_recommendation_for_customer]: returns
    [(product_id, recommendation_id)]; with no matching candidate the
    return statement reads the unassigned [recommended_product_id]. *)
Definition make_recommendation_for_customer (user_id : Z) : M W (Z * Z) :=
  let* profile_description := get_profile user_id in
  let* d := gets sql in
  let all_user_search_history_str := user_search_history_str d user_id in
  let* products_for_recommendation :=
    Search.search_product (Some (PyInt user_id)) profile_description None None None true
                          threshold in
  let query := engineer_prompt profile_description all_user_search_history_str
                 (CandDict (products_dict products_for_recommendation)) false in
  let recommendation_str := make_inference_on_model query in
  match resolve recommendation_str products_for_recommendation with
  | Some product =>
      let* recommendation_id :=
        record_recommendation user_id (Product.product_id product) 1 in
      ret (Product.product_id product, recommendation_id)
  | None => raise (UnboundLocalError "recommended_product_id")
  end.

(** [LLM.get_user_profile] *)
Definition get_user_profile (user_id : Z) : M W string :=
  let* profile_description := get_profile user_id in
  let* d := gets sql in
  ret (engineer_prompt profile_description (user_search_history_str d user_id) CandNone true).


(** One iteration of the export loop.  [search_product] is called with the
    profile as its first positional argument, [user_id], and the default
    empty [search_keyword]. *)
Definition dataset_row (feedback : RecommendationFeedback.t) : M W (string * string) :=
  let* r := get_data "Recommendation" (RecommendationFeedback.recommendation_id feedback) in
  let* recommendation :=
    match r with
    | Some (RRecommendation x) => ret x
    | _ => raise (AttributeErrorNone "recommendation.product_id")
    end in
  let* a := get_data "Product" (Recommendation.product_id recommendation) in
  let* answer :=
    match a with
    | Some (RProduct x) => ret x
    | _ => raise (AttributeErrorNone "answer.name")
    end in
  let answer_text := Product.name answer in
  let* profile_description := get_profile (RecommendationFeedback.user_id feedback) in
  let* d := gets sql in
  let all_user_search_history_str :=
    user_search_history_str d (RecommendationFeedback.user_id feedback) in
  let* products_for_recommendation :=
    Search.search_product (option_map PyStr profile_description) (Some EmptyString)
                          None None None true threshold in
  let names := map Product.name products_for_recommendation in
  let names := if bool_decide (answer_text ∈ names) then names else names ++ [answer_text] in
  ret (engineer_prompt profile_description all_user_search_history_str (CandList names) false,
       answer_text).



End Methods.

(** ** The runs of [make_recommendation_for_customer] *)
Section RecommendProofs.
Context {I : Type} `{!VectorIndex I} `{!TextEmbedder} {gen : Generator}.
Local Abbreviation W := (world I).

(** The prompt the model receives for a candidate list. *)
Definition serving_prompt (prof : option string) (d : db) (uid : Z) (cands : list Product.t)
    : string :=
  engineer_prompt prof (user_search_history_str d uid) (CandDict (products_dict cands)) false.

Lemma get_profile_found uid (w : W) u :
  find_by User.user_id (users (sql w)) uid = Some u ->
  get_profile uid w = (Ok (User.profile_description u), w).
Proof. intros Hu. unfold get_profile, get_data. run_m. by rewrite Hu. Qed.

(** The run of [make_recommendation_for_customer] for an unknown user. *)
Lemma make_recommendation_no_user uid (w : W) :
  find_by User.user_id (users (sql w)) uid = None ->
  make_recommendation_for_customer uid w =
  (Raise (TypeErrorNone "get_data('User', id)['profile_description']"), w).
Proof. intros Hu. unfold make_recommendation_for_customer, get_profile, get_data. run_m. by rewrite Hu. Qed.

(** For an unknown user id, [make_recommendation_for_customer] raises
    [TypeError] on [None['profile_description']] and writes nothing. *)
Theorem recommend_unknown_user uid (w : W) :
  find_by User.user_id (users (sql w)) uid = None ->
  make_recommendation_for_customer uid w =
  (Raise (TypeErrorNone "get_data('User', id)['profile_description']"), w).
Proof. exact (make_recommendation_no_user uid w). Qed.

(** The candidate search writes no recommendation. *)
Lemma search_keeps_recommendations uid kw mp xp ms uv t (w : W) cands w1 :
  Search.search_product uid kw mp xp ms uv t w = (cands, w1) ->
  recommendations (sql w1) = recommendations (sql w).
Proof.
  intros Hs. pose proof (Search.search_product_only_history uid kw mp xp ms uv t w)
    as (_ & _ & _ & Hrec & _).
  unfold state_of in Hrec. by rewrite Hs in Hrec.
Qed.

(** The whole run for a known user: the candidate search, then either the
    recorded recommendation of the resolved candidate or the failure. *)
Lemma make_recommendation_run uid (w : W) u :
  find_by User.user_id (users (sql w)) uid = Some u ->
  make_recommendation_for_customer uid w =
  match Search.search_product (Some (PyInt uid)) (User.profile_description u) None None None
          true threshold w with
  | (Ok cands, w1) =>
      match resolve (make_inference_on_model
                       (serving_prompt (User.profile_description u) (sql w) uid cands)) cands with
      | Some p =>
          let rid := next_id Recommendation.recommendation_id (recommendations (sql w1)) in
          (Ok (Product.product_id p, rid),
           mkWorld (set_recommendations (fun rs =>
                      rs ++ [Recommendation.mk rid uid (Product.product_id p) 1 (clock w1)])
                      (sql w1)) (qdrant w1) (clock w1 + 1))
      | None => (Raise (UnboundLocalError "recommended_product_id"), w1)
      end
  | (Raise e, w1) => (Raise e, w1)
  end.
Proof.
  intros Hu. unfold make_recommendation_for_customer.
  rewrite (bind_ok _ _ _ _ _ (get_profile_found _ _ _ Hu)). unfold bind at 1, gets.
  unfold bind at 1.
  destruct (Search.search_product _ _ _ _ _ _ _ w) as [[cands|e] w1]; [|done].
  unfold serving_prompt. destruct (resolve _ cands); [|done].
  unfold record_recommendation. run_m. done.
Qed.

(** [List.find] returns the first element that satisfies the test. *)
Lemma find_first {A} (f : A -> bool) l x :
  List.find f l = Some x ->
  exists pre post, l = pre ++ x :: post /\ f x = true /\ Forall (fun y => f y = false) pre.
Proof.
  induction l as [|y l IH]; simpl; [done|]. destruct (f y) eqn:E.
  - intros [= <-]. by exists [], l.
  - intros (pre & post & -> & Hx & Hpre)%IH. exists (y :: pre), post.
    split; [done|]. split; [done|]. by constructor.
Qed.

(** C10: a successful recommendation picks, among the candidates returned by
    the hybrid search for the user's profile, the first one whose
    stripped, lower-cased name equals the model's stripped, lower-cased
    answer, and writes exactly one [Recommendation] row for it, with the
    default score 1. *)
Theorem recommend_first_match uid (w : W) pid rid w' :
  make_recommendation_for_customer uid w = (Ok (pid, rid), w') ->
  exists u cands w1 pre p post,
    let out := make_inference_on_model
                 (serving_prompt (User.profile_description u) (sql w) uid cands) in
    find_by User.user_id (users (sql w)) uid = Some u /\
    Search.search_product (Some (PyInt uid)) (User.profile_description u) None None None true
      threshold w = (Ok cands, w1) /\
    cands = pre ++ p :: post /\
    lower (strip out) = lower (strip (Product.name p)) /\
    (forall x, x ∈ pre -> lower (strip out) <> lower (strip (Product.name x))) /\
    pid = Product.product_id p /\
    recommendations (sql w') =
      recommendations (sql w) ++ [Recommendation.mk rid uid pid 1 (clock w1)].
Proof.
  destruct (find_by User.user_id (users (sql w)) uid) as [u|] eqn:Hu;
    [|by rewrite make_recommendation_no_user].
  rewrite (make_recommendation_run _ _ _ Hu).
  destruct (Search.search_product _ _ _ _ _ _ _ w) as [[cands|e] w1] eqn:Hs; [|done].
  destruct (resolve _ cands) as [p|] eqn:Hr; [|done]. intros [= <- <- <-].
  apply find_first in Hr as (pre & post & -> & Hp & Hpre).
  exists u, (pre ++ p :: post), w1, pre, p, post. simpl.
  pose proof (search_keeps_recommendations _ _ _ _ _ _ _ _ _ _ Hs) as Hrec.
  repeat split; try done.
  - unfold name_matches in Hp. by apply String.eqb_eq in Hp.
  - intros x Hx Heq. rewrite Forall_forall in Hpre. specialize (Hpre x Hx).
    unfold name_matches in Hpre. rewrite Heq, String.eqb_refl in Hpre. done.
  - by rewrite Hrec.
Qed.

(** C11: when the model's answer names no candidate, the recommendation
    fails with [UnboundLocalError] on [recommended_product_id] and no
    [Recommendation] row is written. *)
Theorem recommend_unresolved_no_write uid (w : W) u cands w1 :
  find_by User.user_id (users (sql w)) uid = Some u ->
  Search.search_product (Some (PyInt uid)) (User.profile_description u) None None None true
    threshold w = (Ok cands, w1) ->
  resolve (make_inference_on_model
             (serving_prompt (User.profile_description u) (sql w) uid cands)) cands = None ->
  make_recommendation_for_customer uid w =
    (Raise (UnboundLocalError "recommended_product_id"), w1) /\
  recommendations (sql w1) = recommendations (sql w).
Proof.
  intros Hu Hs Hr. rewrite (make_recommendation_run _ _ _ Hu), Hs, Hr. split; [done|].
  exact (search_keeps_recommendations _ _ _ _ _ _ _ _ _ _ Hs).
Qed.

(** C31: asking for a recommendation appends the user's profile text to the
    user's own search history, whatever the outcome. *)
Theorem recommend_logs_profile uid (w : W) u pr :
  find_by User.user_id (users (sql w)) uid = Some u -> User.profile_description u = Some pr ->
  search_history (sql (state_of (make_recommendation_for_customer uid) w)) =
  search_history (sql w) ++
    [SearchHistory.mk (next_id SearchHistory.search_id (search_history (sql w)))
                      (SqlInt uid) pr (clock w)].
Proof.
  intros Hu Hpr. unfold state_of. rewrite (make_recommendation_run _ _ _ Hu).
  pose proof (Search.search_product_logs (PyInt uid) pr None None None true threshold w) as Hlog.
  rewrite <- Hpr in Hlog. unfold state_of in Hlog.
  destruct (Search.search_product _ _ _ _ _ _ _ w) as [[cands|e] w1]; simpl in *; [|done].
  destruct (resolve _ cands); simpl; done.
Qed.

(** C14: when no product is in stock, a recommendation never succeeds
    (section 8: the candidate set is empty, so nothing resolves) and no
    [Recommendation] row is written. *)
Theorem recommend_nothing_in_stock uid (w : W) :
  (forall p, p ∈ products (sql w) -> Product.stock p <= 0) ->
  (forall x, result_of (make_recommendation_for_customer uid) w <> Ok x) /\
  recommendations (sql (state_of (make_recommendation_for_customer uid) w)) =
    recommendations (sql w).
Proof.
  intros Hstock. unfold result_of, state_of.
  destruct (find_by User.user_id (users (sql w)) uid) as [u|] eqn:Hu;
    [|by rewrite make_recommendation_no_user].
  rewrite (make_recommendation_run _ _ _ Hu).
  destruct (Search.search_product _ _ _ _ _ _ _ w) as [[cands|e] w1] eqn:Hs;
    pose proof (search_keeps_recommendations _ _ _ _ _ _ _ _ _ _ Hs) as Hrec; [|done].
  destruct cands as [|p cands].
  - done.
  - exfalso. destruct (Search.search_default_rows _ _ _ _ _ _ _ _ _ Hs p) as (Hp & _ & Hs0);
      [by left|]. specialize (Hstock p Hp). lia.
Qed.

End RecommendProofs.

(** ** The fine-tuning export *)
Section ExportProofs.
Context {I : Type} `{!VectorIndex I} `{!TextEmbedder} {gen : Generator}.
Local Abbreviation W := (world I).

(** The empty keyword keeps every in-stock product on the keyword path. *)
Lemma empty_keyword_in_stock ps p :
  p ∈ ps -> 0 < Product.stock p ->
  p ∈ Search.keyword_results ps (Tokenizer.clean_text "") None None None.
Proof.
  intros Hp Hs. unfold Search.keyword_results. apply list_elem_of_In, filter_In.
  split; [by apply list_elem_of_In|]. change ((0 <? Product.stock p) = true). lia.
Qed.

(** C30: One export row: the answer is the name of the product of the rated
    recommendation, and the candidate names hold the answer and the name
    of every in-stock product. *)
Theorem export_row_candidates fb (w : W) prompt ans w' :
  dataset_row fb w = (Ok (prompt, ans), w') ->
  exists prof r p names,
    find_by Recommendation.recommendation_id (recommendations (sql w))
            (RecommendationFeedback.recommendation_id fb) = Some r /\
    find_by Product.product_id (products (sql w)) (Recommendation.product_id r) = Some p /\
    ans = Product.name p /\
    prompt = engineer_prompt prof
               (user_search_history_str (sql w) (RecommendationFeedback.user_id fb))
               (CandList names) false /\
    ans ∈ names /\
    (forall q, q ∈ products (sql w) -> 0 < Product.stock q -> Product.name q ∈ names).
Proof.
  unfold dataset_row, get_profile, get_data. run_m.
  destruct (find_by Recommendation.recommendation_id _ _) as [r|] eqn:Hr; [|done]. simpl.
  destruct (find_by Product.product_id _ _) as [p|] eqn:Hp; [|done]. simpl.
  destruct (find_by User.user_id _ _) as [u|]; [|done]. simpl.
  destruct (Search.search_product _ _ _ _ _ _ _ w) as [[cands|e] w1] eqn:Hs; [|done].
  intros [= <- <- _]. apply Search.search_product_keyword_prefix in Hs as (suf & -> & _).
  set (names := map Product.name _).
  exists (User.profile_description u), r, p,
    (if bool_decide (Product.name p ∈ names) then names else names ++ [Product.name p]).
  do 4 (split; [done|]).
  split; [case_bool_decide; set_solver|].
  intros q Hq Hst. assert (Product.name q ∈ names).
  { apply elem_of_map_in. apply elem_of_app. left. by apply empty_keyword_in_stock. }
  case_bool_decide; set_solver.
Qed.



(** Serving prints the candidates as a [dict], the export as a [list]:
    the model is fine-tuned on prompts of another form than it is served. *)
Theorem serving_training_prompts_differ prof hist ds names :
  engineer_prompt prof hist (CandDict ds) false <> engineer_prompt prof hist (CandList names) false.
Proof.
  unfold engineer_prompt. intros Heq. repeat apply str_app_inv_l in Heq.
  unfold str_candidates, repr_dict_int_str, repr_list_str in Heq.
  rewrite <- !str_app_assoc in Heq. cbn in Heq. by rewrite !str_app_cons in Heq.
Qed.

End ExportProofs.

Section MethodsInvariant.
Context {I : Type} `{!VectorIndex I} `{!TextEmbedder} {gen : Generator}.

Lemma get_profile_wf uid : preserves (@wf_world I) (get_profile uid).
Proof. unfold get_profile. preserve_tac. Qed.

Lemma make_recommendation_for_customer_wf uid :
  preserves (@wf_world I) (make_recommendation_for_customer uid).
Proof. unfold make_recommendation_for_customer. preserve_tac. Qed.

Lemma get_user_profile_wf uid : preserves (@wf_world I) (get_user_profile uid).
Proof. unfold get_user_profile. preserve_tac. Qed.

End MethodsInvariant.

#[export] Hint Resolve get_profile_wf make_recommendation_for_customer_wf get_user_profile_wf : ecom.
End LLM.

(** ** Concrete runs *)
Module RecommenderFixture.
Export StoreFixture.
Import LLM.

Definition w_shop : world RefIndex.points :=
  state_of (record_user "ana@example.com" (Some "I love gaming")) w_laptop.

Definition ana : User.t := User.mk 1 "ana@example.com" (Some "I love gaming") 4 5.

(** Two stand-ins for the generation model. *)
Definition answer_laptop : Generator := fun _ => " laptop "%string.
Definition answer_banana : Generator := fun _ => "Banana"%string.

Definition w_recommended : world RefIndex.points :=
  state_of (make_recommendation_for_customer (gen := answer_laptop) 1) w_shop.

Definition w_searched : world RefIndex.points :=
  state_of (Search.search_product (Some (PyInt 1)) (Some "I love gaming") None None None true
                                  threshold) w_shop.

(** Three recommendations rated 5, 2 and 4. *)
Definition w_rated : world RefIndex.points :=
  state_of (let* _ := make_recommendation_for_customer (gen := answer_laptop) 1 in
            let* _ := make_recommendation_for_customer (gen := answer_laptop) 1 in
            let* _ := make_recommendation_for_customer (gen := answer_laptop) 1 in
            let* _ := record_recommendation_feedback 1 1 5 in
            let* _ := record_recommendation_feedback 2 1 2 in
            record_recommendation_feedback 3 1 4) w_shop.

Definition fb5 : RecommendationFeedback.t := RecommendationFeedback.mk 1 1 1 5 12.

(** [w_shop] with the only product sold out. *)
Definition w_sold_out : world RefIndex.points :=
  state_of (update_product 1 None None None None (Some 0)) w_shop.

End RecommenderFixture.

Section RecommenderWitnesses.
Import Py LLM RecommenderFixture.

Lemma recommend_first_match_witness :
  make_recommendation_for_customer (gen := answer_laptop) 1 w_shop = (Ok (1, 1), w_recommended) /\
  exists u cands w1 pre p post,
    let out := @make_inference_on_model answer_laptop
                 (serving_prompt (User.profile_description u) (sql w_shop) 1 cands) in
    find_by User.user_id (users (sql w_shop)) 1 = Some u /\
    Search.search_product (Some (PyInt 1)) (User.profile_description u) None None None true
      threshold w_shop = (Ok cands, w1) /\
    cands = pre ++ p :: post /\
    lower (strip out) = lower (strip (Product.name p)) /\
    (forall x, x ∈ pre -> lower (strip out) <> lower (strip (Product.name x))) /\
    1 = Product.product_id p /\
    recommendations (sql w_recommended) =
      recommendations (sql w_shop) ++ [Recommendation.mk 1 1 1 1 (clock w1)].
Proof.
  assert (E : make_recommendation_for_customer (gen := answer_laptop) 1 w_shop =
              (Ok (1, 1), w_recommended)) by (vm_compute; reflexivity).
  split; [exact E|]. exact (recommend_first_match (gen := answer_laptop) 1 w_shop 1 1 _ E).
Defined.

Lemma recommend_unresolved_no_write_witness :
  find_by User.user_id (users (sql w_shop)) 1 = Some ana /\
  Search.search_product (Some (PyInt 1)) (User.profile_description ana) None None None true
    threshold w_shop = (Ok [laptop], w_searched) /\
  resolve (@make_inference_on_model answer_banana
             (serving_prompt (User.profile_description ana) (sql w_shop) 1 [laptop])) [laptop]
    = None /\
  make_recommendation_for_customer (gen := answer_banana) 1 w_shop =
    (Raise (UnboundLocalError "recommended_product_id"), w_searched) /\
  recommendations (sql w_searched) = recommendations (sql w_shop).
Proof.
  assert (H1 : find_by User.user_id (users (sql w_shop)) 1 = Some ana) by reflexivity.
  assert (H2 : Search.search_product (Some (PyInt 1)) (User.profile_description ana) None None
                 None true threshold w_shop = (Ok [laptop], w_searched))
    by (vm_compute; reflexivity).
  assert (H3 : resolve (@make_inference_on_model answer_banana
                 (serving_prompt (User.profile_description ana) (sql w_shop) 1 [laptop]))
                 [laptop] = None) by reflexivity.
  destruct (recommend_unresolved_no_write (gen := answer_banana) 1 w_shop ana [laptop]
              w_searched H1 H2 H3) as [H4 H5].
  repeat split; assumption.
Defined.

Lemma recommend_logs_profile_witness :
  find_by User.user_id (users (sql w_shop)) 1 = Some ana /\
  User.profile_description ana = Some "I love gaming"%string /\
  search_history (sql (state_of (make_recommendation_for_customer (gen := answer_laptop) 1)
                                w_shop)) =
  search_history (sql w_shop) ++
    [SearchHistory.mk (next_id SearchHistory.search_id (search_history (sql w_shop)))
                      (SqlInt 1) "I love gaming" (clock w_shop)].
Proof.
  assert (H1 : find_by User.user_id (users (sql w_shop)) 1 = Some ana) by reflexivity.
  assert (H2 : User.profile_description ana = Some "I love gaming"%string) by reflexivity.
  split; [exact H1|]. split; [exact H2|].
  exact (recommend_logs_profile (gen := answer_laptop) 1 w_shop ana _ H1 H2).
Defined.

Lemma export_row_candidates_witness :
  exists prompt w',
    dataset_row fb5 w_rated = (Ok (prompt, "Laptop"%string), w') /\
    exists prof r p names,
      find_by Recommendation.recommendation_id (recommendations (sql w_rated))
              (RecommendationFeedback.recommendation_id fb5) = Some r /\
      find_by Product.product_id (products (sql w_rated)) (Recommendation.product_id r) = Some p /\
      "Laptop"%string = Product.name p /\
      prompt = engineer_prompt prof
                 (user_search_history_str (sql w_rated) (RecommendationFeedback.user_id fb5))
                 (CandList names) false /\
      "Laptop"%string ∈ names /\
      (forall q, q ∈ products (sql w_rated) -> 0 < Product.stock q -> Product.name q ∈ names).
Proof.
  set (prompt := match result_of (dataset_row fb5) w_rated with
                 | Ok (pr, _) => pr | Raise _ => EmptyString end).
  assert (E : dataset_row fb5 w_rated =
              (Ok (prompt, "Laptop"%string), state_of (dataset_row fb5) w_rated))
    by (vm_compute; reflexivity).
  exists prompt, (state_of (dataset_row fb5) w_rated). split; [exact E|].
  exact (export_row_candidates _ _ _ _ _ E).
Defined.


Lemma recommend_unknown_user_witness :
  find_by User.user_id (users (sql w_shop)) 2 = None /\
  make_recommendation_for_customer (gen := answer_laptop) 2 w_shop =
    (Raise (TypeErrorNone "get_data('User', id)['profile_description']"), w_shop).
Proof.
  assert (H : find_by User.user_id (users (sql w_shop)) 2 = None) by (vm_compute; reflexivity).
  split; [exact H|]. exact (recommend_unknown_user (gen := answer_laptop) 2 w_shop H).
Defined.

Lemma recommend_nothing_in_stock_witness :
  (forall p, p ∈ products (sql w_sold_out) -> Product.stock p <= 0) /\
  (forall x, result_of (make_recommendation_for_customer (gen := answer_laptop) 1) w_sold_out
             <> Ok x) /\
  recommendations (sql (state_of (make_recommendation_for_customer (gen := answer_laptop) 1)
                                 w_sold_out)) = recommendations (sql w_sold_out).
Proof.
  assert (H : forall p, p ∈ products (sql w_sold_out) -> Product.stock p <= 0).
  { apply Forall_forall. refine (bool_decide_unpack _ _). vm_compute. reflexivity. }
  split; [exact H|]. exact (recommend_nothing_in_stock (gen := answer_laptop) 1 w_sold_out H).
Defined.

End RecommenderWitnesses.
