(* ===== verification/Api.v ===== *)
(** * Api: the FastAPI application of [run.py].

    Each endpoint is a handler in the world monad, built on [DB] and [LLM].
    [serve] is what a request meets: the [Query] constraints are checked
    first and a violation answers 422 before the handler runs.  Otherwise
    the handler runs, an [HTTPException] becomes its status, and any other
    exception becomes a 500.  Writes made before an exception stay
    committed.  [step] is one request on the world and [reachable] is the
    closure of [step].  The theorems prove by rule induction that every
    reachable world is well formed, and that every stored feedback comes
    from the user its recommendation was made for. *)

From S2P Require Import Prelude PyText Tokenizer VectorIndex Store Search Recommender.

Local Open Scope Z_scope.

Module Api.
Import Py LLM.

Definition server_host : string := "127.0.0.1".
Definition server_port : Z := 8000.

(** The routes and their parameters. *)
Inductive request :=
  | ReadRoot
  | GetCustomerProfile (user_id : Z)
  | RecommendProduct (user_id : Z)
  | SearchProducts (user_id : Z) (query : string) (min_price max_price : option Q)
                   (min_stock : option Z)
  | SetRecommendationFeedback (user_id recommendation_id rating_score : Z)
  | GetRecommendationPerformance.

(** The bodies the handlers return; [Error] is a non-200 status. *)
Inductive response :=
  | Message (message : string)
  | Profile (profile : string)
  | Recommended (user_id recommendation_id : Z) (product_data : option Product.t)
  | Products (products : list Product.t)
  | FeedbackRecorded
  | Performance (summary : list (Z * nat))
  | Error (status_code : Z) (detail : string).

Definition user_not_found : string := "User ID not found".
Definition feedback_conflict : string :=
  "Feedback for this recommendation has already been submitted.".
Definition feedback_forbidden : string :=
  "Given user is not authorized to access or interact with this recommendation.".

(** [Query(ge=0)] on an optional float. *)
Definition ge0 (x : option Q) : bool :=
  match x with Some v => Qle_bool 0 v | None => true end.

(** The [Query] constraints FastAPI checks before the handler runs. *)
Definition valid (req : request) : bool :=
  match req with
  | SearchProducts _ query min_price max_price min_stock =>
      (1 <=? String.length query)%nat && (String.length query <=? 100)%nat &&
      ge0 min_price && ge0 max_price &&
      match min_stock with Some m => 1 <=? m | None => true end
  | SetRecommendationFeedback _ _ rating_score => (0 <=? rating_score) && (rating_score <=? 5)
  | _ => true
  end.

Section Handlers.
Context {I : Type} `{!VectorIndex I} `{!TextEmbedder} {gen : Generator}.
Local Abbreviation W := (world I).

(** [read_root] *)
Definition read_root : M W response :=
  ret (Message ("Try ot APIs: http://" ++ server_host ++ ":" ++ repr_int server_port ++
                "/docs")%string).

(** [get_customer_profile] *)
Definition get_customer_profile (user_id : Z) : M W response :=
  let* p := get_user_profile user_id in ret (Profile p).

(** [recommend_product] *)
Definition recommend_product (user_id : Z) : M W response :=
  let* u := get_data "User" user_id in
  match u with
  | Some _ =>
      let* recommendation_data := make_recommendation_for_customer user_id in
      let '(product_id, recommendation_id) := recommendation_data in
      let* product_dict := get_data "Product" product_id in
      ret (Recommended user_id recommendation_id
             match product_dict with Some (RProduct p) => Some p | _ => None end)
  | None => raise (HTTPException 404 user_not_found)
  end.

(** [search_products]: [DB.search_product] with its defaults for the
    vector search ([use_vectore_search=True], threshold 0.3). *)
Definition search_products (user_id : Z) (query : string) (min_price max_price : option Q)
    (min_stock : option Z) : M W response :=
  let* u := get_data "User" user_id in
  match u with
  | Some _ =>
      let* ps := Search.search_product (Some (PyInt user_id)) (Some query) min_price max_price
                                       min_stock true (3 # 10) in
      ret (Products ps)
  | None => raise (HTTPException 404 user_not_found)
  end.

(** [set_recommendation_feedback]: [.user_id] of a missing recommendation
    is [None.user_id]. *)
Definition set_recommendation_feedback (user_id recommendation_id rating_score : Z)
    : M W response :=
  let* r := get_data "Recommendation" recommendation_id in
  match r with
  | Some (RRecommendation rec) =>
      if Z.eqb user_id (Recommendation.user_id rec) then
        let* recommendation_feedback_id :=
          record_recommendation_feedback recommendation_id user_id rating_score in
        match recommendation_feedback_id with
        | Some fid => if Z.eqb fid 0 then raise (HTTPException 409 feedback_conflict)
                      else ret FeedbackRecorded
        | None => raise (HTTPException 409 feedback_conflict)
        end
      else raise (HTTPException 403 feedback_forbidden)
  | _ => raise (AttributeErrorNone "user_id")
  end.

(** [get_recommendation_performance] *)
Definition get_recommendation_performance : M W response :=
  let* s := summarize_recommendation_feedback_rating in ret (Performance s).

Definition handler (req : request) : M W response :=
  match req with
  | ReadRoot => read_root
  | GetCustomerProfile uid => get_customer_profile uid
  | RecommendProduct uid => recommend_product uid
  | SearchProducts uid q mp xp ms => search_products uid q mp xp ms
  | SetRecommendationFeedback uid rid r => set_recommendation_feedback uid rid r
  | GetRecommendationPerformance => get_recommendation_performance
  end.

(** The status of an exception that leaves the handler. *)
Definition error_response (e : py_exc) : response :=
  match e with
  | HTTPException status detail => Error status detail
  | _ => Error 500 "Internal Server Error"
  end.

Definition serve (req : request) : M W response :=
  if valid req then catch (handler req) (fun e => ret (error_response e))
  else ret (Error 422 "Unprocessable Entity").

(** One request served. *)
Inductive step : W -> request -> response -> W -> Prop :=
  | step_serve w req resp w' : serve req w = (Ok resp, w') -> step w req resp w'.

(** The worlds a sequence of requests reaches from [w0]. *)
Inductive reachable (w0 : W) : W -> Prop :=
  | reach_init : reachable w0 w0
  | reach_step w req resp w' : reachable w0 w -> step w req resp w' -> reachable w0 w'.

End Handlers.

(** ** Every request is answered *)
Section ServeRuns.
Context {I : Type} `{!VectorIndex I} `{!TextEmbedder} {gen : Generator}.
Local Abbreviation W := (world I).

(** [serve] as the handler's run with its exception turned into a status. *)
Lemma serve_run req (w : W) :
  serve req w =
  if valid req then
    match handler req w with
    | (Ok a, w') => (Ok a, w')
    | (Raise e, w') => (Ok (error_response e), w')
    end
  else (Ok (Error 422 "Unprocessable Entity"), w).
Proof. unfold serve. destruct (valid req); [|done]. unfold catch. by destruct (handler req w) as [[]]. Qed.

(** The clock tick of [datetime.now()] alone. *)
Definition tick (w : W) : W := mkWorld (sql w) (qdrant w) (clock w + 1).

(** The run of [set_recommendation_feedback] on each branch. *)
Lemma set_recommendation_feedback_run uid rid r (w : W) :
  set_recommendation_feedback uid rid r w =
  match find_by Recommendation.recommendation_id (recommendations (sql w)) rid with
  | None => (Raise (AttributeErrorNone "user_id"), w)
  | Some rec =>
      if Z.eqb uid (Recommendation.user_id rec) then
        if bool_decide (rid ∈ map RecommendationFeedback.recommendation_id (feedbacks (sql w)))
        then (Raise (HTTPException 409 feedback_conflict), tick w)
        else (Ok FeedbackRecorded,
              mkWorld (set_feedbacks (fun fs => fs ++
                         [RecommendationFeedback.mk
                            (next_id RecommendationFeedback.recommendation_feedback_id
                                     (feedbacks (sql w))) rid uid r (clock w)]) (sql w))
                      (qdrant w) (clock w + 1))
      else (Raise (HTTPException 403 feedback_forbidden), w)
  end.
Proof.
  unfold set_recommendation_feedback, get_data, record_recommendation_feedback. run_m.
  destruct (find_by Recommendation.recommendation_id _ rid) as [rec|]; simpl; [|done].
  destruct (Z.eqb uid _); [|done]. run_m. case_decide; [done|]. run_m.
  pose proof (next_id_pos RecommendationFeedback.recommendation_feedback_id (feedbacks (sql w))).
  by rewrite (proj2 (Z.eqb_neq _ 0)) by lia.
Qed.

(** C4: [set_recommendation_feedback] on every branch: a missing
    recommendation fails on [None.user_id], another user is refused, a
    second feedback on the same recommendation is a conflict, and
    otherwise one feedback row is appended. *)
Theorem set_recommendation_feedback_spec uid rid r (w : W) :
  set_recommendation_feedback uid rid r w =
  match find_by Recommendation.recommendation_id (recommendations (sql w)) rid with
  | None => (Raise (AttributeErrorNone "user_id"), w)
  | Some rec =>
      if Z.eqb uid (Recommendation.user_id rec) then
        if bool_decide (rid ∈ map RecommendationFeedback.recommendation_id (feedbacks (sql w)))
        then (Raise (HTTPException 409 feedback_conflict), tick w)
        else (Ok FeedbackRecorded,
              mkWorld (set_feedbacks (fun fs => fs ++
                         [RecommendationFeedback.mk
                            (next_id RecommendationFeedback.recommendation_feedback_id
                                     (feedbacks (sql w))) rid uid r (clock w)]) (sql w))
                      (qdrant w) (clock w + 1))
      else (Raise (HTTPException 403 feedback_forbidden), w)
  end.
Proof. exact (set_recommendation_feedback_run uid rid r w). Qed.

(** C18: a user who is not the one a recommendation was made for is refused
    with 403, and nothing is written. *)
Theorem feedback_other_user_forbidden uid rid r rec (w : W) :
  (0 <= r <= 5) ->
  find_by Recommendation.recommendation_id (recommendations (sql w)) rid = Some rec ->
  Recommendation.user_id rec <> uid ->
  serve (SetRecommendationFeedback uid rid r) w = (Ok (Error 403 feedback_forbidden), w).
Proof.
  intros Hr Hf Hu. rewrite serve_run. simpl handler.
  rewrite set_recommendation_feedback_run, Hf, (proj2 (Z.eqb_neq _ _)) by congruence.
  unfold valid. by replace ((0 <=? r) && (r <=? 5)) with true by lia.
Qed.

(** C17: once a feedback is accepted, a second submission on the same
    recommendation by the same user is answered 409 and writes nothing
    but the clock tick. *)
Theorem feedback_resubmission_conflict uid rid r r' (w w1 : W) :
  (0 <= r' <= 5) ->
  serve (SetRecommendationFeedback uid rid r) w = (Ok FeedbackRecorded, w1) ->
  serve (SetRecommendationFeedback uid rid r') w1 =
    (Ok (Error 409 feedback_conflict), tick w1).
Proof.
  intros Hr'. rewrite !serve_run. simpl handler. rewrite !set_recommendation_feedback_run.
  unfold valid. replace ((0 <=? r') && (r' <=? 5)) with true by lia.
  destruct ((0 <=? r) && (r <=? 5)); [|done].
  destruct (find_by _ _ rid) as [rec|] eqn:Hf; [|done].
  destruct (Z.eqb uid _) eqn:Hu; [|done]. case_decide; [done|].
  intros [= <-]. simpl. rewrite Hf, Hu, bool_decide_true; [done|].
  rewrite map_app. apply elem_of_app. right. by left.
Qed.

(** C37: [recommend_product] for an unknown user answers 404 and writes
    nothing. *)
Theorem recommend_product_unknown_user uid (w : W) :
  find_by User.user_id (users (sql w)) uid = None ->
  serve (RecommendProduct uid) w = (Ok (Error 404 user_not_found), w).
Proof. intros Hu. rewrite serve_run. simpl. unfold recommend_product, get_data. run_m. by rewrite Hu. Qed.

(** C15: a 200 answer of [recommend_product] names the requesting user and
    carries the row of a product of the table, and the recommendation id
    it returns is that of a single row just appended for this user and
    this product. *)
Theorem recommend_product_answer uid u rid pd (w w' : W) :
  serve (RecommendProduct uid) w = (Ok (Recommended u rid pd), w') ->
  u = uid /\ exists p r,
    pd = Some p /\ p ∈ products (sql w) /\
    recommendations (sql w') = recommendations (sql w) ++ [r] /\
    Recommendation.recommendation_id r = rid /\ Recommendation.user_id r = uid /\
    Recommendation.product_id r = Product.product_id p.
Proof.
  rewrite serve_run. simpl. unfold recommend_product, bind at 1, get_data at 1, gets. simpl.
  destruct (find_by User.user_id (users (sql w)) uid) as [u0|] eqn:Hu; simpl;
    [|by intros ?; simplify_eq/=].
  unfold bind at 1. rewrite (make_recommendation_run _ _ _ Hu).
  destruct (Search.search_product _ _ _ _ _ _ _ w) as [[cands|e] w1] eqn:Hs;
    [|by destruct e; intros ?; simplify_eq/=].
  destruct (resolve _ cands) as [p|] eqn:Hr; [|by intros ?; simplify_eq/=].
  apply find_first in Hr as (pre & post & -> & _ & _).
  pose proof (Search.search_default_rows _ _ _ _ _ _ _ _ _ Hs p ltac:(set_solver))
    as (Hp & _ & _).
  pose proof (search_keeps_recommendations _ _ _ _ _ _ _ _ _ _ Hs) as Hrec.
  pose proof (Search.search_product_only_history (Some (PyInt uid)) (User.profile_description u0)
                None None None true threshold w) as (_ & _ & Hprod & _).
  unfold state_of in Hprod. rewrite Hs in Hprod. simpl in Hprod.
  unfold get_data, gets. simpl. rewrite Hprod.
  destruct (find_by Product.product_id (products (sql w)) (Product.product_id p))
    as [p'|] eqn:Hf; simpl.
  - intros [= <- <- <- <-]. apply elem_of_find_by in Hf as [Hf Hid].
    split; [done|]. exists p', (Recommendation.mk
      (next_id Recommendation.recommendation_id (recommendations (sql w1))) uid
      (Product.product_id p) 1 (clock w1)).
    split; [done|]. split; [done|]. split; [cbn [sql recommendations set_recommendations]; by rewrite Hrec|].
    simpl. repeat split; by rewrite ?Hid.
  - exfalso. apply (find_by_None _ _ _ Hf). by apply elem_of_map_in.
Qed.

(** A request that violates a [Query] constraint is answered 422
    before any handler runs: nothing is written, not even the query log. *)
Theorem invalid_request_no_effect req (w : W) :
  valid req = false -> serve req w = (Ok (Error 422 "Unprocessable Entity"), w).
Proof. intros Hv. by rewrite serve_run, Hv. Qed.

End ServeRuns.

(** ** Invariants of the served world, by rule induction *)
Section ApiInvariants.
Context {I : Type} `{!VectorIndex I} `{!TextEmbedder} {gen : Generator}.
Local Abbreviation W := (world I).

(** A predicate every request preserves holds in every reachable world. *)
Lemma reachable_ind_preserves (P : W -> Prop) w0 w :
  (forall req, preserves P (serve req)) -> P w0 -> reachable w0 w -> P w.
Proof.
  intros Hs H0 Hr. induction Hr as [|w req resp w' _ IH Hstep]; [done|].
  inversion Hstep as [? ? ? ? E]; subst. specialize (Hs req w IH). by rewrite E in Hs.
Qed.

Lemma serve_of_handler (P : W -> Prop) req :
  preserves P (handler req) -> preserves P (serve req).
Proof. intros Hh. unfold serve. case_match; preserve_tac. Qed.

Lemma handler_wf req : preserves (@wf_world I) (handler req).
Proof.
  destruct req; simpl; unfold read_root, get_customer_profile, recommend_product,
    search_products, set_recommendation_feedback, get_recommendation_performance,
    summarize_recommendation_feedback_rating; preserve_tac.
Qed.

(** C1: every world reachable through the API from a well-formed world is
    well formed: rowids, emails, category names and the recommendation of
    a feedback stay unique. *)
Theorem reachable_wf w0 w : wf_world w0 -> reachable w0 w -> @wf_world I w.
Proof. apply reachable_ind_preserves. intros req. apply serve_of_handler, handler_wf. Qed.

(** Each stored feedback names a recommendation made for its own user. *)
Definition feedback_authorized (d : db) : Prop :=
  forall f, f ∈ feedbacks d ->
  exists r, r ∈ recommendations d /\
    Recommendation.recommendation_id r = RecommendationFeedback.recommendation_id f /\
    Recommendation.user_id r = RecommendationFeedback.user_id f.

(** The handlers other than the feedback one keep the feedback table and
    only add recommendations. *)
Definition feedback_stable (w w' : W) : Prop :=
  feedbacks (sql w') = feedbacks (sql w) /\ recommendations (sql w) ⊆ recommendations (sql w').

#[local] Instance feedback_stable_preorder : PreOrder feedback_stable.
Proof. split; [intros w; by split|]. intros ? ? ? [? ?] [? ?]. split; [congruence|set_solver]. Qed.

Lemma search_product_stable uid kw mp xp ms uv t :
  guarantee feedback_stable (Search.search_product uid kw mp xp ms uv t).
Proof.
  eapply guarantee_weaken; [|apply Search.search_product_only_history].
  intros ? ? (_ & _ & _ & Hr & Hf & _). split; [done|]. by rewrite Hr.
Qed.

Lemma record_recommendation_stable uid pid sc :
  guarantee feedback_stable (record_recommendation uid pid sc).
Proof. intros w. unfold record_recommendation. run_m. split; [done|set_solver]. Qed.

Lemma now_stable : guarantee feedback_stable now.
Proof. intros w. by split. Qed.

#[local] Hint Resolve search_product_stable record_recommendation_stable now_stable : ecom.

Lemma make_recommendation_stable uid :
  guarantee feedback_stable (make_recommendation_for_customer uid).
Proof. unfold make_recommendation_for_customer, get_profile, get_data. guarantee_tac. Qed.

#[local] Hint Resolve make_recommendation_stable : ecom.

Lemma feedback_authorized_stable w w' :
  feedback_authorized (sql w) -> feedback_stable w w' -> feedback_authorized (sql w').
Proof.
  intros Ha [Hf Hr] f Hin. rewrite Hf in Hin. destruct (Ha f Hin) as (r & ? & ?).
  exists r. set_solver.
Qed.

Lemma set_recommendation_feedback_authorized uid rid r :
  preserves (fun w : W => feedback_authorized (sql w)) (set_recommendation_feedback uid rid r).
Proof.
  intros w Ha. rewrite set_recommendation_feedback_run.
  destruct (find_by _ _ rid) as [rec|] eqn:Hfind; [|done].
  destruct (Z.eqb_spec uid (Recommendation.user_id rec)) as [->|]; [|done].
  case_decide; [done|]. unfold feedback_authorized; simpl. intros f.
  rewrite elem_of_app, list_elem_of_singleton.
  intros [Hin | ->].
  - destruct (Ha f Hin) as (x & ? & ?). by exists x.
  - apply elem_of_find_by in Hfind as [? ?]. by exists rec.
Qed.

Lemma feedback_authorized_reachable w0 w :
  feedback_authorized (sql w0) -> reachable w0 w -> feedback_authorized (@sql I w).
Proof.
  intros H0. apply (reachable_ind_preserves (fun w : W => feedback_authorized (sql w)));
    [|done].
  intros req. apply serve_of_handler. destruct req; simpl;
    [ | | | | apply set_recommendation_feedback_authorized | ];
    eapply guarantee_preserves; try apply feedback_authorized_stable;
    unfold read_root, get_customer_profile, get_user_profile, get_profile, get_data,
      recommend_product, search_products, get_recommendation_performance,
      summarize_recommendation_feedback_rating; guarantee_tac.
Qed.

(** C2: through the API, feedback is only ever stored for a recommendation
    made for the user who gives it: this holds in every world reachable
    from one where it holds. *)
Theorem reachable_feedback_authorized w0 w :
  feedback_authorized (sql w0) -> reachable w0 w -> feedback_authorized (@sql I w).
Proof. exact (feedback_authorized_reachable w0 w). Qed.

(** A relation every request guarantees holds between [w0] and every
    world reachable from it. *)
Lemma reachable_guarantee (R : W -> W -> Prop) `{!PreOrder R} w0 w :
  (forall req, guarantee R (serve req)) -> reachable w0 w -> R w0 w.
Proof.
  intros Hs Hr. induction Hr as [|w req resp w' _ IH Hstep]; [reflexivity|].
  inversion Hstep as [? ? ? ? E]; subst. specialize (Hs req w). rewrite E in Hs.
  by etrans.
Qed.

(** The API writes only by appending: users, categories, products and the
    vector index stay as they are, and the history, recommendation and
    feedback tables only grow at their end. *)
Definition append_only (w w' : W) : Prop :=
  users (sql w') = users (sql w) /\ categories (sql w') = categories (sql w) /\
  products (sql w') = products (sql w) /\ qdrant w' = qdrant w /\
  search_history (sql w) `prefix_of` search_history (sql w') /\
  recommendations (sql w) `prefix_of` recommendations (sql w') /\
  feedbacks (sql w) `prefix_of` feedbacks (sql w').

#[local] Instance append_only_preorder : PreOrder append_only.
Proof.
  split; [intros w; repeat split; reflexivity|].
  intros ? ? ? (?&?&?&?&?&?&?) (?&?&?&?&?&?&?).
  repeat split; try congruence; by etrans.
Qed.

Lemma now_append_only : guarantee append_only now.
Proof. intros w. repeat split; reflexivity. Qed.

Lemma record_search_history_append_only uid q :
  guarantee append_only (record_search_history uid q).
Proof.
  intros w. unfold record_search_history. run_m.
  destruct q; run_m; repeat split; first [reflexivity | by eexists].
Qed.

Lemma qdrant_search_append_only name q k t :
  guarantee append_only (qdrant_call (Qdrant.search_similar_products name q k t)).
Proof.
  intros w. unfold qdrant_call, zoom, Qdrant.search_similar_products. simpl.
  repeat case_match; simplify_eq; simpl; repeat split; reflexivity.
Qed.

Lemma record_recommendation_append_only uid pid sc :
  guarantee append_only (record_recommendation uid pid sc).
Proof.
  intros w. unfold record_recommendation. run_m. repeat split; first [reflexivity | by eexists].
Qed.

Lemma record_recommendation_feedback_append_only rid uid r :
  guarantee append_only (record_recommendation_feedback rid uid r).
Proof.
  intros w. unfold record_recommendation_feedback. run_m.
  case_decide; run_m; repeat split; first [reflexivity | by eexists].
Qed.

#[local] Hint Resolve now_append_only record_search_history_append_only
  qdrant_search_append_only record_recommendation_append_only
  record_recommendation_feedback_append_only : ecom.

Lemma search_product_append_only uid kw mp xp ms uv t :
  guarantee append_only (Search.search_product uid kw mp xp ms uv t).
Proof. unfold Search.search_product. guarantee_tac. Qed.

#[local] Hint Resolve search_product_append_only : ecom.

Lemma serve_append_only req : guarantee append_only (serve req).
Proof.
  unfold serve. destruct req; simpl; unfold read_root, get_customer_profile, get_user_profile,
    get_profile, get_data, recommend_product, make_recommendation_for_customer,
    search_products, set_recommendation_feedback, get_recommendation_performance,
    summarize_recommendation_feedback_rating; guarantee_tac.
Qed.

(** C3: the API never changes users, categories, products or the vector
    index, and never modifies or removes a search-history,
    recommendation or feedback row: along any sequence of requests those
    tables only grow at their end (section 3: immutable rows, create-once
    feedback). *)
Theorem reachable_append_only (w0 w : W) : reachable w0 w -> append_only w0 w.
Proof. apply reachable_guarantee; [apply _|]. apply serve_append_only. Qed.

End ApiInvariants.
End Api.

(** ** Concrete runs *)
Module ApiFixture.
Export RecommenderFixture.
Import LLM Api.

(** [w_shop] after a recommendation request of user 1. *)
Definition w_served : world RefIndex.points :=
  state_of (serve (gen := answer_laptop) (RecommendProduct 1)) w_shop.

(** ... and the feedback of user 1 on it. *)
Definition w_fed : world RefIndex.points :=
  state_of (serve (gen := answer_laptop) (SetRecommendationFeedback 1 1 5)) w_served.

End ApiFixture.

Section ApiWitnesses.
Import LLM Api ApiFixture.

Lemma feedback_other_user_forbidden_witness :
  (0 <= 5 <= 5) /\
  find_by Recommendation.recommendation_id (recommendations (sql w_served)) 1 =
    Some (Recommendation.mk 1 1 1 1 7) /\
  Recommendation.user_id (Recommendation.mk 1 1 1 1 7) <> 2 /\
  serve (gen := answer_laptop) (SetRecommendationFeedback 2 1 5) w_served =
    (Ok (Error 403 feedback_forbidden), w_served).
Proof.
  assert (H1 : 0 <= 5 <= 5) by lia.
  assert (H2 : find_by Recommendation.recommendation_id (recommendations (sql w_served)) 1 =
                 Some (Recommendation.mk 1 1 1 1 7)) by (vm_compute; reflexivity).
  assert (H3 : Recommendation.user_id (Recommendation.mk 1 1 1 1 7) <> 2) by (simpl; lia).
  split; [exact H1|]. split; [exact H2|]. split; [exact H3|].
  exact (feedback_other_user_forbidden (gen := answer_laptop) 2 1 5 _ w_served H1 H2 H3).
Defined.

Lemma feedback_resubmission_conflict_witness :
  (0 <= 3 <= 5) /\
  serve (gen := answer_laptop) (SetRecommendationFeedback 1 1 5) w_served =
    (Ok FeedbackRecorded, w_fed) /\
  serve (gen := answer_laptop) (SetRecommendationFeedback 1 1 3) w_fed =
    (Ok (Error 409 feedback_conflict), tick w_fed).
Proof.
  assert (H1 : 0 <= 3 <= 5) by lia.
  assert (H2 : serve (gen := answer_laptop) (SetRecommendationFeedback 1 1 5) w_served =
                 (Ok FeedbackRecorded, w_fed)) by (vm_compute; reflexivity).
  split; [exact H1|]. split; [exact H2|].
  exact (feedback_resubmission_conflict (gen := answer_laptop) 1 1 5 3 w_served w_fed H1 H2).
Defined.

Lemma recommend_product_unknown_user_witness :
  find_by User.user_id (users (sql w_shop)) 2 = None /\
  serve (gen := answer_laptop) (RecommendProduct 2) w_shop =
    (Ok (Error 404 user_not_found), w_shop).
Proof.
  assert (H : find_by User.user_id (users (sql w_shop)) 2 = None) by (vm_compute; reflexivity).
  split; [exact H|]. exact (recommend_product_unknown_user (gen := answer_laptop) 2 w_shop H).
Defined.

Lemma invalid_request_no_effect_witness :
  valid (SearchProducts 1 "" None None None) = false /\
  serve (gen := answer_laptop) (SearchProducts 1 "" None None None) w_shop =
    (Ok (Error 422 "Unprocessable Entity"), w_shop).
Proof.
  assert (H : valid (SearchProducts 1 "" None None None) = false) by reflexivity.
  split; [exact H|]. exact (invalid_request_no_effect (gen := answer_laptop) _ w_shop H).
Defined.

Lemma w_fed_reachable : reachable (gen := answer_laptop) w_shop w_fed.
Proof.
  eapply reach_step; [eapply reach_step; [apply reach_init|]|].
  - apply step_serve with (req := RecommendProduct 1). vm_compute. reflexivity.
  - apply step_serve with (req := SetRecommendationFeedback 1 1 5). vm_compute. reflexivity.
Defined.

Lemma reachable_wf_witness :
  wf_world w_shop /\ reachable (gen := answer_laptop) w_shop w_fed /\ wf_world w_fed.
Proof.
  assert (H : wf_world w_shop) by (split; refine (bool_decide_unpack _ _); vm_compute; reflexivity).
  split; [exact H|]. split; [exact w_fed_reachable|].
  exact (reachable_wf (gen := answer_laptop) w_shop w_fed H w_fed_reachable).
Defined.

Lemma reachable_feedback_authorized_witness :
  feedback_authorized (sql w_shop) /\ reachable (gen := answer_laptop) w_shop w_fed /\
  feedback_authorized (sql w_fed).
Proof.
  assert (H : feedback_authorized (sql w_shop)).
  { intros f Hf. vm_compute in Hf. by apply not_elem_of_nil in Hf. }
  split; [exact H|]. split; [exact w_fed_reachable|].
  exact (reachable_feedback_authorized (gen := answer_laptop) w_shop w_fed H w_fed_reachable).
Defined.

Lemma reachable_append_only_witness :
  reachable (gen := answer_laptop) w_shop w_fed /\ append_only w_shop w_fed.
Proof.
  split; [exact w_fed_reachable|].
  exact (reachable_append_only (gen := answer_laptop) w_shop w_fed w_fed_reachable).
Defined.

Lemma recommend_product_answer_witness :
  serve (gen := answer_laptop) (RecommendProduct 1) w_shop =
    (Ok (Recommended 1 1 (Some laptop)), w_served) /\
  1 = 1 /\ exists p r,
    Some laptop = Some p /\ p ∈ products (sql w_shop) /\
    recommendations (sql w_served) = recommendations (sql w_shop) ++ [r] /\
    Recommendation.recommendation_id r = 1 /\ Recommendation.user_id r = 1 /\
    Recommendation.product_id r = Product.product_id p.
Proof.
  assert (E : serve (gen := answer_laptop) (RecommendProduct 1) w_shop =
                (Ok (Recommended 1 1 (Some laptop)), w_served)) by (vm_compute; reflexivity).
  split; [exact E|].
  exact (recommend_product_answer (gen := answer_laptop) 1 1 1 (Some laptop) w_shop w_served E).
Defined.

End ApiWitnesses.
