(* ===== verification/Startup.v ===== *)
(** * Startup: the model objects and the start of [run.py].

    [run.py] starts by running [db = DB()] and
    [llm = LLM(db, load_model_data_on_start=True)], and then serves
    requests.
    - [DB()] builds a [TextEmbedder] (a SentenceTransformer named
      ["all-MiniLM-L6-v2"]) and a [QdrantDatabase], which creates the
      product collection.
    - [LLM(...)] keeps the names and paths of [constants.py] and loads the
      fine-tuned T5 checkpoint and tokenizer with [from_pretrained].

    The networks are the parameters of this file, the classes [T5] and
    [SentenceTransformers]: they give only the types of a checkpoint and
    the functions [from_pretrained] and [generate]/[encode].  The Python
    objects are records: [Embedder.t] is a [TextEmbedder] and [LLMObject.t]
    an [LLM] with its [model] and [tokenizer] slots.

    The theorems prove three things.
    - The object [run.py] builds answers every inference with the fixed
      function [served_generator].  The handlers of [Api], which take the
      generation model as the parameter [LLM.Generator], therefore
      describe the running app when [served_generator] is that parameter.
    - Loading happens at most once.  Without loading, inference fails,
      and the sentinel [False] of the tokenizer escapes the [is None]
      guard.
    - The start creates the product collection when it is missing, keeps
      it when it exists, and raises when the Qdrant server is down. *)

From S2P Require Import Prelude PyText Tokenizer VectorIndex Store Search Recommender Api.

Local Open Scope Z_scope.

Module Startup.

(** ** [constants.py]: the file paths, used only by the file I/O
    ([create_engine], [from_pretrained]), and the model names. *)
Definition SQL_DB_PATH : string := "./db/sqlite_storage/main.db".
Definition QDRANT_STORAGE_PATH : string := "./db/qdrant_storage".
Definition LLM_NAME : string := "google/flan-t5-small".
Definition LLM_MAX_OUTPUT_LENGTH : Z := 30.
Definition LLM_FINE_TUNED_SAVE_PATH : string := "./llm/fine-tuned-flan-t5-small".
Definition LLM_FINE_TUNED_TOKENIZER_PATH : string := "./llm/fine-tuned-tokenizer".

(** ** The pretrained networks *)

(** T5 checkpoints: [from_pretrained] of a path for the model and the
    tokenizer.  [t5_generate m t n q] is [make_inference_on_model]'s
    pipeline: tokenize [q], run [generate] with at most [n] output tokens
    and 5 beams, and decode the first output without special tokens. *)
Class T5 := {
  t5_model : Type;
  t5_tokenizer : Type;
  model_from_pretrained : string -> t5_model;
  tokenizer_from_pretrained : string -> t5_tokenizer;
  t5_generate : t5_model -> t5_tokenizer -> Z -> string -> string
}.

(** SentenceTransformer checkpoints: the model of a name, and [encode]
    followed by the cast to [float32]. *)
Class SentenceTransformers := {
  st_model : Type;
  SentenceTransformer : string -> st_model;
  st_encode : st_model -> string -> vector
}.

(** ** [TextEmbedder] *)
Module Embedder.
Section Embedder.
Context `{!SentenceTransformers}.

Record t := mk { model_name : string; model : st_model }.

(** [TextEmbedder.__init__] *)
Definition init : t :=
  mk "all-MiniLM-L6-v2" (SentenceTransformer "all-MiniLM-L6-v2").

(** [TextEmbedder.generate_embedding] *)
Definition generate_embedding (e : t) (text : string) : vector :=
  st_encode (model e) text.

End Embedder.
End Embedder.

(** The embedder every [DB] method uses: the one [DB.__init__] builds. *)
Definition served_embedder `{!SentenceTransformers} : TextEmbedder :=
  Embedder.generate_embedding Embedder.init.

(** ** [LLM]'s model slots *)
Module LLMObject.
Section LLMObject.
Context `{!T5}.

(** The value of [self.tokenizer]: [__init__] sets it to [False], and
    [load_data_for_inferencing] tests it against [None]. *)
Inductive tokenizer_value :=
  | TokFalse
  | TokNone
  | TokLoaded (tok : t5_tokenizer).

(** The attributes of an [LLM] object other than [db] and [engine].  Those
    two are the shared database, which is the world of [Store]. *)
Record t := mk {
  MODEL_NAME : string;
  model : option t5_model;
  tokenizer : tokenizer_value;
  model_output_max_length : Z;
  model_path : string;
  tokenizer_path : string
}.

(** [self.model is None] *)
Definition model_is_None (m : option t5_model) : bool :=
  match m with None => true | Some _ => false end.

(** [self.tokenizer is None] *)
Definition tokenizer_is_None (v : tokenizer_value) : bool :=
  match v with TokNone => true | _ => false end.

(** [LLM.load_data_for_inferencing] *)
Definition load_data_for_inferencing (o : t) : t :=
  if model_is_None (model o) || tokenizer_is_None (tokenizer o) then
    mk (MODEL_NAME o) (Some (model_from_pretrained (model_path o)))
       (TokLoaded (tokenizer_from_pretrained (tokenizer_path o)))
       (model_output_max_length o) (model_path o) (tokenizer_path o)
  else o.

(** [LLM.__init__] *)
Definition init (load_model_data_on_start : bool) : t :=
  let o := mk LLM_NAME None TokFalse LLM_MAX_OUTPUT_LENGTH LLM_FINE_TUNED_SAVE_PATH
              LLM_FINE_TUNED_TOKENIZER_PATH in
  if load_model_data_on_start then load_data_for_inferencing o else o.

(** [LLM.make_inference_on_model]: [self.model.to(device)] fails on
    [None], and calling [self.tokenizer] fails on [False] or [None]. *)
Definition make_inference_on_model (o : t) (query : string) : outcome string :=
  match model o with
  | None => Raise (AttributeErrorNone "to")
  | Some m =>
      match tokenizer o with
      | TokLoaded tok => Ok (t5_generate m tok (model_output_max_length o) query)
      | TokFalse => Raise (TypeError "'bool' object is not callable")
      | TokNone => Raise (TypeError "'NoneType' object is not callable")
      end
  end.

End LLMObject.
End LLMObject.

(** The generation model of the running app: the fine-tuned checkpoint
    and tokenizer, with at most [LLM_MAX_OUTPUT_LENGTH] output tokens. *)
Definition served_generator `{!T5} : LLM.Generator :=
  fun query => t5_generate (model_from_pretrained LLM_FINE_TUNED_SAVE_PATH)
                 (tokenizer_from_pretrained LLM_FINE_TUNED_TOKENIZER_PATH)
                 LLM_MAX_OUTPUT_LENGTH query.

(** ** The module start of [run.py] *)
Section AppStart.
Context {I : Type} `{!VectorIndex I} `{!TextEmbedder} `{!T5}.
Local Abbreviation W := (world I).

(** [DB.__init__]: the Qdrant client creates the product collection.  The
    tables are those of the database file ([initialize_database]). *)
Definition DB_init : M W unit :=
  qdrant_call (Qdrant.init QDRANT_PRODUCT_COLLECTION_NAME).

(** [db = DB()] then [llm = LLM(db, load_model_data_on_start=True)]. *)
Definition app_start : M W LLMObject.t :=
  let* _ := DB_init in
  ret (LLMObject.init true).

End AppStart.

(** ** Loading and inference *)
Section LLMObjectProofs.
Context `{!T5}.

(** An object whose model and tokenizer are both loaded. *)
Definition loaded (o : LLMObject.t) : Prop :=
  exists m tok, LLMObject.model o = Some m /\ LLMObject.tokenizer o = LLMObject.TokLoaded tok.

Lemma load_data_for_inferencing_loaded_id o :
  loaded o -> LLMObject.load_data_for_inferencing o = o.
Proof.
  intros (m & tok & Hm & Ht). unfold LLMObject.load_data_for_inferencing.
  by rewrite Hm, Ht.
Qed.

(** Loading from the paths of [constants.py] gives the checkpoint of
    [served_generator]. *)
Lemma load_fresh_serves o q :
  LLMObject.model o = None ->
  LLMObject.model_output_max_length o = LLM_MAX_OUTPUT_LENGTH ->
  LLMObject.model_path o = LLM_FINE_TUNED_SAVE_PATH ->
  LLMObject.tokenizer_path o = LLM_FINE_TUNED_TOKENIZER_PATH ->
  LLMObject.make_inference_on_model (LLMObject.load_data_for_inferencing o) q =
    Ok (served_generator q).
Proof.
  intros Hm Hn Hp Ht. unfold LLMObject.load_data_for_inferencing. rewrite Hm. simpl.
  by rewrite Hn, Hp, Ht.
Qed.

(** C20: [load_data_for_inferencing] calls [from_pretrained] at most once:
    on a loaded object it does nothing. *)
Theorem load_data_for_inferencing_once o m tok :
  LLMObject.model o = Some m -> LLMObject.tokenizer o = LLMObject.TokLoaded tok ->
  LLMObject.load_data_for_inferencing o = o.
Proof. intros Hm Ht. apply load_data_for_inferencing_loaded_id. by exists m, tok. Qed.

(** C9: [llm = LLM(db, load_model_data_on_start=True)] answers every query
    with [served_generator]. *)
Theorem init_serves q :
  LLMObject.make_inference_on_model (LLMObject.init true) q = Ok (served_generator q).
Proof. by apply load_fresh_serves. Qed.

(** C19: An [LLM] built with [load_model_data_on_start=False] raises on every
    query ([self.model] is [None]) until [load_data_for_inferencing] runs;
    after it the object answers with [served_generator]. *)
Theorem init_unloaded_lazy q :
  LLMObject.make_inference_on_model (LLMObject.init false) q = Raise (AttributeErrorNone "to") /\
  LLMObject.make_inference_on_model (LLMObject.load_data_for_inferencing (LLMObject.init false)) q =
    Ok (served_generator q).
Proof. split; [done|]. by apply load_fresh_serves. Qed.

(** C36: [self.tokenizer = False] is not [None]: an object with a model and the
    initial tokenizer [False] is not repaired by
    [load_data_for_inferencing], and its inference raises. *)
Theorem load_keeps_false_tokenizer o m q :
  LLMObject.model o = Some m -> LLMObject.tokenizer o = LLMObject.TokFalse ->
  LLMObject.load_data_for_inferencing o = o /\
  LLMObject.make_inference_on_model o q = Raise (TypeError "'bool' object is not callable").
Proof.
  intros Hm Ht. unfold LLMObject.load_data_for_inferencing, LLMObject.make_inference_on_model.
  by rewrite Hm, Ht.
Qed.

End LLMObjectProofs.

(** ** The start of the app *)
Section AppStartProofs.
Context {I : Type} `{!VectorIndex I} `{!T5}.
Local Abbreviation W := (world I).

(** C22: With the Qdrant server up, the start succeeds, leaves the tables and
    the clock as they are, and the product collection exists afterwards,
    unchanged when it existed before.  With the server down, [DB()]
    raises and nothing changes. *)
Theorem app_start_spec (w : W) :
  (Qdrant.q_up (qdrant w) = true ->
   exists w1, app_start w = (Ok (LLMObject.init true), w1) /\
     sql w1 = sql w /\ clock w1 = clock w /\ Qdrant.q_up (qdrant w1) = true /\
     is_Some (Qdrant.q_collections (qdrant w1) !! QDRANT_PRODUCT_COLLECTION_NAME) /\
     (is_Some (Qdrant.q_collections (qdrant w) !! QDRANT_PRODUCT_COLLECTION_NAME) ->
      Qdrant.q_collections (qdrant w1) = Qdrant.q_collections (qdrant w))) /\
  (Qdrant.q_up (qdrant w) = false ->
   app_start w = (Raise (Qdrant.down_error "get_collection"), w)).
Proof.
  destruct w as [d [up cols] t]. unfold app_start, DB_init, bind, ret, qdrant_call, zoom, Qdrant.init,
    Qdrant.create_collection_if_not_exists.
  generalize QDRANT_PRODUCT_COLLECTION_NAME as N. intros N. simpl.
  split; intros Hup; simpl in Hup; subst up; [|done].
  destruct (cols !! N) as [c|] eqn:E; cbn.
  - eexists; split; [reflexivity|]. cbn. by repeat split.
  - eexists; split; [reflexivity|]. cbn. rewrite lookup_insert_eq.
    repeat split; [by eexists|]. by intros [].
Qed.

End AppStartProofs.
End Startup.

(** ** Concrete runs: stand-ins for the two networks *)
Module StartupFixture.
Export ApiFixture.
Import Startup.

(** A T5 whose checkpoints carry no data and whose answer is fixed. *)
#[export] Instance unit_t5 : T5 := {|
  t5_model := unit;
  t5_tokenizer := unit;
  model_from_pretrained _ := tt;
  tokenizer_from_pretrained _ := tt;
  t5_generate _ _ _ _ := " laptop "%string
|}.

Definition llm_started : LLMObject.t := LLMObject.init true.

(** An object with a model but the initial tokenizer [False]. *)
Definition llm_half : LLMObject.t :=
  LLMObject.mk LLM_NAME (Some tt) LLMObject.TokFalse LLM_MAX_OUTPUT_LENGTH
    LLM_FINE_TUNED_SAVE_PATH LLM_FINE_TUNED_TOKENIZER_PATH.

End StartupFixture.

Section StartupWitnesses.
Import Startup StartupFixture.

Lemma load_data_for_inferencing_once_witness :
  LLMObject.model llm_started = Some tt /\ LLMObject.tokenizer llm_started = LLMObject.TokLoaded tt /\
  LLMObject.load_data_for_inferencing llm_started = llm_started.
Proof.
  assert (H1 : LLMObject.model llm_started = Some tt) by reflexivity.
  assert (H2 : LLMObject.tokenizer llm_started = LLMObject.TokLoaded tt) by reflexivity.
  split; [exact H1|]. split; [exact H2|].
  exact (load_data_for_inferencing_once llm_started tt tt H1 H2).
Defined.

Lemma load_keeps_false_tokenizer_witness :
  LLMObject.model llm_half = Some tt /\ LLMObject.tokenizer llm_half = LLMObject.TokFalse /\
  LLMObject.load_data_for_inferencing llm_half = llm_half /\
  LLMObject.make_inference_on_model llm_half "gaming" =
    Raise (TypeError "'bool' object is not callable").
Proof.
  assert (H1 : LLMObject.model llm_half = Some tt) by reflexivity.
  assert (H2 : LLMObject.tokenizer llm_half = LLMObject.TokFalse) by reflexivity.
  split; [exact H1|]. split; [exact H2|].
  exact (load_keeps_false_tokenizer llm_half tt "gaming" H1 H2).
Defined.

Lemma app_start_spec_witness :
  Qdrant.q_up (qdrant w_shop) = true /\
  exists w1, app_start w_shop = (Ok (LLMObject.init true), w1) /\
    sql w1 = sql w_shop /\ clock w1 = clock w_shop /\ Qdrant.q_up (qdrant w1) = true /\
    is_Some (Qdrant.q_collections (qdrant w1) !! QDRANT_PRODUCT_COLLECTION_NAME) /\
    (is_Some (Qdrant.q_collections (qdrant w_shop) !! QDRANT_PRODUCT_COLLECTION_NAME) ->
     Qdrant.q_collections (qdrant w1) = Qdrant.q_collections (qdrant w_shop)).
Proof.
  assert (H : Qdrant.q_up (qdrant w_shop) = true) by (vm_compute; reflexivity).
  split; [exact H|]. exact (proj1 (app_start_spec w_shop) H).
Defined.

End StartupWitnesses.
