(* ===== verification/Random.v ===== *)
(** * Random: loops that may not stop, and Python's [random] module.

    The seeding script [populate_synthetic_db.py] contains [while True]
    loops that stop only when a random draw succeeds.  Its runs are
    computations of the fuel monad [FM S A := S -> option (outcome A * S)].
    [None] means that the run is not determined with the fuel given:
    every [while True] loop gets at most [fuel] iterations.  [Some] is an
    outcome as in the prelude.  [ftry] is Python's [try]/[except]: it
    catches Python exceptions and never the lack of fuel.  More fuel gives
    a more defined run ([while_true_mono], [fuel_mono]).  Divergence is a
    run that is [None] for every fuel.

    The random source is the parameter [rng : nat -> Z]: the values the
    Mersenne Twister returns, one per call of [_randbelow] or [random()].
    The state counts the draws used ([rs_draws]).  [randbelow n] is
    [rng i mod n], which is [_randbelow(n)]'s value when [rng i] is that
    value, so theorems for every [rng] hold for every seed.  [choice],
    [randint], [random], [uniform] and [sample] follow [Lib/random.py] on
    top of it.  The Hoare logic [hoare] (partial correctness, both
    outcomes) and its invariant form [finv] carry the proofs about runs. *)

From S2P Require Import Prelude.
From Stdlib Require Import Lqa.

Local Open Scope Z_scope.

(** ** The fuel monad *)
Definition FM (S A : Type) : Type := S -> option (outcome A * S).

Section FuelMonad.
Context {S : Type}.

Definition fret {A} (a : A) : FM S A := fun s => Some (Ok a, s).
Definition fraise {A} (e : py_exc) : FM S A := fun s => Some (Raise e, s).
Definition fbind {A B} (c : FM S A) (k : A -> FM S B) : FM S B :=
  fun s => match c s with
           | Some (Ok a, s') => k a s'
           | Some (Raise e, s') => Some (Raise e, s')
           | None => None
           end.

(** [try: c except: h]: a Python exception goes to the handler; a run
    without enough fuel stays undetermined. *)
Definition ftry {A} (c : FM S A) (h : py_exc -> FM S A) : FM S A :=
  fun s => match c s with
           | Some (Raise e, s') => h e s'
           | r => r
           end.

(** A computation of the world monad, which always terminates. *)
Definition embed {A} (c : M S A) : FM S A := fun s => Some (c s).

(** [while True: body], where the body answers [Some a] for [break] with
    [a] and [None] for [continue]. *)
Fixpoint while_true {A} (fuel : nat) (body : FM S (option A)) : FM S A :=
  match fuel with
  | O => fun _ => None
  | Datatypes.S f =>
      fbind body (fun r => match r with
                           | Some a => fret a
                           | None => while_true f body
                           end)
  end.

(** [for x in l: body x] *)
Fixpoint for_each {A} (l : list A) (body : A -> FM S unit) : FM S unit :=
  match l with
  | [] => fret tt
  | x :: l' => fbind (body x) (fun _ => for_each l' body)
  end.

(** [for _ in range(k): body] *)
Definition for_range (k : nat) (body : FM S unit) : FM S unit :=
  for_each (seq 0 k) (fun _ => body).

End FuelMonad.

Notation "'let%' x ':=' c 'in' k" := (fbind c (fun x => k))
  (at level 10, x name, c at level 100, k at level 200) : py_scope.

(** ** The random source *)

(** The successive draws of the generator. *)
Class RandomSource := rng : nat -> Z.

(** A state with the number of draws already used. *)
Record rstate (S : Type) := mkR { rs_state : S; rs_draws : nat }.
Arguments mkR {S} _ _.
Arguments rs_state {S} _.
Arguments rs_draws {S} _.

Section Rand.
Context `{!RandomSource} {S : Type}.
Local Abbreviation R := (rstate S).

(** A computation of the world monad on the state part. *)
Definition on_state {A} (c : M S A) : FM R A :=
  fun s => let '(r, s') := c (rs_state s) in Some (r, mkR s' (rs_draws s)).

(** One draw. *)
Definition draw : FM R Z :=
  fun s => Some (Ok (rng (rs_draws s)), mkR (rs_state s) (Datatypes.S (rs_draws s))).

(** [_randbelow(n)]: a number in [[0, n)]. *)
Definition randbelow (n : Z) : FM R Z := let% r := draw in fret (r mod n).

(** [random.random()]: 53 random bits scaled into [[0, 1)]. *)
Definition random : FM R Q :=
  let% r := draw in fret (inject_Z (r mod 2 ^ 53) / inject_Z (2 ^ 53))%Q.

(** [random.randint(a, b)] is [randrange(a, b + 1)]. *)
Definition randint (a b : Z) : FM R Z :=
  let% r := randbelow (b - a + 1) in fret (a + r).

(** [random.uniform(a, b)] *)
Definition uniform (a b : Q) : FM R Q :=
  let% r := random in fret (a + (b - a) * r)%Q.

(** [random.choice(seq)] *)
Definition choice {A} (d : A) (l : list A) : FM R A :=
  match l with
  | [] => fraise (IndexError "Cannot choose from an empty sequence")
  | _ => let% i := randbelow (Z.of_nat (length l)) in fret (nth (Z.to_nat i) l d)
  end.

(** The size below which [random.sample] draws from a shrinking pool:
    [21], plus [4 ** ceil(log(3k, 4))] when [k > 5].  [3k] is never a
    power of [4], so the ceiling is the least [e] with [4 ^ e > 3k]. *)
Fixpoint log4_above (fuel : nat) (e : nat) (x : nat) : nat :=
  match fuel with
  | O => e
  | Datatypes.S f => if (x <? 4 ^ e)%nat then e else log4_above f (Datatypes.S e) x
  end.

Definition setsize (k : nat) : nat :=
  if (k <=? 5)%nat then 21 else 21 + 4 ^ log4_above (3 * k) 0 (3 * k).

(** The pool method: [j = randbelow(n - i); result[i] = pool[j];
    pool[j] = pool[n - i - 1]]. *)
Fixpoint pool_sample {A} (d : A) (n : nat) (pool : list A) (i : nat) (left : nat)
    : FM R (list A) :=
  match left with
  | O => fret []
  | Datatypes.S left' =>
      let% j := randbelow (Z.of_nat (n - i)) in
      let x := nth (Z.to_nat j) pool d in
      let pool' := <[Z.to_nat j := nth (n - i - 1) pool d]> pool in
      let% rest := pool_sample d n pool' (Datatypes.S i) left' in
      fret (x :: rest)
  end.

(** [while j in selected: j = randbelow(n)] *)
Fixpoint redraw (fuel : nat) (n : Z) (selected : list Z) (j : Z) : FM R Z :=
  if bool_decide (j ∈ selected) then
    match fuel with
    | O => fun _ => None
    | Datatypes.S f => let% j' := randbelow n in redraw f n selected j'
    end
  else fret j.

(** The set method: draw indices until a new one comes. *)
Fixpoint set_sample {A} (fuel : nat) (d : A) (population : list A) (selected : list Z)
    (left : nat) : FM R (list A) :=
  match left with
  | O => fret []
  | Datatypes.S left' =>
      let n := Z.of_nat (length population) in
      let% j := randbelow n in
      let% j := redraw fuel n selected j in
      let% rest := set_sample fuel d population (j :: selected) left' in
      fret (nth (Z.to_nat j) population d :: rest)
  end.

(** [random.sample(population, k)] *)
Definition sample {A} (fuel : nat) (d : A) (population : list A) (k : Z) : FM R (list A) :=
  let n := length population in
  if (k <? 0) || (Z.of_nat n <? k) then
    fraise (ValueError "Sample larger than population or is negative")
  else if (n <=? setsize (Z.to_nat k))%nat then
    pool_sample d n population 0 (Z.to_nat k)
  else set_sample fuel d population [] (Z.to_nat k).

End Rand.

(** ** Reasoning about runs

    [hoare P c Q E]: from a state satisfying [P], a run of [c] that is
    determined ends in a state satisfying [Q a] when it returns [a] and
    [E e] when it raises [e].  This is partial correctness; the
    termination theorems are proved about the runs themselves. *)
Section Hoare.
Context {S : Type}.

Definition hoare {A} (P : S -> Prop) (c : FM S A) (Q : A -> S -> Prop)
    (E : py_exc -> S -> Prop) : Prop :=
  forall s r s', P s -> c s = Some (r, s') ->
  match r with Ok a => Q a s' | Raise e => E e s' end.

Lemma hoare_ret {A} P (a : A) Q E : (forall s, P s -> Q a s) -> hoare P (fret a) Q E.
Proof. intros HQ s r s' HP [= <- <-]. auto. Qed.

Lemma hoare_raise {A} P e (Q : A -> S -> Prop) E :
  (forall s, P s -> E e s) -> hoare P (fraise e) Q E.
Proof. intros HE s r s' HP [= <- <-]. auto. Qed.

Lemma hoare_bind {A B} P (c : FM S A) (k : A -> FM S B) Q1 Q E :
  hoare P c Q1 E -> (forall a, hoare (Q1 a) (k a) Q E) -> hoare P (fbind c k) Q E.
Proof.
  intros Hc Hk s r s' HP. unfold fbind.
  destruct (c s) as [[[a|e] s1]|] eqn:Ec; [|intros [= <- <-]|done].
  - apply (Hk a s1); exact (Hc _ _ _ HP Ec).
  - exact (Hc _ _ _ HP Ec).
Qed.

Lemma hoare_try {A} P (c : FM S A) h Q E1 E :
  hoare P c Q E1 -> (forall e, hoare (E1 e) (h e) Q E) -> hoare P (ftry c h) Q E.
Proof.
  intros Hc Hh s r s' HP. unfold ftry.
  destruct (c s) as [[[a|e] s1]|] eqn:Ec; [intros [= <- <-]| |done].
  - exact (Hc _ _ _ HP Ec).
  - apply (Hh e s1); exact (Hc _ _ _ HP Ec).
Qed.

Lemma hoare_pure_pre {A} (phi : Prop) P (c : FM S A) Q E :
  (phi -> hoare P c Q E) -> hoare (fun s => phi /\ P s) c Q E.
Proof. intros H s r s' [Hphi HP]. exact (H Hphi s r s' HP). Qed.

Lemma hoare_conseq {A} P P' (c : FM S A) Q Q' E E' :
  hoare P c Q E -> (forall s, P' s -> P s) -> (forall a s, Q a s -> Q' a s) ->
  (forall e s, E e s -> E' e s) -> hoare P' c Q' E'.
Proof.
  intros Hc HP HQ HE s [a|e] s' H' Hr; specialize (Hc s _ s' (HP s H') Hr); auto.
Qed.

(** [while True]: [P] is the loop invariant, re-established by each
    [continue]. *)
Lemma hoare_while {A} P (body : FM S (option A)) Q E fuel :
  hoare P body (fun r s => match r with Some a => Q a s | None => P s end) E ->
  hoare P (while_true fuel body) Q E.
Proof.
  intros Hb. induction fuel as [|f IH]; [by intros ???? ?|]. simpl.
  eapply hoare_bind; [exact Hb|]. intros [a|].
  - by apply hoare_ret.
  - exact IH.
Qed.

(** [for x in l]: an invariant indexed by the number of turns done. *)
Lemma hoare_for_each {A} (P : nat -> S -> Prop) (l : list A) body E j :
  (forall i x, hoare (P i) (body x) (fun _ => P (Datatypes.S i)) E) ->
  hoare (P j) (for_each l body) (fun _ => P (j + length l)%nat) E.
Proof.
  intros Hb. revert j. induction l as [|x l IH]; intros j; simpl.
  - apply hoare_ret. by rewrite Nat.add_0_r.
  - eapply hoare_bind; [apply Hb|]. intros u; simpl.
    eapply hoare_conseq; [apply IH|done| |done]. intros ? s. by rewrite Nat.add_succ_r.
Qed.

Lemma hoare_for_range (P : nat -> S -> Prop) k body E :
  (forall i, hoare (P i) body (fun _ => P (Datatypes.S i)) E) ->
  hoare (P 0%nat) (for_range k body) (fun _ => P k) E.
Proof.
  intros Hb. unfold for_range.
  eapply hoare_conseq; [apply (hoare_for_each P _ _ E 0); intros; apply Hb|done| |done].
  intros ? s. by rewrite length_seq.
Qed.

(** A loop whose body always [continue]s, keeping [J], runs out of any
    fuel. *)
Lemma while_true_diverges {A} (J : S -> Prop) (body : FM S (option A)) fuel s :
  (forall s r s', J s -> body s = Some (r, s') -> r = Ok None /\ J s') ->
  J s -> while_true fuel body s = None.
Proof.
  intros Hb. revert s. induction fuel as [|f IH]; intros s Hs; [done|]. simpl. unfold fbind.
  destruct (body s) as [[r s']|] eqn:E; [|done].
  destruct (Hb _ _ _ Hs E) as [-> Hs']. by apply IH.
Qed.

(** More fuel determines at least as much. *)
Lemma while_true_mono {A} (body : FM S (option A)) fuel fuel' s o :
  (fuel <= fuel')%nat -> while_true fuel body s = Some o -> while_true fuel' body s = Some o.
Proof.
  revert fuel' s. induction fuel as [|f IH]; intros [|f'] s Hle; simpl; try done; [lia|].
  unfold fbind. destruct (body s) as [[[[a|]|e] s1]|]; try done.
  apply IH. lia.
Qed.

(** [try: ... except: <value>] never raises. *)
Lemma ftry_never_raises {A} (c : FM S A) (x : A) s e s' :
  ftry c (fun _ => fret x) s <> Some (Raise e, s').
Proof. unfold ftry, fret. by destruct (c s) as [[[a|e'] s1]|]. Qed.

End Hoare.

(** ** Specifications of the random functions *)
Section RandLogic.
Context `{!RandomSource} {S : Type}.
Local Abbreviation R := (rstate S).

(** A predicate that does not look at the number of draws. *)
Definition draw_stable (P : R -> Prop) : Prop :=
  forall s n, P s -> P (mkR (rs_state s) n).

Lemma hoare_on_state {A} P (c : M S A) Q E :
  (forall s, P s -> match c (rs_state s) with
                    | (Ok a, w') => Q a (mkR w' (rs_draws s))
                    | (Raise e, w') => E e (mkR w' (rs_draws s))
                    end) ->
  hoare P (on_state c) Q E.
Proof.
  intros Hc s r s' HP. unfold on_state. specialize (Hc s HP).
  destruct (c (rs_state s)) as [[a|e] w']; by intros [= <- <-].
Qed.

Lemma hoare_draw P E : draw_stable P -> hoare P draw (fun _ => P) E.
Proof. intros HP s r s' Hs [= <- <-]. by apply HP. Qed.

Lemma hoare_randbelow P n E :
  0 < n -> draw_stable P -> hoare P (randbelow n) (fun r s => 0 <= r < n /\ P s) E.
Proof.
  intros Hn HP. unfold randbelow. eapply hoare_bind; [by apply hoare_draw|].
  intros r. apply hoare_ret. intros s Hs. split; [apply Z.mod_pos_bound; lia|done].
Qed.

Lemma hoare_randint P a b E :
  a <= b -> draw_stable P -> hoare P (randint a b) (fun r s => a <= r <= b /\ P s) E.
Proof.
  intros Hab HP. unfold randint. eapply hoare_bind; [apply hoare_randbelow; [lia|done]|].
  intros r. apply hoare_ret. intros s [? ?]. split; [lia|done].
Qed.

Lemma hoare_random P E : draw_stable P -> hoare P random (fun _ => P) E.
Proof.
  intros HP. unfold random. eapply hoare_bind; [by apply hoare_draw|].
  intros r. by apply hoare_ret.
Qed.

Lemma hoare_uniform P a b E : draw_stable P -> hoare P (uniform a b) (fun _ => P) E.
Proof.
  intros HP. unfold uniform. eapply hoare_bind; [by apply hoare_random|].
  intros r. by apply hoare_ret.
Qed.

(** [random()] is in [[0, 1)]. *)
Lemma hoare_random_range P E :
  draw_stable P -> hoare P random (fun r s => (0 <= r < 1)%Q /\ P s) E.
Proof.
  intros HP. unfold random. eapply hoare_bind; [by apply hoare_draw|].
  intros r. apply hoare_ret. intros s Hs. split; [|done].
  pose proof (Z.mod_pos_bound r (2 ^ 53) ltac:(lia)). split.
  - apply Qle_shift_div_l; [reflexivity|]. rewrite Qmult_0_l.
    change 0%Q with (inject_Z 0). rewrite <- Zle_Qle. lia.
  - apply Qlt_shift_div_r; [reflexivity|]. rewrite Qmult_1_l. rewrite <- Zlt_Qlt. lia.
Qed.

(** [uniform(a, b)] is in [[a, b]] when [a <= b]. *)
Lemma hoare_uniform_range P a b E :
  (a <= b)%Q -> draw_stable P ->
  hoare P (uniform a b) (fun x s => (a <= x <= b)%Q /\ P s) E.
Proof.
  intros Hab HP. unfold uniform. eapply hoare_bind; [by apply hoare_random_range|].
  intros r. apply hoare_pure_pre. intros Hr. apply hoare_ret. intros s Hs.
  split; [|done]. split; nra.
Qed.

(** An index drawn below the length of a list points into it. *)
Lemma nth_drawn_in {A} (l : list A) d (j : Z) :
  0 <= j < Z.of_nat (length l) -> nth (Z.to_nat j) l d ∈ l.
Proof. intros Hj. apply list_elem_of_In, nth_In. lia. Qed.

Lemma hoare_choice {A} P (d : A) l E :
  l <> [] -> draw_stable P -> hoare P (choice d l) (fun x s => x ∈ l /\ P s) E.
Proof.
  intros Hl HP. destruct l as [|y l']; [done|]. unfold choice.
  eapply hoare_bind; [apply hoare_randbelow; [simpl; lia|done]|].
  intros j. apply hoare_ret. intros s [Hj ?]. split; [by apply nth_drawn_in|done].
Qed.

(** An element of a list updated at an index is the new value or an
    element of the old list. *)
Lemma elem_of_list_insert_inv {A} (l : list A) i x y :
  y ∈ <[i := x]> l -> y = x \/ y ∈ l.
Proof.
  rewrite list_elem_of_lookup. intros [j Hj].
  apply list_lookup_insert_Some in Hj as [(_ & -> & _) | [_ Hj]]; [by left|].
  right. by eapply list_elem_of_lookup_2.
Qed.

(** An update of a list at [j] is the new value and the list without
    its [j]-th element, in some order. *)
Lemma insert_Permutation {A} (t : list A) j y :
  (j < length t)%nat -> <[j := y]> t ≡ₚ y :: delete j t.
Proof.
  intros Hj. rewrite insert_take_drop by done. rewrite delete_take_drop.
  symmetry. apply Permutation_middle.
Qed.

(** One step of the pool method: drawing position [j] among the [m] first
    elements and moving the [m]-th into its place leaves the other [m - 1]
    in front. *)
Lemma pool_step {A} (l : list A) d m j :
  (j < m)%nat -> (m <= length l)%nat ->
  nth j l d :: take (m - 1) (<[j := nth (m - 1) l d]> l) ≡ₚ take m l.
Proof.
  intros Hj Hm.
  destruct (lookup_lt_is_Some_2 l (m - 1)) as [y Hy]; [lia|].
  destruct (lookup_lt_is_Some_2 l j) as [x Hx]; [lia|].
  rewrite (nth_lookup_Some _ _ _ _ Hy), (nth_lookup_Some _ _ _ _ Hx).
  replace (take m l) with (take (Datatypes.S (m - 1)) l) by (f_equal; lia).
  rewrite (take_S_r _ _ _ Hy).
  destruct (decide (j = m - 1)%nat) as [->|Hne].
  - rewrite take_insert_ge by lia. simplify_eq. apply Permutation_cons_append.
  - rewrite take_insert_lt by lia.
    assert (Ht : take (m - 1) l !! j = Some x) by (rewrite lookup_take_lt; [done|lia]).
    rewrite insert_Permutation by (rewrite length_take; lia).
    rewrite (delete_Permutation _ _ _ Ht) at 2.
    rewrite perm_swap, <- Permutation_cons_append. done.
Qed.

(** The pool method draws [left] elements without replacement from the
    [n - i] first elements of the pool. *)
Lemma hoare_pool_sample {A} P (d : A) n pool i left E :
  draw_stable P -> length pool = n -> (i + left <= n)%nat ->
  hoare P (pool_sample d n pool i left)
    (fun ps s => length ps = left /\ ps ⊆+ take (n - i) pool /\ P s) E.
Proof.
  intros HP. revert pool i. induction left as [|left IH]; intros pool i Hlen Hi; simpl.
  - apply hoare_ret. intros s Hs. split_and!; [done|apply submseteq_nil_l|done].
  - eapply hoare_bind; [apply hoare_randbelow; [lia|done]|]. intros j.
    apply hoare_pure_pre. intros Hj.
    eapply hoare_bind; [apply (IH _ (Datatypes.S i)); [by rewrite length_insert|lia]|]. intros rest.
    apply hoare_ret. intros s (Hl & Hsub & HPs). simpl. split_and!; [lia| |done].
    rewrite <- (pool_step pool d (n - i) (Z.to_nat j)) by lia.
    apply submseteq_skip.
    by replace (n - Datatypes.S i)%nat with (n - i - 1)%nat in Hsub by lia.
Qed.

(** [while j in selected] ends on an index in range that is not taken. *)
Lemma hoare_redraw P fuel n selected j E :
  draw_stable P -> 0 <= j < n ->
  hoare P (redraw fuel n selected j)
    (fun j' s => (0 <= j' < n /\ j' ∉ selected) /\ P s) E.
Proof.
  intros HP. revert j. induction fuel as [|f IH]; intros j Hj; simpl;
    (case_bool_decide; [|by apply hoare_ret]); [by intros ?????|].
  eapply hoare_bind; [apply hoare_randbelow; [lia|done]|]. intros j'.
  apply hoare_pure_pre. intros Hj'. by apply IH.
Qed.

(** Reading a list at every index below its length gives it back. *)
Lemma fmap_nth_seq {A} (l : list A) d : (fun k => nth k l d) <$> seq 0 (length l) = l.
Proof.
  apply list_eq. intros i. rewrite list_lookup_fmap.
  destruct (decide (i < length l)%nat).
  - rewrite lookup_seq_lt by done. simpl.
    destruct (nth_lookup_or_length l i d) as [->|]; [done|lia].
  - rewrite lookup_seq_ge, lookup_ge_None_2 by lia. done.
Qed.

(** Distinct indices in range pick a sub-multiset of a list. *)
Lemma nth_indices_submseteq {A} (l : list A) d (js : list Z) :
  NoDup js -> Forall (fun j => 0 <= j < Z.of_nat (length l)) js ->
  (fun j => nth (Z.to_nat j) l d) <$> js ⊆+ l.
Proof.
  intros Hnd Hr. rewrite Forall_forall in Hr.
  change (fun j => nth (Z.to_nat j) l d) with ((fun k => nth k l d) ∘ Z.to_nat).
  rewrite list_fmap_compose.
  transitivity ((fun k => nth k l d) <$> seq 0 (length l)); [|by rewrite fmap_nth_seq].
  apply fmap_submseteq, NoDup_submseteq.
  - apply NoDup_fmap_2_strong; [|done].
    intros x y Hx Hy. pose proof (Hr x Hx). pose proof (Hr y Hy). lia.
  - intros k (j & -> & Hj)%list_elem_of_fmap. apply elem_of_seq.
    pose proof (Hr j Hj). lia.
Qed.

(** The set method draws [left] distinct indices of the population that
    are not in [selected]. *)
Lemma hoare_set_sample {A} P fuel (d : A) population selected left E :
  draw_stable P -> population <> [] -> NoDup selected ->
  hoare P (set_sample fuel d population selected left)
    (fun ps s => (exists js, ps = (fun j => nth (Z.to_nat j) population d) <$> js /\
                   length js = left /\ NoDup (js ++ selected) /\
                   Forall (fun j => 0 <= j < Z.of_nat (length population)) js) /\ P s) E.
Proof.
  intros HP Hne.
  assert (0 < Z.of_nat (length population)) by (destruct population; simpl; [done|lia]).
  revert selected. induction left as [|left IH]; intros selected Hsel; simpl.
  - apply hoare_ret. intros s Hs. split; [|done]. exists [].
    split_and!; [done|done|done|constructor].
  - eapply hoare_bind; [by apply hoare_randbelow|]. intros j.
    apply hoare_pure_pre. intros Hj.
    eapply hoare_bind; [by apply hoare_redraw|]. intros j'.
    apply hoare_pure_pre. intros [Hj' Hnin].
    eapply hoare_bind; [apply IH; by constructor|]. intros rest.
    apply hoare_ret. intros s [(js & -> & Hlen & Hnd & Hr) Hs]. split; [|done].
    exists (j' :: js). split_and!; [done|simpl; lia| |by constructor].
    simpl. rewrite Permutation_middle. done.
Qed.

(** [random.sample(population, k)] draws [k] elements without
    replacement, or raises. *)
Lemma hoare_sample {A} P fuel (d : A) population k :
  draw_stable P ->
  hoare P (sample fuel d population k)
    (fun ps s => length ps = Z.to_nat k /\ ps ⊆+ population /\ P s) (fun _ => P).
Proof.
  intros HP. unfold sample.
  destruct ((k <? 0) || (Z.of_nat (length population) <? k)) eqn:Hk;
    [by apply hoare_raise|].
  apply orb_false_iff in Hk as [Hk1 Hk2]. rewrite Z.ltb_ge in Hk1, Hk2.
  cbv zeta. destruct (Nat.leb _ _) eqn:Hs.
  - eapply hoare_conseq;
      [apply (hoare_pool_sample P _ _ _ _ _ (fun _ => P)); [done|done|lia]|done| |done].
    intros ps s (? & Hsub & ?). rewrite Nat.sub_0_r, take_ge in Hsub by done. done.
  - eapply hoare_conseq;
      [apply (hoare_set_sample P _ _ _ _ _ (fun _ => P)); [done|by intros ->|constructor]
      |done| |done].
    intros ps s [(js & -> & Hlen & Hnd & Hr) ?]. rewrite app_nil_r in Hnd.
    split_and!; [rewrite length_fmap; lia|by apply nth_indices_submseteq|done].
Qed.

(** ** Invariants of the world

    [finv J c]: every determined run of [c] from a state whose world
    satisfies [J] ends, on both outcomes, in a world satisfying [J]. *)
Definition on_world (J : S -> Prop) : R -> Prop := fun s => J (rs_state s).

Definition finv {A} (J : S -> Prop) (c : FM R A) : Prop :=
  hoare (on_world J) c (fun _ => on_world J) (fun _ => on_world J).

Lemma on_world_stable J : draw_stable (on_world J).
Proof. by intros s n. Qed.

Lemma finv_ret {A} J (a : A) : finv J (fret a).
Proof. by apply hoare_ret. Qed.

Lemma finv_raise {A} J e : finv J (@fraise R A e).
Proof. by apply hoare_raise. Qed.

Lemma finv_bind {A B} J (c : FM R A) (k : A -> FM R B) :
  finv J c -> (forall a, finv J (k a)) -> finv J (fbind c k).
Proof. intros Hc Hk. by eapply hoare_bind. Qed.

Lemma finv_try {A} J (c : FM R A) h :
  finv J c -> (forall e, finv J (h e)) -> finv J (ftry c h).
Proof. intros Hc Hh. by eapply hoare_try. Qed.

Lemma finv_while {A} J fuel (body : FM R (option A)) :
  finv J body -> finv J (while_true fuel body).
Proof.
  intros Hb. apply hoare_while. eapply hoare_conseq; [exact Hb|done| |done].
  by intros [a|] s.
Qed.

Lemma finv_for_each {A} J (l : list A) body :
  (forall x, finv J (body x)) -> finv J (for_each l body).
Proof.
  intros Hb. eapply hoare_conseq; [apply (hoare_for_each (fun _ => on_world J) _ _ _ 0)| | |];
    [intros; apply Hb|done|done|done].
Qed.

Lemma finv_for_range J k body : finv J body -> finv J (for_range k body).
Proof. intros Hb. apply finv_for_each. by intros _. Qed.

Lemma finv_on_state {A} J (c : M S A) : preserves J c -> finv J (on_state c).
Proof.
  intros Hc. apply hoare_on_state. intros s Hs. specialize (Hc _ Hs).
  by destruct (c (rs_state s)) as [[a|e] w'].
Qed.

Lemma finv_draw J : finv J draw.
Proof. apply hoare_draw, on_world_stable. Qed.

Lemma finv_random J : finv J random.
Proof. apply hoare_random, on_world_stable. Qed.

Lemma finv_randbelow J n : finv J (randbelow n).
Proof. unfold randbelow. apply finv_bind; [apply hoare_draw, on_world_stable|]. intros. apply finv_ret. Qed.

Lemma finv_randint J a b : finv J (randint a b).
Proof. unfold randint. apply finv_bind; [apply finv_randbelow|]. intros. apply finv_ret. Qed.

Lemma finv_uniform J a b : finv J (uniform a b).
Proof. apply hoare_uniform, on_world_stable. Qed.

Lemma finv_choice {A} J (d : A) l : finv J (choice d l).
Proof.
  unfold choice. destruct l; [apply finv_raise|].
  apply finv_bind; [apply finv_randbelow|]. intros. apply finv_ret.
Qed.

Lemma finv_sample {A} J fuel (d : A) population k : finv J (sample fuel d population k).
Proof.
  eapply hoare_conseq; [apply hoare_sample, on_world_stable|done| |done].
  by intros ? ? (_ & _ & ?).
Qed.

End RandLogic.

Create HintDb fuel.
#[export] Hint Resolve finv_ret finv_raise finv_draw finv_random finv_randbelow finv_randint finv_uniform
  finv_choice finv_sample : fuel.

(** [finv_tac] proves an [finv] goal by the structure of the code, read
    off the syntax of the computation; the world operations are left to
    their [preserves] lemmas in [ecom], the named loops to [fuel]. *)
Ltac finv_tac :=
  repeat match goal with
  | |- hoare (on_world ?J) ?c (fun _ => on_world ?J) (fun _ => on_world ?J) =>
      change (finv J c)
  | |- finv _ (fbind _ _) => apply finv_bind; [| intros ?]
  | |- finv _ (ftry _ _) => apply finv_try; [| intros ?]
  | |- finv _ (while_true _ _) => apply finv_while
  | |- finv _ (for_range _ _) => apply finv_for_range
  | |- finv _ (for_each _ _) => apply finv_for_each; intros ?
  | |- finv _ (on_state _) => apply finv_on_state
  | |- finv _ _ => first [ solve [eauto with fuel] | progress case_match ]
  | |- preserves _ _ => solve [eauto with ecom]
  end.

(** ** Fuel is only a bound *)
Section FuelMono.
Context {S : Type}.

(** A computation indexed by the fuel of its loops is monotone when a
    run determined with some fuel is the same with more: fuel only
    bounds the loops and never changes what a run does. *)
Definition fuel_mono {A} (c : nat -> FM S A) : Prop :=
  forall f f' s o, (f <= f')%nat -> c f s = Some o -> c f' s = Some o.

Lemma fuel_mono_const {A} (c : FM S A) : fuel_mono (fun _ => c).
Proof. by intros f f' s o _. Qed.

Lemma fuel_mono_bind {A B} (c : nat -> FM S A) (k : nat -> A -> FM S B) :
  fuel_mono c -> (forall a, fuel_mono (fun f => k f a)) ->
  fuel_mono (fun f => fbind (c f) (k f)).
Proof.
  intros Hc Hk f f' s o Hle. unfold fbind.
  destruct (c f s) as [[[a|e] s1]|] eqn:E; [| |done]; rewrite (Hc f f' s _ Hle E); [|done].
  exact (Hk a f f' s1 o Hle).
Qed.

Lemma fuel_mono_try {A} (c : nat -> FM S A) (h : nat -> py_exc -> FM S A) :
  fuel_mono c -> (forall e, fuel_mono (fun f => h f e)) ->
  fuel_mono (fun f => ftry (c f) (h f)).
Proof.
  intros Hc Hh f f' s o Hle. unfold ftry.
  destruct (c f s) as [[[a|e] s1]|] eqn:E; [| |done]; rewrite (Hc f f' s _ Hle E); [done|].
  exact (Hh e f f' s1 o Hle).
Qed.

(** [while True] with [n] turns and a body run with fuel [m]. *)
Lemma while_true_mono2 {A} (body : nat -> FM S (option A)) :
  fuel_mono body ->
  forall n n' m m' s o, (n <= n')%nat -> (m <= m')%nat ->
  while_true n (body m) s = Some o -> while_true n' (body m') s = Some o.
Proof.
  intros Hb n. induction n as [|n IH]; intros [|n'] m m' s o Hn Hm; simpl; try done; [lia|].
  unfold fbind. destruct (body m s) as [[[[a|]|e] s1]|] eqn:E; try done;
    rewrite (Hb m m' s _ Hm E); [done| |done].
  apply IH; lia.
Qed.

Lemma fuel_mono_while {A} (body : nat -> FM S (option A)) :
  fuel_mono body -> fuel_mono (fun f => while_true f (body f)).
Proof. intros Hb f f' s o Hle. by apply while_true_mono2. Qed.

Lemma fuel_mono_for_each {A} (l : list A) (body : nat -> A -> FM S unit) :
  (forall x, fuel_mono (fun f => body f x)) -> fuel_mono (fun f => for_each l (body f)).
Proof.
  intros Hb. induction l as [|x l IH]; simpl; [apply fuel_mono_const|].
  apply fuel_mono_bind; [apply Hb|]. intros _. exact IH.
Qed.

Lemma fuel_mono_for_range k (body : nat -> FM S unit) :
  fuel_mono body -> fuel_mono (fun f => for_range k (body f)).
Proof. intros Hb. unfold for_range. by apply fuel_mono_for_each. Qed.

End FuelMono.

Section RandMono.
Context `{!RandomSource} {S : Type}.

Lemma redraw_mono n selected j : fuel_mono (fun f => @redraw _ S f n selected j).
Proof.
  intros f. revert j. induction f as [|f IH]; intros j [|f'] s o Hle; simpl;
    (case_bool_decide; [|done]); try done; [lia|].
  unfold fbind. destruct (randbelow n s) as [[[j'|e] s1]|]; try done.
  apply IH. lia.
Qed.

Lemma set_sample_mono {A} (d : A) population left : forall selected,
  fuel_mono (fun f => @set_sample _ S A f d population selected left).
Proof.
  induction left as [|left IH]; intros selected; simpl; [apply fuel_mono_const|].
  apply fuel_mono_bind; [apply fuel_mono_const|]. intros j.
  apply fuel_mono_bind; [apply redraw_mono|]. intros j'.
  apply fuel_mono_bind; [apply IH|]. intros rest. apply fuel_mono_const.
Qed.

Lemma sample_mono {A} (d : A) population k :
  fuel_mono (fun f => @sample _ S A f d population k).
Proof.
  unfold sample. destruct (_ || _); [apply fuel_mono_const|].
  destruct (Nat.leb _ _); [apply fuel_mono_const|apply set_sample_mono].
Qed.

End RandMono.

(** [mono_tac] proves [fuel_mono] by the syntax of the computation at a
    sample fuel. *)
Ltac mono_tac :=
  repeat lazymatch goal with
  | |- fuel_mono ?F =>
      let t := eval cbv beta in (F 0%nat) in
      lazymatch t with
      | fbind _ _ => apply fuel_mono_bind; [| intros ?]
      | ftry _ _ => apply fuel_mono_try; [| intros ?]
      | while_true _ _ => apply fuel_mono_while
      | for_range _ _ => apply fuel_mono_for_range
      | for_each _ _ => apply fuel_mono_for_each; intros ?
      | sample _ _ _ _ => apply sample_mono
      | _ => first [ apply fuel_mono_const | progress case_match ]
      end
  end.

