(* ===== verification/Populate.v ===== *)
(** * Populate: the seeding script [populate_synthetic_db.py].

    The script makes a [DB] (which creates the Qdrant collection), then
    runs five generators in order:
    - [generate_users]: 100 users, each in a [while True] loop that draws a
      first and a last name (10 of each), so the email is one of 100
      combinations.  The loop retries on any exception, a [UNIQUE]
      violation included;
    - [generate_categories]: the 10 categories;
    - [generate_products]: the 50 products, under the category ids 1 to 10;
    - [generate_search_histories]: 500 rounds.  Each picks a user id that
      is not excluded ([while True] loop), then logs 1 to 3 searches drawn
      from the user's interests and from a fixed list;
    - [generate_recommendations]: 300 rounds.  Each searches the products
      for a random user's profile, samples 1 to 3 of them, and records for
      each a recommendation and a feedback rated 3 to 5.
    Each generator is a computation of the fuel monad of [Random] over the
    world of [Store] and the random source.  Every [while True] loop has
    [fuel] iterations at most. *)

From S2P Require Import Prelude PyText Tokenizer VectorIndex Store Search Recommender Api Random.

Local Open Scope Z_scope.

Module Populate.
Import Py.

(** ** The data of the script *)
Definition first_names : list string :=
  ["John"; "Jane"; "Talia"; "Emily"; "Michael"; "Sarah"; "Chris"; "Jessica"; "David";
   "Laura"].
Definition last_names : list string :=
  ["Doe"; "Smith"; "Johnson"; "Ling"; "Brown"; "Lee"; "Davis"; "Taylor"; "Rai"; "Williams"].
Definition interests : list string :=
  ["gym equipment"; "musical instruments"; "tech gadgets"; "books"; "movies"; "cooking";
   "traveling"; "gaming"; "sports"; "photography"].

(** [f"{first_name.lower()}.{last_name.lower()}@example.com"] *)
Definition email_of (first_name last_name : string) : string :=
  (lower first_name ++ "." ++ lower last_name ++ "@example.com")%string.

(** [0.2] as a double: [3602879701896397 / 2 ^ 54]. *)
Definition point_two : Q := 3602879701896397 # 18014398509481984.

Definition categories : list (string * string) :=
  [("Tech", "All about the latest gadgets, electronics, and technology.");
   ("Fitness", "Equipment and products for a healthy and active lifestyle.");
   ("Books", "A collection of fiction, non-fiction, and educational books.");
   ("Music", "Instruments, accessories, and everything musical.");
   ("Fashion", "Clothing, accessories, and the latest fashion trends.");
   ("Gaming", "Video games, consoles, and accessories for gamers.");
   ("Home Decor", "Beautiful items to enhance your living space.");
   ("Travel", "Luggage, maps, and essentials for the travel enthusiast.");
   ("Sports", "Gear and equipment for various sports activities.");
   ("Cooking", "Tools, utensils, and appliances for the kitchen.")]%string.

(** The products dict, in its insertion order: name, description, price,
    stock under each category id. *)
Definition products : list (Z * list (string * string * Q * Z)) :=
  [(1, [("Smartphone", "Latest model with high-end specs", 1000%Q, 50);
        ("Laptop", "Gaming laptop with powerful GPU", 1500%Q, 30);
        ("Smartwatch", "Track your fitness and health", 250%Q, 100);
        ("Wireless Earbuds", "Bluetooth earbuds with noise cancellation", 150%Q, 200);
        ("Tablet", "Portable tablet for reading and work", 400%Q, 80)]);
   (2, [("Dumbbells", "Adjustable dumbbells for home gym", 150%Q, 40);
        ("Treadmill", "Foldable treadmill with multiple workout modes", 800%Q, 10);
        ("Yoga Mat", "Eco-friendly yoga mat for comfort", 25%Q, 120);
        ("Resistance Bands", "Set of resistance bands for strength training", 35%Q, 60);
        ("Protein Powder", "Whey protein for muscle gain", 50%Q, 200)]);
   (3, [("Novel Book", "Fiction novel by a best-selling author", 15%Q, 300);
        ("Textbook", "Comprehensive guide on computer science", 60%Q, 100);
        ("Cookbook", "Healthy recipes for daily meals", 25%Q, 150);
        ("Biography", "Autobiography of a famous celebrity", 20%Q, 200);
        ("Children's Book", "Fun and educational book for kids", 10%Q, 180)]);
   (4, [("Guitar", "Electric guitar with amp for beginners", 300%Q, 20);
        ("Piano", "Grand piano for home use", 5000%Q, 5);
        ("Drums", "Complete drum set with cymbals", 800%Q, 8);
        ("Violin", "Professional violin for music students", 400%Q, 15);
        ("Headphones", "Noise-canceling headphones for musicians", 200%Q, 50)]);
   (5, [("Jacket", "Stylish leather jacket for winter", 120%Q, 70);
        ("Sneakers", "Comfortable sneakers for everyday wear", 80%Q, 150);
        ("Watch", "Luxury wristwatch with a stainless steel strap", 200%Q, 50);
        ("Handbag", "Designer handbag for women", 150%Q, 40);
        ("Sunglasses", "Polarized sunglasses for sun protection", 60%Q, 200)]);
   (6, [("PlayStation 5", "Next-gen gaming console with high-speed SSD", 500%Q, 10);
        ("Xbox Series X", "Powerful gaming console for smooth gameplay", 500%Q, 15);
        ("Gaming Chair", "Ergonomic chair for long gaming sessions", 200%Q, 40);
        ("VR Headset", "Virtual reality headset for immersive gaming", 300%Q, 25);
        ("Game Controller", "Wireless controller for gaming consoles", 40%Q, 100)]);
   (7, [("Sofa", "Luxury leather sofa with built-in USB ports", 1200%Q, 15);
        ("Dining Table", "Wooden dining table with six chairs", 600%Q, 25);
        ("Lamp", "Modern table lamp with adjustable brightness", 45%Q, 150);
        ("Coffee Table", "Glass top coffee table for living room", 250%Q, 70);
        ("Wall Art", "Framed abstract art for home decor", 80%Q, 200)]);
   (8, [("Backpack", "Durable backpack for hiking and traveling", 50%Q, 100);
        ("Luggage Set", "3-piece luggage set with TSA lock", 150%Q, 30);
        ("Travel Pillow", "Comfortable neck pillow for long flights", 20%Q, 150);
        ("Camera", "DSLR camera with zoom lens", 500%Q, 10);
        ("Travel Adapter", "Universal plug adapter for global travel", 30%Q, 200)]);
   (9, [("Football", "Official size football for training", 25%Q, 80);
        ("Basketball", "High-quality basketball for outdoor play", 30%Q, 100);
        ("Tennis Racket", "Professional racket for serious players", 100%Q, 60);
        ("Baseball Glove", "Soft leather baseball glove for youth", 50%Q, 120);
        ("Soccer Cleats", "Premium soccer cleats for performance", 80%Q, 70)]);
   (10, [("Blender", "High-speed blender for smoothies", 80%Q, 200);
         ("Coffee Maker", "Automatic coffee maker with programmable features", 100%Q, 150);
         ("Toaster", "2-slice toaster with adjustable heat settings", 25%Q, 100);
         ("Microwave", "Compact microwave for quick meals", 75%Q, 80);
         ("Air Fryer", "Healthy air fryer for crisp cooking", 120%Q, 50)])]%string.

Definition random_searches : list string :=
  ["Laptop"; "Phone Case"; "Smart Watch"; "Headphones"; "Keyboard"; "Wireless Earbuds";
   "Yoga Mat"; "Protein Powder"; "Dumbbells"; "Treadmill"; "Coffee Maker"; "Microwave";
   "Guitar"; "Piano"; "Basketball"; "Football"; "Running Shoes"; "Sunglasses"; "Camera";
   "Suitcase"; "Travel Adapter"; "Air Fryer"; "Vegan Recipes"; "Cooking Tools";
   "Home Decor"]%string.

(** The users left without search history. *)
Definition exclude_user_ids : list Z := [10; 20; 30; 40; 50; 60; 70; 80; 90; 99].

(** The searches suggested by the interests of a profile: each
    [if "<word>" in interests: user_searches.extend([...])]. *)
Definition interest_searches (interests : string) : list string :=
  ((if contains "gym" interests then
      ["Dumbbells"; "Resistance Bands"; "Yoga Mat"; "Protein Powder"; "Treadmill"] else []) ++
   (if contains "musical" interests then
      ["Guitar"; "Piano"; "Drums"; "Headphones"; "Violin"] else []) ++
   (if contains "tech" interests then
      ["Smartphone"; "Laptop"; "Wireless Earbuds"; "Keyboard"; "Tablet"; "Smart Watch"]
    else []) ++
   (if contains "books" interests then
      ["Fiction"; "Non-fiction"; "Mystery"; "Biography"; "Cookbook"; "Children's Book"]
    else []) ++
   (if contains "movies" interests then
      ["Action Movies"; "Comedy Movies"; "Drama Movies"; "Horror Movies"; "Documentary"]
    else []) ++
   (if contains "cooking" interests then
      ["Cookbook"; "Kitchen Appliances"; "Pots and Pans"; "Spices"; "Cooking Utensils"]
    else []) ++
   (if contains "traveling" interests then
      ["Suitcase"; "Travel Adapter"; "Camera"; "Backpack"; "Luggage"; "Travel Pillow"]
    else []) ++
   (if contains "gaming" interests then
      ["Video Games"; "Gaming Console"; "Gaming Mouse"; "Gaming Headset"; "PC Gaming"]
    else []) ++
   (if contains "sports" interests then
      ["Football"; "Basketball"; "Running Shoes"; "Soccer Ball"; "Tennis Racket"] else []) ++
   (if contains "photography" interests then
      ["Camera"; "Lens"; "Tripod"; "Drone"; "Photo Editing Software"] else [])).

(** A placeholder row for [nth]; never read at an index in range. *)
Definition no_product : Product.t := Product.mk 0 0 "" None 0 0 0 0.

Section Script.
Context {I : Type} `{!VectorIndex I} `{!TextEmbedder} `{!RandomSource}.
Local Abbreviation P := (rstate (world I)).

(** [db = DB()]: the Qdrant client creates the product collection. *)
Definition make_db : FM P unit :=
  on_state (qdrant_call (Qdrant.init QDRANT_PRODUCT_COLLECTION_NAME)).

(** One pass of the body of the [while True] loop of [generate_users]:
    [Some tt] on [break], [None] when the bare [except] continues. *)
Definition user_attempt : FM P (option unit) :=
  ftry (let% first_name := choice EmptyString first_names in
        let% last_name := choice EmptyString last_names in
        let email := email_of first_name last_name in
        let% r := random in
        let% description :=
          if Qle_bool point_two r then
            let% a := choice EmptyString interests in
            let% b := choice EmptyString interests in
            fret ("I love " ++ a ++ " and " ++ b ++ ".")%string
          else fret EmptyString in
        let% _ := on_state (record_user email (Some description)) in
        fret (Some tt))
       (fun _ => fret None).

(** [generate_users] *)
Definition generate_users (fuel : nat) : FM P unit :=
  for_range 100 (while_true fuel user_attempt).

(** [generate_categories] *)
Definition generate_categories : FM P unit :=
  for_each categories (fun '(name, description) =>
    on_state (record_category name (Some description))).

(** [generate_products] *)
Definition generate_products : FM P unit :=
  for_each products (fun '(category_id, products_list) =>
    for_each products_list (fun '(name, description, price, stock) =>
      on_state (record_product category_id name (Some description) price stock))).

(** [db.get_data(table='User', id=user_id)['profile_description']], the
    expression [LLM] also reads. *)
Definition profile_of (user_id : Z) : FM P (option string) :=
  on_state (LLM.get_profile user_id).

(** The [while True] loop drawing a user id that is not excluded. *)
Definition pick_user (fuel : nat) : FM P Z :=
  while_true fuel (let% user_id := randint 1 100 in
                   fret (if bool_decide (user_id ∈ exclude_user_ids) then None
                         else Some user_id)).

(** One round of [generate_search_histories]. *)
Definition search_round (fuel : nat) : FM P unit :=
  let% user_id := pick_user fuel in
  let% interests := profile_of user_id in
  match interests with
  | None => fraise (TypeErrorNone "argument of type 'NoneType' is not iterable")
  | Some interests =>
      let% a := choice EmptyString random_searches in
      let% b := choice EmptyString random_searches in
      let% c := choice EmptyString random_searches in
      let user_searches := interest_searches interests ++ [a; b; c] in
      let% k := randint 1 3 in
      let% user_searches := sample fuel EmptyString user_searches k in
      for_each user_searches (fun search_query =>
        let% _ := on_state (record_search_history (PyInt user_id) (Some search_query)) in
        fret tt)
  end.

(** [generate_search_histories] *)
Definition generate_search_histories (fuel : nat) : FM P unit :=
  for_range 500 (search_round fuel).

(** The recommendation and the feedback recorded for one sampled product. *)
Definition recommend_one (user_id : Z) (product : Product.t) : FM P unit :=
  let% score := uniform (1 # 2) 1 in
  let% recommendation_id :=
    on_state (record_recommendation user_id (Product.product_id product) score) in
  let% rating := randint 3 5 in
  let% _ := on_state (record_recommendation_feedback recommendation_id user_id rating) in
  fret tt.

(** One round of [generate_recommendations]: when [random.sample] fails,
    the [except] skips the round on an empty result and otherwise keeps
    all the products found. *)
Definition recommendation_round (fuel : nat) : FM P unit :=
  let% user_id := randint 1 100 in
  let% interests := profile_of user_id in
  let% found := on_state (Search.search_product None interests None None None true
                                                (3 # 10)) in
  let% chosen := ftry (let% k := randint 1 3 in
                       let% ps := sample fuel no_product found k in
                       fret (Some ps))
                      (fun _ => fret (if (length found =? 0)%nat then None else Some found)) in
  match chosen with
  | None => fret tt
  | Some ps => for_each ps (recommend_one user_id)
  end.

(** [generate_recommendations] *)
Definition generate_recommendations (fuel : nat) : FM P unit :=
  for_range 300 (recommendation_round fuel).

(** The script: [DB()], then the five generators. *)
Definition populate (fuel : nat) : FM P unit :=
  let% _ := make_db in
  let% _ := generate_users fuel in
  let% _ := generate_categories in
  let% _ := generate_products in
  let% _ := generate_search_histories fuel in
  generate_recommendations fuel.

End Script.

(** ** [generate_users] *)
Section Users.
Context {I : Type} `{!VectorIndex I} `{!TextEmbedder} `{!RandomSource}.
Local Abbreviation W := (world I).
Local Abbreviation P := (rstate (world I)).

(** The 100 emails [generate_users] can make. *)
Definition combos : list string :=
  map (fun '(f, l) => email_of f l) (list_prod first_names last_names).

Definition emails (w : W) : list string := map User.email (users (sql w)).

(** How many of the 100 emails are taken. *)
Definition count_used (E : list string) : nat := length (filter (fun e => e ∈ E) combos).
Definition used (w : W) : nat := count_used (emails w).

Lemma combos_NoDup : NoDup combos.
Proof. refine (bool_decide_unpack _ _). vm_compute. reflexivity. Qed.

Lemma length_combos : length combos = 100%nat.
Proof. reflexivity. Qed.

Lemma email_of_combos f l : f ∈ first_names -> l ∈ last_names -> email_of f l ∈ combos.
Proof.
  rewrite !list_elem_of_In. intros Hf Hl.
  unfold combos. apply in_map_iff. exists (f, l). split; [done|]. by apply in_prod.
Qed.

Lemma count_used_le E : (count_used E <= 100)%nat.
Proof. rewrite <- length_combos. apply length_filter. Qed.

Lemma count_used_pos E e : e ∈ combos -> e ∈ E -> (0 < count_used E)%nat.
Proof.
  intros Hc He. unfold count_used.
  destruct (filter _ _) eqn:Hf; [|simpl; lia].
  exfalso. by apply (filter_nil_not_elem_of _ _ e Hf).
Qed.

(** All 100 emails are taken once 100 of them are. *)
Lemma count_used_full E e : count_used E = 100%nat -> e ∈ combos -> e ∈ E.
Proof.
  intros Hfull Hc. destruct (decide (e ∈ E)) as [|Hn]; [done|].
  pose proof (length_filter_lt (fun e => e ∈ E) combos e Hc Hn).
  unfold count_used in Hfull. rewrite length_combos in *. lia.
Qed.

Lemma filter_snoc_absent (L E : list string) e :
  e ∉ L -> filter (fun x => x ∈ E ++ [e]) L = filter (fun x => x ∈ E) L.
Proof.
  induction L as [|x L IH]; intros He; [done|]. rewrite !filter_cons.
  rewrite IH by set_solver. repeat case_decide; set_solver.
Qed.

(** A new email of the list adds one to the count. *)
Lemma count_used_snoc E e : e ∈ combos -> e ∉ E -> count_used (E ++ [e]) = S (count_used E).
Proof.
  unfold count_used. generalize combos_NoDup. generalize combos as L.
  induction 1 as [|x L Hx HL IH]; intros He HE; [set_solver|].
  rewrite !filter_cons. apply elem_of_cons in He as [-> | He].
  - rewrite filter_snoc_absent by done. repeat case_decide; simpl; try done; set_solver.
  - repeat case_decide; simpl; rewrite IH by done; try done; set_solver.
Qed.

Lemma record_user_used email pd (w : W) :
  email ∈ combos ->
  match record_user email pd w with
  | (Ok _, w') => used w' = S (used w)
  | (Raise _, w') => used w' = used w
  end.
Proof.
  intros Hc. unfold record_user, used, emails. run_m. case_bool_decide as Hin; [done|].
  unfold modify_sql. run_m. rewrite map_app. by apply count_used_snoc.
Qed.

(** Each pass of the loop either adds one of the 100 emails or changes
    no user; it never raises. *)
Lemma user_attempt_used k :
  hoare (fun s : P => used (rs_state s) = k) user_attempt
    (fun r s => used (rs_state s) = match r with Some _ => S k | None => k end)
    (fun _ _ => False).
Proof.
  unfold user_attempt.
  eapply hoare_try with (E1 := fun _ s => used (rs_state s) = k); [|intros; by apply hoare_ret].
  eapply hoare_bind; [apply hoare_choice; [done|by intros ??]|]. intros f.
  apply hoare_pure_pre. intros Hf.
  eapply hoare_bind; [apply hoare_choice; [done|by intros ??]|]. intros l.
  apply hoare_pure_pre. intros Hl.
  eapply hoare_bind; [apply hoare_random; by intros ??|]. intros r.
  eapply hoare_bind with (Q1 := fun _ s => used (rs_state s) = k).
  { destruct (Qle_bool _ _); [|by apply hoare_ret].
    eapply hoare_bind; [apply hoare_choice; [done|by intros ??]|]. intros a.
    apply hoare_pure_pre. intros _.
    eapply hoare_bind; [apply hoare_choice; [done|by intros ??]|]. intros b.
    apply hoare_pure_pre. intros _. by apply hoare_ret. }
  intros description.
  eapply hoare_bind with (Q1 := fun _ s => used (rs_state s) = S k).
  - apply hoare_on_state. intros s Hk.
    pose proof (record_user_used (email_of f l) (Some description) (rs_state s)
                  (email_of_combos f l Hf Hl)) as Hu.
    destruct (record_user _ _ _) as [[] ?]; simpl; lia.
  - intros _. by apply hoare_ret.
Qed.

Lemma generate_users_used k fuel :
  hoare (fun s : P => used (rs_state s) = k) (generate_users fuel)
    (fun _ s => used (rs_state s) = (k + 100)%nat) (fun _ _ => False).
Proof.
  unfold generate_users.
  eapply hoare_conseq;
    [apply (hoare_for_range (fun i s => used (rs_state s) = (k + i)%nat) _ _ (fun _ _ => False))
    | | |done].
  - intros i. apply hoare_while.
    eapply hoare_conseq; [apply (user_attempt_used (k + i))|done| |done].
    intros [[]|] s ->; lia.
  - intros s Hs. cbv beta in *. lia.
  - intros ? s Hs. cbv beta in *. lia.
Qed.

(** When one of the 100 emails is already taken, the loops of
    [generate_users] can make at most 99 of the 100 users, and the last
    [while True] retries forever. *)
Lemma generate_users_stuck fuel (s : P) f l :
  f ∈ first_names -> l ∈ last_names -> email_of f l ∈ emails (rs_state s) ->
  generate_users fuel s = None.
Proof.
  intros Hf Hl Hin. pose proof (count_used_pos _ _ (email_of_combos f l Hf Hl) Hin).
  destruct (generate_users fuel s) as [[[u|e] s']|] eqn:E; [exfalso|exfalso|done].
  - pose proof (generate_users_used _ fuel s _ s' eq_refl E) as Hu.
    pose proof (count_used_le (emails (rs_state s'))). unfold used in *. simpl in Hu. lia.
  - exact (generate_users_used _ fuel s _ s' eq_refl E).
Qed.

(** C25: a run of [generate_users] that ends has found all 100 emails
    free at its start and has taken every one of them. *)
Theorem generate_users_all_pairs fuel (s s' : P) r :
  generate_users fuel s = Some (r, s') ->
  r = Ok tt /\
  (forall f l, f ∈ first_names -> l ∈ last_names -> email_of f l ∉ emails (rs_state s)) /\
  (forall f l, f ∈ first_names -> l ∈ last_names -> email_of f l ∈ emails (rs_state s')).
Proof.
  intros E. pose proof (generate_users_used _ fuel s r s' eq_refl E) as Hu.
  destruct r as [[]|e]; [|done]. simpl in Hu.
  pose proof (count_used_le (emails (rs_state s'))). unfold used in Hu.
  split_and!; [done| |].
  - intros f l Hf Hl Hin. pose proof (count_used_pos _ _ (email_of_combos f l Hf Hl) Hin). lia.
  - intros f l Hf Hl. apply (count_used_full _ _); [lia|]. by apply email_of_combos.
Qed.

Lemma make_db_run (w : W) n :
  Qdrant.q_up (qdrant w) = true ->
  exists w', make_db (mkR w n) = Some (Ok tt, mkR w' n) /\ sql w' = sql w.
Proof.
  intros Hup. unfold make_db, on_state, qdrant_call, zoom, Qdrant.init,
    Qdrant.create_collection_if_not_exists. simpl. rewrite Hup.
  destruct (Qdrant.q_collections (qdrant w) !! _); eexists; split; reflexivity.
Qed.

(** C12: running the seeding script against a database that already holds
    one of the 100 generated emails (for instance a second run) never
    ends: for every fuel and every seed the run is undetermined. *)
Theorem populate_rerun_diverges fuel (w : W) n f l :
  Qdrant.q_up (qdrant w) = true ->
  f ∈ first_names -> l ∈ last_names -> email_of f l ∈ emails w ->
  populate fuel (mkR w n) = None.
Proof.
  intros Hup Hf Hl Hin. destruct (make_db_run w n Hup) as (w' & Hdb & Hsql).
  unfold populate, fbind at 1. rewrite Hdb. unfold fbind at 1.
  rewrite (generate_users_stuck fuel (mkR w' n) f l Hf Hl); [done|].
  unfold emails in *. simpl. by rewrite Hsql.
Qed.

End Users.

(** ** [pick_user]: the loop that draws a user with search history *)
Section PickUser.
Context {I : Type} `{!VectorIndex I} `{!TextEmbedder} `{!RandomSource}.
Local Abbreviation W := (world I).
Local Abbreviation P := (rstate (world I)).

(** The user id of the draw number [n]. *)
Definition drawn_user (n : nat) : Z := 1 + rng n mod 100.

Lemma pick_user_step (w : W) n fuel :
  pick_user (S fuel) (mkR w n) =
  if bool_decide (drawn_user n ∈ exclude_user_ids) then pick_user fuel (mkR w (S n))
  else Some (Ok (drawn_user n), mkR w (S n)).
Proof. unfold pick_user, drawn_user. cbn. change (100 - 1 + 1) with 100. by case_bool_decide. Qed.

Lemma pick_user_exact (w : W) k : forall n,
  (forall j, (j < k)%nat -> drawn_user (n + j) ∈ exclude_user_ids) ->
  drawn_user (n + k) ∉ exclude_user_ids ->
  pick_user (S k) (mkR w n) = Some (Ok (drawn_user (n + k)), mkR w (n + k + 1)).
Proof.
  induction k as [|k IH]; intros n Hex Hgood; rewrite pick_user_step.
  - rewrite Nat.add_0_r in *. rewrite bool_decide_eq_false_2 by done.
    by rewrite Nat.add_1_r.
  - rewrite bool_decide_eq_true_2 by (rewrite <- (Nat.add_0_r n); apply Hex; lia).
    replace (n + S k)%nat with (S n + k)%nat in * by lia.
    apply IH; [|done]. intros j Hj. replace (S n + j)%nat with (n + S j)%nat by lia.
    apply Hex. lia.
Qed.

(** C26: the [while True] loop of [generate_search_histories] stops at the
    first draw of a user id that is not excluded: with more fuel than
    the number of excluded draws before it, the run returns that id and
    uses exactly those draws. *)
Theorem pick_user_terminates fuel (w : W) n k :
  (forall j, (j < k)%nat -> drawn_user (n + j) ∈ exclude_user_ids) ->
  drawn_user (n + k) ∉ exclude_user_ids ->
  (k < fuel)%nat ->
  pick_user fuel (mkR w n) = Some (Ok (drawn_user (n + k)), mkR w (n + k + 1)).
Proof.
  intros Hex Hgood Hfuel. apply (while_true_mono _ (S k)); [lia|].
  exact (pick_user_exact w k n Hex Hgood).
Qed.

(** The id it returns is one of the users [1 .. 100] that are not
    excluded, and the loop changes no world. *)
Lemma hoare_pick_user (J : W -> Prop) fuel E :
  hoare (on_world J) (pick_user fuel)
    (fun u s => (1 <= u <= 100 /\ u ∉ exclude_user_ids) /\ on_world J s) E.
Proof.
  apply hoare_while. eapply hoare_bind; [apply hoare_randint; [lia|apply on_world_stable]|].
  intros u. apply hoare_pure_pre. intros Hu. apply hoare_ret. intros s Hs.
  case_bool_decide; [done|]. split; [split|]; done.
Qed.

Lemma finv_pick_user (J : W -> Prop) fuel : finv J (pick_user fuel).
Proof.
  eapply hoare_conseq; [apply (hoare_pick_user J fuel (fun _ => on_world J))|done| |done]. by intros ? ? [_ ?].
Qed.

End PickUser.

(** ** What the seeding writes to the three log tables *)
Section Logs.
Context {I : Type} `{!VectorIndex I} `{!TextEmbedder} `{!RandomSource}.
Local Abbreviation W := (world I).
Local Abbreviation P := (rstate (world I)).

(** The writes of the seeding other than the logs leave the three log
    tables as they are. *)
Definition logs_frame (w w' : W) : Prop :=
  search_history (sql w') = search_history (sql w) /\
  recommendations (sql w') = recommendations (sql w) /\
  feedbacks (sql w') = feedbacks (sql w).

#[local] Instance logs_frame_preorder : PreOrder logs_frame.
Proof.
  split; [intros w; by split_and!|]. intros ??? (?&?&?) (?&?&?). split_and!; congruence.
Qed.

Lemma now_logs_frame : guarantee logs_frame now.
Proof. by intros w. Qed.

Lemma qdrant_call_logs_frame {A} (c : M (Qdrant.qstate I) A) :
  guarantee logs_frame (qdrant_call c).
Proof. intros w. unfold logs_frame. by rewrite qdrant_call_sql. Qed.

Lemma set_users_logs_frame f : guarantee logs_frame (modify_sql (set_users f)).
Proof. by intros w. Qed.
Lemma set_categories_logs_frame f : guarantee logs_frame (modify_sql (set_categories f)).
Proof. by intros w. Qed.
Lemma set_products_logs_frame f : guarantee logs_frame (modify_sql (set_products f)).
Proof. by intros w. Qed.

#[local] Hint Resolve now_logs_frame qdrant_call_logs_frame set_users_logs_frame
  set_categories_logs_frame set_products_logs_frame : ecom.

Lemma record_user_logs_frame email pd : guarantee logs_frame (record_user email pd).
Proof. unfold record_user. guarantee_tac. Qed.

Lemma record_category_logs_frame name d : guarantee logs_frame (record_category name d).
Proof. unfold record_category. guarantee_tac. Qed.

Lemma record_product_logs_frame c name d pr st :
  guarantee logs_frame (record_product c name d pr st).
Proof. unfold record_product, get_data, embed_product. guarantee_tac. Qed.

Lemma get_profile_logs_frame uid : guarantee logs_frame (LLM.get_profile uid).
Proof. unfold LLM.get_profile, get_data. guarantee_tac. Qed.

(** A search without a user id logs nothing. *)
Lemma search_product_anonymous_logs_frame kw mp xp ms uv t :
  guarantee logs_frame (Search.search_product None kw mp xp ms uv t).
Proof. unfold Search.search_product. guarantee_tac. Qed.

(** *** The users left without search history *)
Definition no_excluded_history (w : W) : Prop :=
  forall h, h ∈ search_history (sql w) ->
  SearchHistory.user_id h ∉ map SqlInt exclude_user_ids.

Lemma frame_no_excluded_history {A} (c : M W A) :
  guarantee logs_frame c -> preserves no_excluded_history c.
Proof.
  apply guarantee_preserves. intros w w' Hw (Hh & _ & _) h. rewrite Hh. apply Hw.
Qed.

Lemma record_recommendation_history uid pid sc :
  preserves no_excluded_history (record_recommendation uid pid sc).
Proof. intros w Hw. unfold record_recommendation, modify_sql. run_m. exact Hw. Qed.

Lemma record_recommendation_feedback_history rid uid r :
  preserves no_excluded_history (record_recommendation_feedback rid uid r).
Proof.
  intros w Hw. unfold record_recommendation_feedback, modify_sql. run_m.
  by case_bool_decide.
Qed.

Lemma record_search_history_history u q :
  u ∉ exclude_user_ids ->
  preserves no_excluded_history (record_search_history (PyInt u) q).
Proof.
  intros Hu w Hw. unfold record_search_history, modify_sql. destruct q; run_m; [|done].
  intros h. cbn [sql search_history set_search_history]. rewrite elem_of_app, list_elem_of_singleton. intros [Hin | ->]; [by apply Hw|].
  cbn [SearchHistory.user_id]. rewrite list_elem_of_In, in_map_iff. intros (x & [= ->] & Hx).
  by apply Hu, list_elem_of_In.
Qed.

#[local] Hint Resolve frame_no_excluded_history record_user_logs_frame
  record_category_logs_frame record_product_logs_frame get_profile_logs_frame
  search_product_anonymous_logs_frame record_recommendation_history
  record_recommendation_feedback_history record_search_history_history : ecom.

Lemma search_round_history fuel : finv no_excluded_history (search_round fuel).
Proof.
  unfold search_round. eapply hoare_bind; [apply hoare_pick_user|]. intros u.
  apply hoare_pure_pre. intros [_ Hu]. unfold profile_of. finv_tac.
Qed.

#[local] Hint Resolve search_round_history finv_pick_user : fuel.

Lemma populate_history fuel : finv no_excluded_history (populate fuel).
Proof.
  unfold populate, make_db, generate_users, user_attempt, generate_categories,
    generate_products, generate_search_histories, generate_recommendations,
    recommendation_round, recommend_one, profile_of.
  finv_tac.
Qed.

(** C23: the users [10, 20, ..., 90, 99] are left without search history:
    from a database where none of them has any (the new one included),
    every run of the script, finished or stopped by an exception, logs
    searches only for other users. *)
Theorem populate_excluded_no_history fuel (w : W) n r s' :
  no_excluded_history w -> populate fuel (mkR w n) = Some (r, s') ->
  no_excluded_history (rs_state s').
Proof. intros Hw E. destruct r; exact (populate_history fuel (mkR w n) _ _ Hw E). Qed.

(** *** Feedback only for the user's own recommendations *)
Definition authorized (w : W) : Prop := Api.feedback_authorized (sql w).

Lemma frame_authorized {A} (c : M W A) : guarantee logs_frame c -> preserves authorized c.
Proof.
  apply guarantee_preserves. intros w w' Hw (_ & Hr & Hf).
  unfold authorized, Api.feedback_authorized. rewrite Hr, Hf. exact Hw.
Qed.

Lemma record_search_history_authorized u q :
  preserves authorized (record_search_history u q).
Proof.
  intros w Hw. unfold record_search_history, modify_sql. destruct q; run_m; exact Hw.
Qed.

(** The recommendation [rid] is one made for [uid]. *)
Definition recommended (uid rid : Z) (w : W) : Prop :=
  exists rec, rec ∈ recommendations (sql w) /\
    Recommendation.recommendation_id rec = rid /\ Recommendation.user_id rec = uid.

Lemma record_recommendation_recommended uid pid sc (w : W) :
  authorized w ->
  match record_recommendation uid pid sc w with
  | (Ok rid, w') => recommended uid rid w' /\ authorized w'
  | (Raise _, w') => authorized w'
  end.
Proof.
  intros Hw. pose proof (Api.feedback_authorized_stable _ _ Hw
                           (Api.record_recommendation_stable uid pid sc w)) as Hs.
  revert Hs. unfold record_recommendation, modify_sql. run_m. intros Hs.
  split; [|exact Hs]. eexists. cbn [sql recommendations set_recommendations].
  rewrite elem_of_app, list_elem_of_singleton.
  split; [right; reflexivity|done].
Qed.

Lemma record_recommendation_feedback_authorized rid uid r (w : W) :
  recommended uid rid w -> authorized w ->
  authorized (snd (record_recommendation_feedback rid uid r w)).
Proof.
  intros (rec & Hin & Hid & Hu) Hw. unfold record_recommendation_feedback, modify_sql. run_m.
  case_bool_decide; [done|]. unfold authorized, Api.feedback_authorized. intros f. simpl.
  rewrite elem_of_app, list_elem_of_singleton. intros [Hf | ->].
  - destruct (Hw f Hf) as (x & ? & ?). by exists x.
  - by exists rec.
Qed.

(** Each feedback of the seeding rates the recommendation just made for
    the same user. *)
Lemma recommend_one_authorized uid p : finv authorized (recommend_one uid p).
Proof.
  unfold recommend_one. apply finv_bind; [finv_tac|]. intros score.
  eapply hoare_bind with
    (Q1 := fun rid s => recommended uid rid (rs_state s) /\ authorized (rs_state s)).
  - apply hoare_on_state. intros s Hs.
    pose proof (record_recommendation_recommended uid (Product.product_id p) score _ Hs).
    by destruct (record_recommendation _ _ _ _) as [[] ?].
  - intros rid. eapply hoare_bind; [apply hoare_randint; [lia|by intros ??]|]. intros rating.
    apply hoare_pure_pre. intros _.
    eapply hoare_bind with (Q1 := fun _ => on_world authorized).
    + apply hoare_on_state. intros s [Hr Hw].
      pose proof (record_recommendation_feedback_authorized rid uid rating _ Hr Hw).
      by destruct (record_recommendation_feedback _ _ _ _) as [[] ?].
    + intros _. by apply hoare_ret.
Qed.

#[local] Hint Resolve frame_authorized record_search_history_authorized : ecom.
#[local] Hint Resolve finv_pick_user : fuel.

Lemma populate_authorized fuel : finv authorized (populate fuel).
Proof.
  unfold populate, make_db, generate_users, user_attempt, generate_categories,
    generate_products, generate_search_histories, search_round, generate_recommendations,
    recommendation_round, profile_of.
  finv_tac. apply recommend_one_authorized.
Qed.

(** C13: seeding composes with serving: from a database where every
    feedback rates a recommendation made for its user (the new one
    included), every run of the script keeps this, and so does every
    sequence of API requests served afterwards. *)
Theorem seeded_then_served_feedback_authorized {gen : LLM.Generator} fuel (w : W) n r s' w' :
  Api.feedback_authorized (sql w) -> populate fuel (mkR w n) = Some (r, s') ->
  Api.reachable (rs_state s') w' -> Api.feedback_authorized (sql w').
Proof.
  intros Hw E Hr. apply (Api.feedback_authorized_reachable (rs_state s')); [|exact Hr].
  destruct r; exact (populate_authorized fuel (mkR w n) _ _ Hw E).
Qed.

(** *** The seeded scores and ratings *)
Definition seeded_ranges (w : W) : Prop :=
  (forall r, r ∈ recommendations (sql w) -> (1 # 2 <= Recommendation.score r <= 1)%Q) /\
  (forall f, f ∈ feedbacks (sql w) -> 3 <= RecommendationFeedback.rating f <= 5).

Lemma frame_seeded_ranges {A} (c : M W A) :
  guarantee logs_frame c -> preserves seeded_ranges c.
Proof.
  apply guarantee_preserves. intros w w' Hw (_ & Hr & Hf).
  unfold seeded_ranges. rewrite Hr, Hf. exact Hw.
Qed.

Lemma record_search_history_ranges u q : preserves seeded_ranges (record_search_history u q).
Proof.
  intros w Hw. unfold record_search_history, modify_sql. destruct q; run_m; exact Hw.
Qed.

Lemma record_recommendation_ranges uid pid sc :
  (1 # 2 <= sc <= 1)%Q -> preserves seeded_ranges (record_recommendation uid pid sc).
Proof.
  intros Hsc w [Hr Hf]. unfold record_recommendation, modify_sql. run_m.
  split; [|exact Hf]. intros r. simpl.
  rewrite elem_of_app, list_elem_of_singleton. intros [Hin | ->]; [by apply Hr|exact Hsc].
Qed.

Lemma record_recommendation_feedback_ranges rid uid rating :
  3 <= rating <= 5 ->
  preserves seeded_ranges (record_recommendation_feedback rid uid rating).
Proof.
  intros Hra w [Hr Hf]. unfold record_recommendation_feedback, modify_sql. run_m.
  case_bool_decide; [by split|]. split; [exact Hr|]. intros f.
  simpl.
  rewrite elem_of_app, list_elem_of_singleton. intros [Hin | ->]; [by apply Hf|exact Hra].
Qed.

(** [uniform(0.5, 1)] and [randint(3, 5)] give the values written. *)
Lemma recommend_one_ranges uid p : finv seeded_ranges (recommend_one uid p).
Proof.
  unfold recommend_one.
  eapply hoare_bind;
    [apply hoare_uniform_range; [unfold Qle; simpl; lia|apply on_world_stable]|].
  intros score. apply hoare_pure_pre. intros Hsc.
  apply finv_bind; [by apply finv_on_state, record_recommendation_ranges|]. intros rid.
  eapply hoare_bind; [apply hoare_randint; [lia|apply on_world_stable]|]. intros rating.
  apply hoare_pure_pre. intros Hra.
  apply finv_bind; [by apply finv_on_state, record_recommendation_feedback_ranges|].
  intros _. apply finv_ret.
Qed.

#[local] Hint Resolve frame_seeded_ranges record_search_history_ranges : ecom.

Lemma populate_ranges fuel : finv seeded_ranges (populate fuel).
Proof.
  unfold populate, make_db, generate_users, user_attempt, generate_categories,
    generate_products, generate_search_histories, search_round, generate_recommendations,
    recommendation_round, profile_of.
  finv_tac. apply recommend_one_ranges.
Qed.

(** C24: the seeding writes recommendation scores in [[0.5, 1]] and
    feedback ratings in [[3, 5]], inside the [1 .. 5] the API accepts:
    from a database whose scores and ratings are in these ranges (the
    new one included), every run of the script, finished or stopped by
    an exception, keeps them there. *)
Theorem populate_score_rating_bounds fuel (w : W) n r s' :
  seeded_ranges w -> populate fuel (mkR w n) = Some (r, s') -> seeded_ranges (rs_state s').
Proof. intros Hw E. destruct r; exact (populate_ranges fuel (mkR w n) _ _ Hw E). Qed.

End Logs.

(** ** Fuel only bounds the loops of the script *)
Section Fuel.
Context {I : Type} `{!VectorIndex I} `{!TextEmbedder} `{!RandomSource}.

(** Fuel is only a bound: a run of the script determined with some fuel
    is the same run with any larger fuel. *)
Lemma populate_mono : fuel_mono (fun fuel => @populate I _ _ _ fuel).
Proof.
  unfold populate, generate_users, generate_search_histories, search_round, pick_user,
    generate_recommendations, recommendation_round.
  mono_tac.
Qed.

End Fuel.
End Populate.

Module PopulateFixture.
Export RecommenderFixture.

(** A stand-in for the Mersenne Twister: the 32-bit finaliser of
    MurmurHash3 applied to the draw number. *)
Definition fmix32 (h : Z) : Z :=
  let h := Z.lxor h (Z.shiftr h 16) in
  let h := (h * 2246822507) mod 4294967296 in
  let h := Z.lxor h (Z.shiftr h 13) in
  let h := (h * 3266489909) mod 4294967296 in
  Z.lxor h (Z.shiftr h 16).

#[export] Instance fmix_source : RandomSource := fun n => fmix32 (Z.of_nat n + 1).

(** A database where [john.doe@example.com] is taken. *)
Definition w_john : world RefIndex.points :=
  state_of (record_user "john.doe@example.com" (Some "")) w0.

End PopulateFixture.

Section PopulateWitnesses.
Import Populate PopulateFixture.

(** With these draws and 1000 tries per loop, the whole script runs to
    its end on the new database. *)
Lemma users_seeded :
  match generate_users 1000 (mkR w0 0) with Some (Ok _, _) => True | _ => False end.
Proof. vm_compute. exact I. Qed.

Lemma populate_seeded :
  match populate 1000 (mkR w0 0) with Some (Ok _, _) => True | _ => False end.
Proof. vm_compute. exact I. Qed.

Lemma generate_users_all_pairs_witness :
  match generate_users 1000 (mkR w0 0) with
  | Some (r, s') => r = Ok tt /\
      forall f l, f ∈ first_names -> l ∈ last_names -> email_of f l ∈ emails (rs_state s')
  | None => False
  end.
Proof.
  pose proof users_seeded as H.
  destruct (generate_users 1000 (mkR w0 0)) as [[r s']|] eqn:E; [|exact H].
  destruct (generate_users_all_pairs 1000 _ _ _ E) as (Hr & _ & Hall).
  exact (conj Hr Hall).
Defined.

Lemma pick_user_terminates_witness :
  drawn_user 52 ∈ exclude_user_ids /\ drawn_user 53 ∈ exclude_user_ids /\
  drawn_user 54 ∉ exclude_user_ids /\
  pick_user 3 (mkR w0 52) = Some (Ok (drawn_user 54), mkR w0 55).
Proof.
  assert (H52 : drawn_user 52 ∈ exclude_user_ids)
    by (refine (bool_decide_unpack _ _); vm_compute; reflexivity).
  assert (H53 : drawn_user 53 ∈ exclude_user_ids)
    by (refine (bool_decide_unpack _ _); vm_compute; reflexivity).
  assert (H54 : drawn_user 54 ∉ exclude_user_ids)
    by (refine (bool_decide_unpack _ _); vm_compute; reflexivity).
  split_and!; [exact H52|exact H53|exact H54|].
  apply (pick_user_terminates 3 w0 52 2); [|exact H54|lia].
  intros [|[|j]] Hj; [exact H52|exact H53|lia].
Defined.

Lemma populate_rerun_diverges_witness :
  Qdrant.q_up (qdrant w_john) = true /\ "John"%string ∈ first_names /\
  "Doe"%string ∈ last_names /\ email_of "John" "Doe" ∈ emails w_john /\
  populate 1000 (mkR w_john 0) = None.
Proof.
  assert (Hup : Qdrant.q_up (qdrant w_john) = true) by (vm_compute; reflexivity).
  assert (Hf : "John"%string ∈ first_names)
    by (refine (bool_decide_unpack _ _); vm_compute; reflexivity).
  assert (Hl : "Doe"%string ∈ last_names)
    by (refine (bool_decide_unpack _ _); vm_compute; reflexivity).
  assert (Hin : email_of "John" "Doe" ∈ emails w_john)
    by (refine (bool_decide_unpack _ _); vm_compute; reflexivity).
  split_and!; [exact Hup|exact Hf|exact Hl|exact Hin|].
  exact (populate_rerun_diverges 1000 w_john 0 _ _ Hup Hf Hl Hin).
Defined.

Lemma populate_excluded_no_history_witness :
  no_excluded_history w0 /\
  match populate 1000 (mkR w0 0) with
  | Some (r, s') => no_excluded_history (rs_state s')
  | None => False
  end.
Proof.
  assert (H0 : no_excluded_history w0) by (intros h Hh; inversion Hh).
  split; [exact H0|]. pose proof populate_seeded as H.
  destruct (populate 1000 (mkR w0 0)) as [[r s']|] eqn:E; [|exact H].
  exact (populate_excluded_no_history 1000 w0 0 r s' H0 E).
Defined.

Lemma seeded_then_served_feedback_authorized_witness :
  Api.feedback_authorized (sql w0) /\
  match populate 1000 (mkR w0 0) with
  | Some (r, s') => Api.feedback_authorized (sql (rs_state s'))
  | None => False
  end.
Proof.
  assert (H0 : Api.feedback_authorized (sql w0)) by (intros f Hf; inversion Hf).
  split; [exact H0|]. pose proof populate_seeded as H.
  destruct (populate 1000 (mkR w0 0)) as [[r s']|] eqn:E; [|exact H].
  exact (seeded_then_served_feedback_authorized (gen := answer_laptop) 1000 w0 0 r s' _
           H0 E (Api.reach_init _)).
Defined.

Lemma populate_score_rating_bounds_witness :
  seeded_ranges w0 /\
  match populate 1000 (mkR w0 0) with
  | Some (r, s') => seeded_ranges (rs_state s')
  | None => False
  end.
Proof.
  assert (H0 : seeded_ranges w0) by (split; intros ? Hin; inversion Hin).
  split; [exact H0|]. pose proof populate_seeded as H.
  destruct (populate 1000 (mkR w0 0)) as [[r s']|] eqn:E; [|exact H].
  exact (populate_score_rating_bounds 1000 w0 0 r s' H0 E).
Defined.

End PopulateWitnesses.
